(** * pyTempMonitor: a shallow embedding of the acquisition pipeline

    The model follows [src/thermistor/pyTempMonitor.pyw]: the conversion of
    raw LabJack readings ([processVoltage]), the alarm latch
    ([check_alarms]), the acquisition cycle ([update_data]), the plot
    window ([update_plot]), the threshold form ([update_max_temps]) and the
    loading of the thermistor datasheet ([getThermistorData]).

    Numbers.  Python floats are modelled by exact rationals ([Q]); the
    comparisons and the division-by-zero test of the source are decided on
    the rational value.  Results are compared with [==] ([Qeq]) or after
    [Qred].  The arithmetic of [processVoltage] is not rounded, and what is
    stated of its results is what rounding keeps.  Where the source cuts a
    float down to an integer ([getConfig]), the quotient is first rounded
    to the nearest binary64 number ([binary64]), as the float division
    does.

    Exceptions.  A Python exception is a value of [PyExc]; code that can
    raise returns a [result], and code that mutates [self] before it raises
    runs in the monad [M], which keeps the mutated state next to the
    exception, as Python does.

    Dictionaries keyed by the device id ([self.vin], [self.resistances],
    [self.temp_data], ...) are [gmap string _]; Python lists are lists,
    indexed with stdpp's lookup and updated with stdpp's insert after an
    explicit bounds check. *)

From Stdlib Require Import ZArith QArith Qround Lia Lqa Sorted.
From stdpp Require Import base option list strings gmap.

Local Open Scope Z_scope.

(** ** Exceptions and results *)

Inductive ValueErrorKind : Type :=
  | BelowInterpolationRange   (* interp1d: x_new below self.x[0]  *)
  | AboveInterpolationRange   (* interp1d: x_new above self.x[-1] *)
  | TooFewEntries             (* interp1d: fewer than one point   *)
  | NotInList                 (* list.index: value absent         *)
  | ShapeMismatch             (* np.hstack: row counts differ     *)
  | InvalidFloat.             (* float(text): text is no number   *)

Inductive PyExc : Type :=
  | ZeroDivisionError
  | ValueError (k : ValueErrorKind)
  | IndexError
  | KeyError
  | TypeError
  | NoSectionError
  | OverflowError
  | ExternalError (what : string).

Inductive result (A : Type) : Type :=
  | Ok (a : A)
  | Raise (e : PyExc).
Arguments Ok {A} a.
Arguments Raise {A} e.

#[global] Instance result_ret : MRet result := fun A a => Ok a.
#[global] Instance result_bind : MBind result := fun A B k r =>
  match r with
  | Ok a => k a
  | Raise e => Raise e
  end.

Definition is_raise {A} (r : result A) : Prop :=
  match r with Ok _ => False | Raise _ => True end.

(** ** Python primitives used by the source *)

Definition Qlt_bool (a b : Q) : bool := negb (Qle_bool b a).

(** [a / b] on floats: [ZeroDivisionError] when [b] is zero. *)
Definition py_div (a b : Q) : result Q :=
  if Qeq_bool b 0 then Raise ZeroDivisionError else Ok (a / b)%Q.

(** [d[key]] on a dictionary. *)
Definition dict_get {V} (d : gmap string V) (key : string) : result V :=
  match d !! key with
  | Some v => Ok v
  | None => Raise KeyError
  end.

(** [l[i]] on a list, for [i >= 0]. *)
Definition list_get {A} (l : list A) (i : nat) : result A :=
  match l !! i with
  | Some a => Ok a
  | None => Raise IndexError
  end.

(** [l[i] = a] on a list, for [i >= 0]. *)
Definition list_set {A} (l : list A) (i : nat) (a : A) : result (list A) :=
  if decide (i < length l)%nat then Ok (<[i:=a]> l) else Raise IndexError.

(** [l.index(x)]: position of the first occurrence. *)
Fixpoint list_index (x : Z) (l : list Z) : result nat :=
  match l with
  | [] => Raise (ValueError NotInList)
  | y :: l' => if Z.eqb x y then Ok 0%nat
               else n ← list_index x l'; Ok (S n)
  end.

(** [l[start:]] for an integer [start]: a negative [start] counts from the
    end and is clamped at the beginning of the list, a non-negative one is
    clamped at its end. *)
Definition py_slice_from {A} (start : Z) (l : list A) : list A :=
  let len := Z.of_nat (length l) in
  let lo := if start <? 0 then Z.max (len + start) 0 else Z.min start len in
  drop (Z.to_nat lo) l.

(** ** scipy.interpolate.interp1d, linear kind, default arguments

    [interp1d(x, y)] sorts the points by [x] with a stable sort, refuses an
    empty dataset, and returns a callable.  The callable raises
    [ValueError] outside [[x[0], x[-1]]] (the default [bounds_error]) and
    otherwise evaluates [numpy.interp] on the sorted points.  It checks
    neither duplicates nor monotonicity.  [interp_linear] follows
    [numpy.interp]: it goes to the last point [lo] whose [x] is not above
    [x_new]; if that is the last point of the table, or if [x_new] is the
    [x] of [lo], the value is the [y] of [lo]; otherwise it interpolates on
    the segment from [lo] to the next point.  On a table with a repeated
    [x] the value at that [x] is therefore the [y] of the last of the
    repeated points. *)

Definition Interpolator : Type := list (Q * Q).

Fixpoint insert_point (p : Q * Q) (l : list (Q * Q)) : list (Q * Q) :=
  match l with
  | [] => [p]
  | q :: l' => if Qle_bool (fst p) (fst q) then p :: l
               else q :: insert_point p l'
  end.

Definition sort_points (l : list (Q * Q)) : list (Q * Q) :=
  foldr insert_point [] l.

Definition interp1d (x_y : list (Q * Q)) : result Interpolator :=
  if decide (length x_y < 1)%nat then Raise (ValueError TooFewEntries)
  else Ok (sort_points x_y).

Fixpoint interp_linear (lo : Q * Q) (rest : list (Q * Q)) (x_new : Q) : Q :=
  match rest with
  | [] => snd lo
  | hi :: rest' =>
      if Qle_bool (fst hi) x_new then interp_linear hi rest' x_new
      else if Qeq_bool (fst lo) x_new then snd lo
      else ((snd hi - snd lo) / (fst hi - fst lo) * (x_new - fst lo) + snd lo)%Q
  end.

Definition interp_call (f : Interpolator) (x_new : Q) : result Q :=
  match f with
  | [] => Raise IndexError
  | lo :: rest =>
      if Qlt_bool x_new (fst lo) then Raise (ValueError BelowInterpolationRange)
      else if Qlt_bool (fst (List.last rest lo)) x_new
           then Raise (ValueError AboveInterpolationRange)
           else Ok (interp_linear lo rest x_new)
  end.

(** ** The configuration loaded by [getConfig] and the calibration

    One entry per device id in every dictionary.  [vin] is the configured
    excitation voltage ([VIN]), which [getConfig] also writes to the
    device's output channel. *)

Record Config : Type := {
  ljsID : list string;
  timer_value : Z;
  log_max : Z;
  read_channels : gmap string (list Z);
  labels : gmap string (list string);
  max_temps : gmap string (list Q);
  resistances : gmap string (list Q);
  vin : gmap string Q;
  plot_channel : gmap string (list bool);
  temp_interpolate_50k : option Interpolator
}.

(** [self.temp_interpolate_50k(r)]; calling [None] is a [TypeError]. *)
Definition call_interpolator (f : option Interpolator) (r : Q) : result Q :=
  match f with
  | None => Raise TypeError
  | Some tbl => interp_call tbl r
  end.

(** ** processVoltage *)

(** The body of the loop of [processVoltage] for one reading
    [mV = (millivolt, channel)]; returns [(temperature, r)]. *)
Definition processVoltage_body (self : Config) (key : string) (mV : Q * Z)
  : result (Q * Q) :=
  let v := (fst mV / 1000)%Q in
  let i := snd mV in
  let vin := 2.5%Q in
  res ← dict_get (resistances self) key;
  chans ← dict_get (read_channels self) key;
  pos ← list_index i chans;
  r1 ← list_get res pos;
  r ← py_div (r1 * v)%Q (vin - v)%Q;
  t ← call_interpolator (temp_interpolate_50k self) r;
  Ok (t, r).

Fixpoint processVoltage_loop (self : Config) (key : string)
  (voltages : list (Q * Z)) (temp resistance : list Q)
  : result (list Q * list Q) :=
  match voltages with
  | [] => Ok (temp, resistance)
  | mV :: rest =>
      tr ← processVoltage_body self key mV;
      processVoltage_loop self key rest (temp ++ [fst tr]) (resistance ++ [snd tr])
  end.

Definition processVoltage (self : Config) (voltages : list (Q * Z)) (key : string)
  : result (list Q * list Q) :=
  processVoltage_loop self key voltages [] [].

(** ** The mutable state of the window and the monad of a cycle

    [temp_data[key]] and [voltage_data[key]] are the two-dimensional arrays
    of the source, one row per channel and one column per cycle; they are
    modelled row by row, each row in chronological order.  The last four
    fields record what the code does to the outside: the calls of
    [send_alarm_email], the readings handed to [self.log.log], the lines
    drawn on the axes, the exceptions printed by the handler of
    [update_data], and the callbacks registered with [self.after]. *)

Record State : Type := {
  alarm_triggered : gmap string (list bool);
  time_data : list string;
  temp_data : gmap string (list (list Q));
  voltage_data : gmap string (list (list Q));
  alarm_emails : list (string * nat * Q);
  log_lines : list (string * list Q);
  plot_lines : list (string * list string * list Q);
  printed : list PyExc;
  pending : list Z
}.

Definition set_alarm_triggered (v : gmap string (list bool)) (s : State) : State :=
  {| alarm_triggered := v; time_data := time_data s; temp_data := temp_data s;
     voltage_data := voltage_data s; alarm_emails := alarm_emails s;
     log_lines := log_lines s; plot_lines := plot_lines s;
     printed := printed s; pending := pending s |}.

Definition set_time_data (v : list string) (s : State) : State :=
  {| alarm_triggered := alarm_triggered s; time_data := v; temp_data := temp_data s;
     voltage_data := voltage_data s; alarm_emails := alarm_emails s;
     log_lines := log_lines s; plot_lines := plot_lines s;
     printed := printed s; pending := pending s |}.

Definition set_temp_data (v : gmap string (list (list Q))) (s : State) : State :=
  {| alarm_triggered := alarm_triggered s; time_data := time_data s; temp_data := v;
     voltage_data := voltage_data s; alarm_emails := alarm_emails s;
     log_lines := log_lines s; plot_lines := plot_lines s;
     printed := printed s; pending := pending s |}.

Definition set_voltage_data (v : gmap string (list (list Q))) (s : State) : State :=
  {| alarm_triggered := alarm_triggered s; time_data := time_data s;
     temp_data := temp_data s; voltage_data := v; alarm_emails := alarm_emails s;
     log_lines := log_lines s; plot_lines := plot_lines s;
     printed := printed s; pending := pending s |}.

Definition set_alarm_emails (v : list (string * nat * Q)) (s : State) : State :=
  {| alarm_triggered := alarm_triggered s; time_data := time_data s;
     temp_data := temp_data s; voltage_data := voltage_data s; alarm_emails := v;
     log_lines := log_lines s; plot_lines := plot_lines s;
     printed := printed s; pending := pending s |}.

Definition set_log_lines (v : list (string * list Q)) (s : State) : State :=
  {| alarm_triggered := alarm_triggered s; time_data := time_data s;
     temp_data := temp_data s; voltage_data := voltage_data s;
     alarm_emails := alarm_emails s; log_lines := v; plot_lines := plot_lines s;
     printed := printed s; pending := pending s |}.

Definition set_plot_lines (v : list (string * list string * list Q)) (s : State) : State :=
  {| alarm_triggered := alarm_triggered s; time_data := time_data s;
     temp_data := temp_data s; voltage_data := voltage_data s;
     alarm_emails := alarm_emails s; log_lines := log_lines s; plot_lines := v;
     printed := printed s; pending := pending s |}.

Definition set_printed (v : list PyExc) (s : State) : State :=
  {| alarm_triggered := alarm_triggered s; time_data := time_data s;
     temp_data := temp_data s; voltage_data := voltage_data s;
     alarm_emails := alarm_emails s; log_lines := log_lines s;
     plot_lines := plot_lines s; printed := v; pending := pending s |}.

Definition set_pending (v : list Z) (s : State) : State :=
  {| alarm_triggered := alarm_triggered s; time_data := time_data s;
     temp_data := temp_data s; voltage_data := voltage_data s;
     alarm_emails := alarm_emails s; log_lines := log_lines s;
     plot_lines := plot_lines s; printed := printed s; pending := v |}.

(** A computation that reads and writes the state and may raise; the state
    reached when the exception is raised is kept. *)
Definition M (A : Type) : Type := State -> result A * State.

#[global] Instance M_ret : MRet M := fun A a s => (Ok a, s).
#[global] Instance M_bind : MBind M := fun A B k m s =>
  match m s with
  | (Ok a, s') => k a s'
  | (Raise e, s') => (Raise e, s')
  end.

Definition get_state : M State := fun s => (Ok s, s).
Definition modify (f : State -> State) : M unit := fun s => (Ok tt, f s).
Definition lift {A} (r : result A) : M A := fun s => (r, s).

(** [try: body / except Exception as e: handler e]. *)
Definition try_except (body : M unit) (handler : PyExc -> M unit) : M unit :=
  fun s =>
    match body s with
    | (Ok tt, s') => (Ok tt, s')
    | (Raise e, s') => handler e s'
    end.

(** [for x in l: body x]. *)
Fixpoint for_each {A} (l : list A) (body : A -> M unit) : M unit :=
  match l with
  | [] => mret tt
  | x :: l' => body x;; for_each l' body
  end.

(** What the collaborators of one cycle do: the hardware read, the clock,
    and the logger, which either returns ([None]) or raises. *)
Record Env : Type := {
  ljs_read : result (gmap string (list (Q * Z)));
  now : string;
  log_log : string -> list Q -> option PyExc
}.

(** ** check_alarms *)

(** [send_alarm_email]: its whole body is inside [try ... except Exception],
    so it returns normally whatever the transport does; the call is
    recorded. *)
Definition send_alarm_email (key : string) (channel_index : nat) (temp_val : Q)
  : M unit :=
  modify (fun s => set_alarm_emails (alarm_emails s ++ [(key, channel_index, temp_val)]) s).

(** [self.alarm_triggered[key][i] = b]. *)
Definition set_triggered (key : string) (i : nat) (b : bool) : M unit :=
  s ← get_state;
  trig ← lift (dict_get (alarm_triggered s) key);
  trig' ← lift (list_set trig i b);
  modify (fun s => set_alarm_triggered (<[key := trig']> (alarm_triggered s)) s).

(** The body of the loop of [check_alarms] for channel [i]. *)
Definition check_alarm_channel (self : Config) (key : string) (i : nat)
  (temp_val : Q) : M unit :=
  mts ← lift (dict_get (max_temps self) key);
  th ← lift (list_get mts i);
  if Qlt_bool th temp_val then
    s ← get_state;
    trig ← lift (dict_get (alarm_triggered s) key);
    b ← lift (list_get trig i);
    if negb b then
      send_alarm_email key i temp_val;;
      set_triggered key i true
    else mret tt
  else set_triggered key i false.

(** The loop of [check_alarms], from index [i] on. *)
Fixpoint check_alarms_from (self : Config) (key : string) (i : nat) (temp : list Q)
  : M unit :=
  match temp with
  | [] => mret tt
  | temp_val :: rest =>
      check_alarm_channel self key i temp_val;;
      check_alarms_from self key (S i) rest
  end.

Definition check_alarms (self : Config) (temp : list Q) (key : string) : M unit :=
  check_alarms_from self key 0 temp.

(** ** update_plot *)

(** The samples shown for a window of [max_points]: [data[-max_points:]]. *)
Definition recent_window {A} (max_points : Z) (data : list A) : list A :=
  py_slice_from (- max_points) data.

(** [self.ax.plot(time_array, row, label=label)]: the two series must have
    the same length. *)
Definition ax_plot (time_array : list string) (row : list Q) (label : string)
  : M unit :=
  if decide (length time_array = length row)
  then modify (fun s => set_plot_lines (plot_lines s ++ [(label, time_array, row)]) s)
  else lift (Raise (ValueError ShapeMismatch)).

Fixpoint plot_rows (self : Config) (key : string) (time_array : list string)
  (temp_array : list (list Q)) (i : nat) (lbls : list string) : M unit :=
  match lbls with
  | [] => mret tt
  | label :: rest =>
      flags ← lift (dict_get (plot_channel self) key);
      flag ← lift (list_get flags i);
      (if flag : bool then
         row ← lift (list_get temp_array i);
         ax_plot time_array row label
       else mret tt);;
      plot_rows self key time_array temp_array (S i) rest
  end.

Definition update_plot (self : Config) : M unit :=
  s ← get_state;
  if decide (time_data s = [] \/ temp_data s = ∅) then mret tt
  else
    let max_points := Z.min (log_max self) (Z.of_nat (length (time_data s))) in
    let time_array := recent_window max_points (time_data s) in
    modify (set_plot_lines []);;
    for_each (ljsID self) (fun key =>
      td ← lift (dict_get (temp_data s) key);
      let temp_array := map (recent_window max_points) td in
      lbls ← lift (dict_get (labels self) key);
      plot_rows self key time_array temp_array 0 lbls).

(** ** update_data *)

(** [np.hstack((a, column))]: the row counts must agree. *)
Definition hstack (a : list (list Q)) (column : list Q) : result (list (list Q)) :=
  if decide (length a = length column)
  then Ok (zip_with (fun row x => row ++ [x]) a column)
  else Raise (ValueError ShapeMismatch).

(** The body of [for key in self.ljsID] in [update_data].  The updates of
    the Tk labels are display only and are left out. *)
Definition update_data_device (env : Env) (self : Config)
  (voltages : gmap string (list (Q * Z))) (key : string) : M unit :=
  vs ← lift (dict_get voltages key);
  tr ← lift (processVoltage self vs key);
  let temp := fst tr in
  s ← get_state;
  old_t ← lift (dict_get (temp_data s) key);
  new_t ← lift (hstack old_t temp);
  modify (fun s => set_temp_data (<[key := new_t]> (temp_data s)) s);;
  old_v ← lift (dict_get (voltage_data s) key);
  new_v ← lift (hstack old_v (map fst vs));
  modify (fun s => set_voltage_data (<[key := new_v]> (voltage_data s)) s);;
  match log_log env key temp with
  | Some e => lift (Raise e)
  | None => modify (fun s => set_log_lines (log_lines s ++ [(key, temp)]) s)
  end;;
  check_alarms self temp key.

Definition update_data_try (env : Env) (self : Config) : M unit :=
  voltages ← lift (ljs_read env);
  modify (fun s => set_time_data (time_data s ++ [now env]) s);;
  for_each (ljsID self) (update_data_device env self voltages);;
  update_plot self.

Definition update_data (env : Env) (self : Config) : M unit :=
  try_except (update_data_try env self)
             (fun e => modify (fun s => set_printed (printed s ++ [e]) s));;
  modify (fun s => set_pending (pending s ++ [timer_value self]) s).

(** ** The Tk timer loop

    [self.after(ms, self.update_data)] registers one callback; the main loop
    runs a registered callback at each tick.  [mainloop] runs one tick per
    element of [envs] and counts the cycles run; it stops early only when
    no callback is registered. *)
Fixpoint mainloop (self : Config) (envs : list Env) (s : State) (cycles : nat)
  : State * nat :=
  match envs with
  | [] => (s, cycles)
  | env :: envs' =>
      match pending s with
      | [] => (s, cycles)
      | _ :: later =>
          mainloop self envs' (snd (update_data env self (set_pending later s)))
                   (S cycles)
      end
  end.

(** ** update_max_temps

    [entries] holds, for each entry field, what [float(entry.get())] gives:
    [Some q] when the text is a number, [None] when [float] raises
    [ValueError].  [self.config] is a map from section names to options;
    the value written for an option is the float whose [str] the source
    stores. *)

Record Form : Type := {
  form_max_temps : gmap string (list Q);
  form_config : gmap string (gmap string Q)
}.

(** [[float(entry.get()) for entry in entries]]. *)
Fixpoint float_entries (entries : list (option Q)) : result (list Q) :=
  match entries with
  | [] => Ok []
  | None :: _ => Raise (ValueError InvalidFloat)
  | Some q :: rest => qs ← float_entries rest; Ok (q :: qs)
  end.

(** The decimal spelling of [i], as an f-string prints it. *)
Definition str_nat (i : nat) : string := pretty.pretty i.

(** [self.config.set(section, option, value)]. *)
Definition config_set (section option : string) (value : Q)
  (config : gmap string (gmap string Q)) : result (gmap string (gmap string Q)) :=
  match config !! section with
  | None => Raise NoSectionError
  | Some opts => Ok (<[section := <[option := value]> opts]> config)
  end.

(** [for i, temp in enumerate(max_temps): self.config.set(...)], from [i]. *)
Fixpoint config_set_max_temps (key : string) (i : nat) (max_temps : list Q)
  (config : gmap string (gmap string Q)) : result (gmap string (gmap string Q)) :=
  match max_temps with
  | [] => Ok config
  | temp :: rest =>
      config' ← config_set ("alarm" +:+ key) ("max_temp_" +:+ str_nat i) temp config;
      config_set_max_temps key (S i) rest config'
  end.

(** The loop over [self.max_temp_entries.items()].  Only [ValueError] is
    caught, inside the loop; any other exception leaves the function. *)
Fixpoint update_max_temps (items : list (string * list (option Q))) (f : Form)
  : result unit * Form :=
  match items with
  | [] => (Ok tt, f)
  | (key, entries) :: rest =>
      match float_entries entries with
      | Raise (ValueError _) => update_max_temps rest f
      | Raise e => (Raise e, f)
      | Ok max_temps =>
          let f1 := {| form_max_temps := <[key := max_temps]> (form_max_temps f);
                       form_config := form_config f |} in
          match config_set_max_temps key 0 max_temps (form_config f1) with
          | Raise (ValueError _) => update_max_temps rest f1
          | Raise e => (Raise e, f1)
          | Ok config' =>
              update_max_temps rest
                {| form_max_temps := form_max_temps f1; form_config := config' |}
          end
      end
  end.

(** ** getThermistorData and the end of [__init__] *)

Definition set_temp_interpolate_50k (v : option Interpolator) (self : Config)
  : Config :=
  {| ljsID := ljsID self; timer_value := timer_value self; log_max := log_max self;
     read_channels := read_channels self; labels := labels self;
     max_temps := max_temps self; resistances := resistances self;
     vin := vin self; plot_channel := plot_channel self;
     temp_interpolate_50k := v |}.

(** [csv] is what [pd.read_csv] and the two column lookups give: the rows
    [(Resistance, Temperature)] in file order, or the exception raised.
    Returns the window and the exception printed, if any. *)
Definition getThermistorData (csv : result (list (Q * Q))) (self : Config)
  : Config * option PyExc :=
  match (df ← csv; interp1d (reverse df)) with
  | Ok f => (set_temp_interpolate_50k (Some f) self, None)
  | Raise e => (self, Some e)
  end.

(** [{key: [False] * len(self.labels[key]) for key in self.ljsID}] and the
    like: one value per device, computed from its labels. *)
Fixpoint per_device {V} (self : Config) (keys : list string)
  (f : list string -> V) : result (gmap string V) :=
  match keys with
  | [] => Ok ∅
  | key :: rest =>
      lbls ← dict_get (labels self) key;
      m ← per_device self rest f;
      Ok (<[key := f lbls]> m)
  end.

(** What the rest of the constructor meets: the datasheet, the lookup of
    the [email] options in the configuration, and the creation of the
    widgets and of the window icon, each of which may raise. *)
Record Boot : Type := {
  thermistor_csv : result (list (Q * Q));
  email_options : result unit;
  widgets : result unit
}.

(** [__init__] from the call of [getThermistorData] on: the e-mail
    settings, the latches, the empty arrays, the widgets, and the first
    call of [update_data].  [Raise] means that the constructor raised and
    the program did not start. *)
Definition MainWindow_init (boot : Boot) (env : Env) (self0 : Config)
  : result (Config * State) :=
  let self :=
    fst (getThermistorData (thermistor_csv boot)
           (set_temp_interpolate_50k None self0)) in
  _ ← email_options boot;
  latches ← per_device self (ljsID self) (fun l => replicate (length l) false);
  temps ← per_device self (ljsID self) (fun l => replicate (length l) ([] : list Q));
  volts ← per_device self (ljsID self) (fun l => replicate (length l) ([] : list Q));
  _ ← widgets boot;
  let s0 := {| alarm_triggered := latches; time_data := []; temp_data := temps;
               voltage_data := volts; alarm_emails := []; log_lines := [];
               plot_lines := []; printed := []; pending := [] |} in
  Ok (self, snd (update_data env self s0)).

(** ** Alarm events of a run of cycles *)

(** The calls of [send_alarm_email] made by [check_alarms] in one cycle. *)
Definition alarms_of_cycle (self : Config) (key : string) (temp : list Q)
  (s : State) : list (string * nat * Q) * State :=
  let s' := snd (check_alarms self temp key (set_alarm_emails [] s)) in
  (alarm_emails s', set_alarm_emails (alarm_emails s ++ alarm_emails s') s').

(** The channel of an alarm call. *)
Definition alarm_channel (e : string * nat * Q) : nat := snd (fst e).

(** [check_alarms] cycle after cycle; for each cycle, in order, the channel
    indices for which an alarm was sent. *)
Fixpoint alarm_run (self : Config) (key : string) (cycles : list (list Q))
  (s : State) : list (list nat) :=
  match cycles with
  | [] => []
  | temp :: later =>
      let '(evs, s') := alarms_of_cycle self key temp s in
      map alarm_channel evs :: alarm_run self key later s'
  end.

(** The cycles, counted from [from], in which channel [i] raised an alarm,
    once per alarm. *)
Fixpoint event_cycles (i : nat) (from : nat) (run : list (list nat)) : list nat :=
  match run with
  | [] => []
  | chans :: later =>
      replicate (length (filter (fun c => c = i) chans)) from
      ++ event_cycles i (S from) later
  end.

(** As the specification words it: a channel is [Normal] or [Triggered]
    ([latched]); a reading above the threshold in state [Normal] is an
    event and latches, a reading at or below the threshold re-arms.  The
    result lists the positions of the events, counted from [from]. *)
Fixpoint spec_alarm_events (threshold : Q) (latched : bool) (from : nat)
  (temps : list Q) : list nat :=
  match temps with
  | [] => []
  | t :: later =>
      if Qlt_bool threshold t
      then (if latched then [] else [from])
           ++ spec_alarm_events threshold true (S from) later
      else spec_alarm_events threshold false (S from) later
  end.

(** The first positions of the maximal runs of readings above the
    threshold: [k] starts a run when reading [k] exceeds the threshold and
    reading [k - 1] does not, or does not exist. *)
Definition exceeds (threshold : Q) (temps : list Q) (k : nat) : bool :=
  match temps !! k with
  | Some t => Qlt_bool threshold t
  | None => false
  end.

Definition starts_run (threshold : Q) (temps : list Q) (k : nat) : bool :=
  exceeds threshold temps k &&
  match k with
  | O => true
  | S k' => negb (exceeds threshold temps k')
  end.

Definition run_starts (threshold : Q) (temps : list Q) : list nat :=
  List.filter (starts_run threshold temps) (seq 0 (length temps)).

(** ** A concrete installation, for the scenarios

    One device with two configured channels [0] and [1], with reference
    resistances of 10 kOhm and 1 kOhm and thresholds of 50 degrees, and a
    three-row datasheet in file order (temperature rising, resistance
    falling). *)

Definition demo_key : string := "320012345".

Definition demo_datasheet : list (Q * Q) :=
  [(20000, 10); (10000, 25); (5000, 40)]%Q.

Definition demo_table : Interpolator :=
  [(5000, 40); (10000, 25); (20000, 10)]%Q.

Definition demo_config (configured_vin : Q) : Config :=
  {| ljsID := [demo_key]; timer_value := 1000; log_max := 100;
     read_channels := {[demo_key := [0; 1]]};
     labels := {[demo_key := ["inner"; "outer"]]};
     max_temps := {[demo_key := [50; 50]%Q]};
     resistances := {[demo_key := [10000; 1000]%Q]};
     vin := {[demo_key := configured_vin]};
     plot_channel := {[demo_key := [true; true]]};
     temp_interpolate_50k := Some demo_table |}.

Definition demo_state : State :=
  {| alarm_triggered := {[demo_key := [false; false]]};
     time_data := [];
     temp_data := {[demo_key := [[]; []]]};
     voltage_data := {[demo_key := [[]; []]]};
     alarm_emails := []; log_lines := []; plot_lines := [];
     printed := []; pending := [] |}.

Definition demo_env (readings : list (Q * Z)) : Env :=
  {| ljs_read := Ok {[demo_key := readings]};
     now := "2024-07-01 12:00:00";
     log_log := fun _ _ => None |}.

(** ** Well-formed calibration tables

    A table whose resistances increase strictly from one point to the
    next, as the datasheet of a thermistor gives after the reversal. *)

Fixpoint increasing_from (lo : Q * Q) (rest : list (Q * Q)) : bool :=
  match rest with
  | [] => true
  | hi :: rest' => Qlt_bool (fst lo) (fst hi) && increasing_from hi rest'
  end.

Definition strictly_increasing (tbl : Interpolator) : bool :=
  match tbl with
  | [] => true
  | lo :: rest => increasing_from lo rest
  end.

(** [self.vin] replaced by [v], everything else kept. *)
Definition set_vin (v : gmap string Q) (self : Config) : Config :=
  {| ljsID := ljsID self; timer_value := timer_value self; log_max := log_max self;
     read_channels := read_channels self; labels := labels self;
     max_temps := max_temps self; resistances := resistances self;
     vin := v; plot_channel := plot_channel self;
     temp_interpolate_50k := temp_interpolate_50k self |}.

(** A start at which everything but the datasheet is in order. *)
Definition demo_boot (csv : result (list (Q * Q))) : Boot :=
  {| thermistor_csv := csv; email_options := Ok tt; widgets := Ok tt |}.

(** A tick at which the hardware read raises. *)
Definition demo_env_unplugged : Env :=
  {| ljs_read := Raise (ExternalError "LabJack read failed");
     now := "2024-07-01 12:00:01";
     log_log := fun _ _ => None |}.

(** ** What the window holds for one device

    The two arrays and the latches of the device, and the log lines and
    alarm calls made for it. *)
Definition device_view (key : string) (s : State)
  : option (list (list Q)) * option (list (list Q)) * option (list bool)
    * list (string * list Q) * list (string * nat * Q) :=
  (temp_data s !! key, voltage_data s !! key, alarm_triggered s !! key,
   filter (fun l => fst l = key) (log_lines s),
   filter (fun e => fst (fst e) = key) (alarm_emails s)).

(** ** One cycle of the alarm check, channel by channel

    [fired] tells whether the cycle sends an alarm for channel [j], and
    [latch_after] gives the latch of channel [j] after the cycle. *)
Definition fired (mts : list Q) (trig : list bool) (temp : list Q) (j : nat) : bool :=
  match mts !! j, temp !! j, trig !! j with
  | Some th, Some t, Some b => Qlt_bool th t && negb b
  | _, _, _ => false
  end.

Definition latch_after (mts : list Q) (trig : list bool) (temp : list Q) (j : nat)
  : option bool :=
  match mts !! j, temp !! j with
  | Some th, Some t => Some (Qlt_bool th t)
  | _, _ => trig !! j
  end.

(** The readings of channel [i], cycle after cycle. *)
Definition channel_series (i : nat) (cycles : list (list Q)) : list Q :=
  map (fun temp => List.nth i temp 0%Q) cycles.

(** [self.log_max] replaced by [v], everything else kept. *)
Definition set_log_max (v : Z) (self : Config) : Config :=
  {| ljsID := ljsID self; timer_value := timer_value self; log_max := v;
     read_channels := read_channels self; labels := labels self;
     max_temps := max_temps self; resistances := resistances self;
     vin := vin self; plot_channel := plot_channel self;
     temp_interpolate_50k := temp_interpolate_50k self |}.

(** The interpolator that [getThermistorData] leaves in
    [self.temp_interpolate_50k] when it starts from [None]. *)
Definition loaded_interpolator (csv : result (list (Q * Q))) : option Interpolator :=
  match csv with
  | Ok (row :: rows) => Some (sort_points (reverse (row :: rows)))
  | Ok [] => None
  | Raise _ => None
  end.

(** [keeps proj m]: running [m] leaves the part [proj] of the state as it
    was, whether [m] returns or raises. *)
Definition keeps {A X} (proj : State -> X) (m : M A) : Prop :=
  forall s, proj (snd (m s)) = proj s.

(** ** The arrays and the time stamps

    [stacked a b]: the array [b] is the array [a] with one more column.
    [synchronised s]: every row of every array has one value per time
    stamp.  [row_behind data key i s]: row [i] of the array of [key] has
    fewer values than there are time stamps. *)
Definition stacked (a b : option (list (list Q))) : Prop :=
  exists rows column,
    a = Some rows /\ length rows = length column /\
    b = Some (zip_with (fun row x => row ++ [x]) rows column).

Definition same_or_stacked (a b : option (list (list Q))) : Prop :=
  b = a \/ stacked a b.

Definition in_step (data : gmap string (list (list Q))) (n : nat) : Prop :=
  forall key rows, data !! key = Some rows ->
                   Forall (fun row => length row = n) rows.

Definition synchronised (s : State) : Prop :=
  in_step (temp_data s) (length (time_data s)) /\
  in_step (voltage_data s) (length (time_data s)).

Definition row_behind (key : string) (i : nat) (s : State) : Prop :=
  exists rows row,
    temp_data s !! key = Some rows /\ rows !! i = Some row /\
    (length row < length (time_data s))%nat.

(** ** save_data

    The table built by [save_data] is a pandas [DataFrame]: an index of
    [df_len] rows, the column [Time], and the other columns in the order
    of their creation.  A cell is [None] where pandas holds a missing
    value. *)
Record DataFrame : Type := {
  df_len : nat;
  df_time : list (option string);
  df_columns : list (string * list (option Q))
}.

(** [pd.DataFrame({'Time': time_data})]. *)
Definition DataFrame_of_time (time_data : list string) : DataFrame :=
  {| df_len := length time_data; df_time := map Some time_data; df_columns := [] |}.

(** The columns after [df[name] = values]: an existing column keeps its
    place and takes the new values, a new one comes last. *)
Fixpoint set_column (name : string) (values : list (option Q))
  (columns : list (string * list (option Q))) : list (string * list (option Q)) :=
  match columns with
  | [] => [(name, values)]
  | (n, v) :: rest =>
      if decide (n = name) then (n, values) :: rest
      else (n, v) :: set_column name values rest
  end.

(** [df[name] = values] for a one-dimensional array [values].  A frame
    whose index is empty takes the index of a non-empty [values], its
    existing columns being filled with missing values; otherwise the
    length of [values] must be the length of the index. *)
Definition df_setitem (name : string) (values : list Q) (df : DataFrame)
  : result DataFrame :=
  if decide (df_len df = 0%nat /\ (0 < length values)%nat) then
    Ok {| df_len := length values;
          df_time := replicate (length values) None;
          df_columns :=
            set_column name (map Some values)
              (map (fun c => (fst c, replicate (length values) None))
                   (df_columns df)) |}
  else if decide (length values = df_len df) then
    Ok {| df_len := df_len df; df_time := df_time df;
          df_columns := set_column name (map Some values) (df_columns df) |}
  else Raise (ValueError ShapeMismatch).

(** The loop over [enumerate(self.labels[key])] in [save_data], from [i]. *)
Fixpoint save_data_labels (key : string) (temps voltages : list (list Q))
  (i : nat) (lbls : list string) (df : DataFrame) : result DataFrame :=
  match lbls with
  | [] => Ok df
  | label :: rest =>
      t ← list_get temps i;
      df1 ← df_setitem (key +:+ "_" +:+ label +:+ "_Temp") t df;
      v ← list_get voltages i;
      df2 ← df_setitem (key +:+ "_" +:+ label +:+ "_Voltage") v df1;
      save_data_labels key temps voltages (S i) rest df2
  end.

(** The loop over [self.ljsID] in [save_data]. *)
Fixpoint save_data_devices (self : Config) (s : State) (keys : list string)
  (df : DataFrame) : result DataFrame :=
  match keys with
  | [] => Ok df
  | key :: rest =>
      temps ← dict_get (temp_data s) key;
      voltages ← dict_get (voltage_data s) key;
      lbls ← dict_get (labels self) key;
      df1 ← save_data_labels key temps voltages 0 lbls df;
      save_data_devices self s rest df1
  end.

(** What the file system and the figure do when [save_data] writes. *)
Record SaveEnv : Type := {
  to_csv : option PyExc;
  savefig : option PyExc
}.

(** What [save_data] leaves: the table written to the CSV file, if it was
    written, and the message box shown, [None] for [showinfo] and
    [Some e] for [showerror] with the exception [e]. *)
Definition save_data (senv : SaveEnv) (self : Config) (s : State)
  : option DataFrame * option PyExc :=
  match save_data_devices self s (ljsID self) (DataFrame_of_time (time_data s)) with
  | Raise e => (None, Some e)
  | Ok df =>
      match to_csv senv with
      | Some e => (None, Some e)
      | None => (Some df, savefig senv)
      end
  end.

(** A file system and a figure that work. *)
Definition demo_save_env : SaveEnv := {| to_csv := None; savefig := None |}.

(** A table all of whose columns have one cell per row of the index. *)
Definition df_well_formed (df : DataFrame) : Prop :=
  length (df_time df) = df_len df /\
  Forall (fun c => length (snd c) = df_len df) (df_columns df).

(** The names of the two columns of a labelled channel. *)
Definition temp_column (key label : string) : string :=
  key +:+ "_" +:+ label +:+ "_Temp".
Definition voltage_column (key label : string) : string :=
  key +:+ "_" +:+ label +:+ "_Voltage".

(** The window after one cycle in which both channels were converted. *)
Definition demo_state_one_cycle : State :=
  {| alarm_triggered := {[demo_key := [false; false]]};
     time_data := ["2024-07-01 12:00:00"];
     temp_data := {[demo_key := [[25]; [28]]%Q]};
     voltage_data := {[demo_key := [[1250]; [2250]]%Q]};
     alarm_emails := []; log_lines := [(demo_key, [25; 28]%Q)]; plot_lines := [];
     printed := []; pending := [1000] |}.

(** ** getConfig

    The two [ConfigParser] objects are read through [get] and
    [getboolean], which return a value, raise [NoOptionError] (the one
    exception that the loop over the channels catches) or raise something
    else ([NoSectionError], [ValueError] for a text that is no boolean).
    [float] and [int] on a text either return or raise. *)

Inductive ConfigExc : Type :=
  | NoOptionError
  | ConfigRaise (e : PyExc).

Inductive cresult (A : Type) : Type :=
  | Got (a : A)
  | Fails (e : ConfigExc).
Arguments Got {A} a.
Arguments Fails {A} e.

#[global] Instance cresult_ret : MRet cresult := fun A a => Got a.
#[global] Instance cresult_bind : MBind cresult := fun A B k r =>
  match r with
  | Got a => k a
  | Fails e => Fails e
  end.

Definition of_result {A} (r : result A) : cresult A :=
  match r with
  | Ok a => Got a
  | Raise e => Fails (ConfigRaise e)
  end.

Record Sources : Type := {
  config_get : string -> string -> cresult string;
  internal_getboolean : string -> string -> cresult bool;
  py_float : string -> result Q;
  py_int : string -> result Z;
  all_channels : gmap string (list string);
  ljs_setOutput : string -> Z -> Q -> option PyExc
}.

(** What the [try] block of [getConfig] gathers for one channel. *)
Record ChannelEntry : Type := {
  entry_number : nat;
  entry_label : string;
  entry_max_temp : Q;
  entry_resistance : Q;
  entry_ticked : bool;
  entry_device_name : string
}.

(** The [try] block for the channel [ch_number] with address [ch_addr]:
    the five lookups, then the two conversions made by the appends. *)
Definition getConfig_channel_try (src : Sources) (key : string) (ch_number : nat)
  (ch_addr : string) : cresult ChannelEntry :=
  label ← config_get src key ch_addr;
  max_temp ← config_get src key ("max_temp_" +:+ str_nat ch_number);
  resistance ← config_get src key ("res_" +:+ ch_addr);
  ticked ← internal_getboolean src ("checkbox" +:+ key) ch_addr;
  name ← config_get src key "name";
  mt ← of_result (py_float src max_temp);
  rs ← of_result (py_float src resistance);
  Got {| entry_number := ch_number; entry_label := label; entry_max_temp := mt;
         entry_resistance := rs; entry_ticked := ticked;
         entry_device_name := name |}.

(** The loop over [zip(range(len(addrs)), addrs)], from [ch_number]: a
    channel for which an option is missing is passed over, the entries of
    the others are appended in order. *)
Fixpoint getConfig_channels (src : Sources) (key : string) (ch_number : nat)
  (addrs : list string) (entries : list ChannelEntry) : cresult (list ChannelEntry) :=
  match addrs with
  | [] => Got entries
  | ch_addr :: rest =>
      match getConfig_channel_try src key ch_number ch_addr with
      | Got e => getConfig_channels src key (S ch_number) rest (entries ++ [e])
      | Fails NoOptionError => getConfig_channels src key (S ch_number) rest entries
      | Fails e => Fails e
      end
  end.

(** The dictionaries of [self] after the loop of one device. *)
Definition set_device (key : string) (v : Q) (entries : list ChannelEntry)
  (self : Config) : Config :=
  {| ljsID := ljsID self; timer_value := timer_value self; log_max := log_max self;
     read_channels :=
       <[key := map (fun e => Z.of_nat (entry_number e)) entries]> (read_channels self);
     labels := <[key := map entry_label entries]> (labels self);
     max_temps := <[key := map entry_max_temp entries]> (max_temps self);
     resistances := <[key := map entry_resistance entries]> (resistances self);
     vin := <[key := v]> (vin self);
     plot_channel := <[key := map entry_ticked entries]> (plot_channel self);
     temp_interpolate_50k := temp_interpolate_50k self |}.

(** The body of [for key in self.ljsID] in [getConfig]; [names] is
    [self.device_name]. *)
Definition getConfig_device (src : Sources) (key : string)
  (st : Config * gmap string string) : cresult (Config * gmap string string) :=
  vin_text ← config_get src key "VIN";
  v ← of_result (py_float src vin_text);
  output_text ← config_get src key "OUTPUT";
  outputchannel ← of_result (py_int src output_text);
  _ ← match ljs_setOutput src key outputchannel v with
      | Some e => Fails (ConfigRaise e)
      | None => Got tt
      end;
  addrs ← of_result (dict_get (all_channels src) key);
  entries ← getConfig_channels src key 0 addrs [];
  Got (set_device key v entries (fst st),
       match last entries with
       | Some e => <[key := entry_device_name e]> (snd st)
       | None => snd st
       end).

Fixpoint getConfig_devices (src : Sources) (keys : list string)
  (st : Config * gmap string string) : cresult (Config * gmap string string) :=
  match keys with
  | [] => Got st
  | key :: rest =>
      st' ← getConfig_device src key st;
      getConfig_devices src rest st'
  end.

(** The integer nearest to [n / d] for [d > 0] and [n >= 0], a tie going
    to the even one. *)
Definition round_half_even (n d : Z) : Z :=
  let q := n / d in
  match 2 * (n mod d) ?= d with
  | Lt => q
  | Gt => q + 1
  | Eq => if Z.even q then q else q + 1
  end.

(** The result of a float operation whose exact value is [x]: the binary64
    number nearest to [x], a tie going to the even significand; [None]
    stands for an infinity.  [e] is the exponent of [x], [q] the exponent
    of the last bit of the result (53 bits, no lower than [-1074]), [m] the
    significand. *)
Definition binary64 (x : Q) : option Q :=
  let n := Z.abs (Qnum x) in
  let d := Z.pos (Qden x) in
  if n =? 0 then Some 0%Q
  else
    let e0 := Z.log2 n - Z.log2 d in
    let e := if (if 0 <=? e0 then d * 2 ^ e0 <=? n else d <=? n * 2 ^ (- e0))
             then e0 else e0 - 1 in
    let q := Z.max (e - 52) (-1074) in
    let m := if 0 <=? q then round_half_even n (d * 2 ^ q)
             else round_half_even (n * 2 ^ (- q)) d in
    if (0 <=? q) && (2 ^ 1024 <=? m * 2 ^ q) then None
    else Some (Qmake (Z.sgn (Qnum x) * m * 2 ^ Z.max q 0)
                     (Z.to_pos (2 ^ Z.max (- q) 0))).

(** [int(x)] for a float [x]: the integer part, towards zero;
    [OverflowError] for an infinity. *)
Definition int_of_float (x : option Q) : result Z :=
  match x with
  | Some q => Ok (Z.quot (Qnum q) (Z.pos (Qden q)))
  | None => Raise OverflowError
  end.

(** What [getConfig] leaves in [self] besides the fields of [Config]. *)
Record Folders : Type := {
  save_folder : string;
  log_folder : string;
  device_name : gmap string string
}.

(** [getConfig], for the device ids [ids] that [__init__] has stored in
    [self.ljsID]; [self.temp_interpolate_50k] is still [None]. *)
Definition getConfig (src : Sources) (ids : list string) : cresult (Config * Folders) :=
  rate_text ← config_get src "settings" "READ_RATE";
  rate ← of_result (py_float src rate_text);
  period ← of_result (quotient ← py_div 1000 rate; int_of_float (binary64 quotient));
  save ← config_get src "settings" "SAVE_FOLDER";
  log ← config_get src "settings" "LOG_FOLDER";
  log_max_text ← config_get src "settings" "LOG_MAX";
  lm ← of_result (py_int src log_max_text);
  st ← getConfig_devices src ids
         ({| ljsID := ids; timer_value := period; log_max := lm;
             read_channels := ∅; labels := ∅; max_temps := ∅; resistances := ∅;
             vin := ∅; plot_channel := ∅; temp_interpolate_50k := None |}, ∅);
  Got (fst st, {| save_folder := save; log_folder := log; device_name := snd st |}).

(** The channels of a device as [getConfig] leaves them: the entries from
    which its five lists were built. *)
Definition device_entries (self : Config) (key : string)
  (entries : list ChannelEntry) : Prop :=
  read_channels self !! key = Some (map (fun e => Z.of_nat (entry_number e)) entries) /\
  labels self !! key = Some (map entry_label entries) /\
  max_temps self !! key = Some (map entry_max_temp entries) /\
  resistances self !! key = Some (map entry_resistance entries) /\
  plot_channel self !! key = Some (map entry_ticked entries).

(** [entries] are the entries of the channels, among those of [addrs]
    numbered from [from], whose [try] block returns, in order. *)
Fixpoint entries_of (src : Sources) (key : string) (from : nat)
  (addrs : list string) (entries : list ChannelEntry) : Prop :=
  match addrs with
  | [] => entries = []
  | ch_addr :: rest =>
      match getConfig_channel_try src key from ch_addr with
      | Got e => exists entries', entries = e :: entries' /\
                                  entries_of src key (S from) rest entries'
      | Fails NoOptionError => entries_of src key (S from) rest entries
      | Fails _ => False
      end
  end.

(** A device as [getConfig] leaves it: its five lists are built from the
    entries of its channels, and [vin] holds its option [VIN]. *)
Definition configured_device (src : Sources) (self : Config) (key : string)
  (addrs : list string) (entries : list ChannelEntry) : Prop :=
  all_channels src !! key = Some addrs /\
  entries_of src key 0 addrs entries /\
  device_entries self key entries /\
  exists text v, config_get src key "VIN" = Got text /\ py_float src text = Ok v /\
                 vin self !! key = Some v.

(** A configuration with one device of three channels, the second of
    which has no resistance option. *)
Definition demo_options : gmap string string :=
  {[ "VIN" := "2.5"; "OUTPUT" := "0"; "name" := "oven";
     "AIN0" := "inner"; "max_temp_0" := "50"; "res_AIN0" := "10000";
     "AIN1" := "spare"; "max_temp_1" := "50";
     "AIN2" := "outer"; "max_temp_2" := "60"; "res_AIN2" := "1000" ]}.

Definition demo_sources : Sources :=
  {| config_get := fun section option =>
       if decide (section = "settings") then
         match ({[ "READ_RATE" := "1"; "SAVE_FOLDER" := "save/";
                   "LOG_FOLDER" := "log/"; "LOG_MAX" := "100" ]}
                  : gmap string string) !! option with
         | Some v => Got v
         | None => Fails NoOptionError
         end
       else if decide (section = demo_key) then
         match demo_options !! option with
         | Some v => Got v
         | None => Fails NoOptionError
         end
       else Fails (ConfigRaise NoSectionError);
     internal_getboolean := fun section option =>
       if decide (section = "checkbox" +:+ demo_key) then Got true
       else Fails (ConfigRaise NoSectionError);
     py_float := fun text =>
       match ({[ "1" := 1; "2.5" := 2.5; "50" := 50; "60" := 60;
                 "10000" := 10000; "1000" := 1000 ]}%Q : gmap string Q) !! text with
       | Some q => Ok q
       | None => Raise (ValueError InvalidFloat)
       end;
     py_int := fun text =>
       match ({[ "0" := 0; "100" := 100 ]} : gmap string Z) !! text with
       | Some z => Ok z
       | None => Raise (ValueError InvalidFloat)
       end;
     all_channels := {[demo_key := ["AIN0"; "AIN1"; "AIN2"]]};
     ljs_setOutput := fun _ _ _ => None |}.

(** ** checkbox_changed

    [box_plot_channel] is [self.plot_channel]; [box_internal_config] is
    [self.internal_config], a section holding for each option the boolean
    whose [str] the source stores; [box_written] lists what was written to
    [internal_config.ini], oldest first.

    [optionxform] is the method of [ConfigParser] that normalises the name
    of an option, by default [str.lower]: [set] stores the value under
    [optionxform(option)] and [get] and [getboolean] look
    [optionxform(option)] up, so that two names with the same normal form
    are one option.  The names of sections are not normalised. *)
Record Boxes : Type := {
  box_plot_channel : gmap string (list bool);
  box_internal_config : gmap string (gmap string bool);
  box_written : list (gmap string (gmap string bool))
}.

(** The loop over [enumerate(self.checkboxes[key])], from [i]; [vars]
    holds what [var.get()] returns for each box. *)
Fixpoint checkbox_vars (optionxform : string -> string)
  (channels : gmap string (list string)) (key : string)
  (i : nat) (vars : list bool) (b : Boxes) : result unit * Boxes :=
  match vars with
  | [] => (Ok tt, b)
  | var :: rest =>
      match (flags ← dict_get (box_plot_channel b) key; list_set flags i var) with
      | Raise e => (Raise e, b)
      | Ok flags' =>
          let b1 := {| box_plot_channel := <[key := flags']> (box_plot_channel b);
                       box_internal_config := box_internal_config b;
                       box_written := box_written b |} in
          match (addrs ← dict_get channels key; list_get addrs i) with
          | Raise e => (Raise e, b1)
          | Ok ch_addr =>
              match box_internal_config b1 !! ("checkbox" +:+ key) with
              | None => (Raise NoSectionError, b1)
              | Some opts =>
                  checkbox_vars optionxform channels key (S i) rest
                    {| box_plot_channel := box_plot_channel b1;
                       box_internal_config :=
                         <["checkbox" +:+ key := <[optionxform ch_addr := var]> opts]>
                           (box_internal_config b1);
                       box_written := box_written b1 |}
              end
          end
      end
  end.

(** The loop over [self.ljsID]; [open_fails] is the exception raised by
    [open('internal_config.ini', 'w')], if any. *)
Fixpoint checkbox_changed (optionxform : string -> string)
  (open_fails : option PyExc)
  (channels : gmap string (list string)) (keys : list string)
  (checkboxes : gmap string (list bool)) (b : Boxes) : result unit * Boxes :=
  match keys with
  | [] => (Ok tt, b)
  | key :: rest =>
      match dict_get checkboxes key with
      | Raise e => (Raise e, b)
      | Ok vars =>
          match checkbox_vars optionxform channels key 0 vars b with
          | (Raise e, b1) => (Raise e, b1)
          | (Ok _, b1) =>
              match open_fails with
              | Some e => (Raise e, b1)
              | None =>
                  checkbox_changed optionxform open_fails channels rest checkboxes
                    {| box_plot_channel := box_plot_channel b1;
                       box_internal_config := box_internal_config b1;
                       box_written := box_written b1 ++ [box_internal_config b1] |}
              end
          end
      end
  end.

(** [getboolean(section, option)] on a configuration held as a map, with
    no [DEFAULT] section: the option is looked up under its normal form. *)
Definition getboolean_of (optionxform : string -> string)
  (config : gmap string (gmap string bool))
  (section option : string) : cresult bool :=
  match config !! section with
  | None => Fails (ConfigRaise NoSectionError)
  | Some opts =>
      match opts !! optionxform option with
      | Some v => Got v
      | None => Fails NoOptionError
      end
  end.

(** The boxes of the device [key] are recorded: box [i] in
    [plot_channel[key][i]] and, in the section [checkbox<key>], as the
    value that [getboolean] returns for the address of the [i]-th channel
    of the device. *)
Definition boxes_recorded (optionxform : string -> string)
  (key : string) (vars : list bool) (addrs : list string)
  (b : Boxes) : Prop :=
  forall i v, vars !! i = Some v ->
    (exists flags, box_plot_channel b !! key = Some flags /\ flags !! i = Some v) /\
    (forall addr, addrs !! i = Some addr ->
                  getboolean_of optionxform (box_internal_config b)
                    ("checkbox" +:+ key) addr
                  = Got v).

(** [str.lower] on a name made of ASCII characters. *)
Definition lower_ascii (c : Ascii.ascii) : Ascii.ascii :=
  let n := Ascii.nat_of_ascii c in
  if (65 <=? n)%nat && (n <=? 90)%nat then Ascii.ascii_of_nat (n + 32) else c.

Fixpoint str_lower (s : string) : string :=
  match s with
  | EmptyString => EmptyString
  | String c s' => String (lower_ascii c) (str_lower s')
  end.

(** The boxes of the concrete installation before any click, with the
    section of the device in the internal configuration. *)
Definition demo_boxes : Boxes :=
  {| box_plot_channel := {[demo_key := [true; true]]};
     box_internal_config := {["checkbox" +:+ demo_key := ∅]};
     box_written := [] |}.

(** [src] reads the internal configuration [config]: for an option that
    the section holds under its normal form, [getboolean] returns the
    value stored (what it does for the other options, from a [DEFAULT]
    section or by raising, is left open). *)
Definition reads_internal_config (optionxform : string -> string)
  (config : gmap string (gmap string bool)) (src : Sources) : Prop :=
  forall section opts option v,
    config !! section = Some opts ->
    opts !! optionxform option = Some v ->
    internal_getboolean src section option = Got v.

(** The sources [src] with the internal configuration [config] in place
    of their own. *)
Definition with_internal_config (optionxform : string -> string)
  (config : gmap string (gmap string bool))
  (src : Sources) : Sources :=
  {| config_get := config_get src;
     internal_getboolean := getboolean_of optionxform config;
     py_float := py_float src; py_int := py_int src;
     all_channels := all_channels src; ljs_setOutput := ljs_setOutput src |}.

(** The same configuration for a device with the two channels [AIN0] and
    [AIN2], both of which have all their options. *)
Definition demo_sources_pair : Sources :=
  {| config_get := config_get demo_sources;
     internal_getboolean := internal_getboolean demo_sources;
     py_float := py_float demo_sources; py_int := py_int demo_sources;
     all_channels := {[demo_key := ["AIN0"; "AIN2"]]};
     ljs_setOutput := ljs_setOutput demo_sources |}.

(** [raises m s]: run from [s], the computation [m] ends with an
    exception. *)
Definition raises {A} (m : M A) (s : State) : Prop :=
  exists e, fst (m s) = Raise e.

(** * Properties *)

(** ** Results and primitives *)

Lemma bind_Ok_inv {A B} (r : result A) (k : A -> result B) (b : B) :
  r ≫= k = Ok b -> exists a, r = Ok a /\ k a = Ok b.
Proof. destruct r as [a|e]; simpl; [eauto | discriminate]. Qed.

Lemma bind_Raise_l {A B} (r : result A) (k : A -> result B) :
  is_raise r -> is_raise (r ≫= k).
Proof. destruct r; simpl; tauto. Qed.

Lemma dict_get_Ok {V} (d : gmap string V) key v :
  dict_get d key = Ok v <-> d !! key = Some v.
Proof. unfold dict_get. destruct (d !! key); split; congruence. Qed.

Lemma list_get_Ok {A} (l : list A) i a :
  list_get l i = Ok a <-> l !! i = Some a.
Proof. unfold list_get. destruct (l !! i); split; congruence. Qed.

Lemma Qlt_bool_true a b : Qlt_bool a b = true <-> (a < b)%Q.
Proof.
  unfold Qlt_bool. rewrite negb_true_iff, <- not_true_iff_false, Qle_bool_iff.
  split; [apply Qnot_le_lt | apply Qlt_not_le].
Qed.

Lemma Qlt_bool_false a b : Qlt_bool a b = false <-> (b <= a)%Q.
Proof. unfold Qlt_bool. rewrite negb_false_iff. apply Qle_bool_iff. Qed.

Lemma py_div_Ok a b r : py_div a b = Ok r -> ~ (b == 0)%Q /\ r = (a / b)%Q.
Proof.
  unfold py_div. destruct (Qeq_bool b 0) eqn:E; [discriminate |].
  intros [= <-]. split; [| reflexivity].
  intros H. apply Qeq_bool_iff in H. congruence.
Qed.

Lemma py_div_zero a b : (b == 0)%Q -> py_div a b = Raise ZeroDivisionError.
Proof. intros H. unfold py_div. apply Qeq_bool_iff in H. now rewrite H. Qed.

Lemma Qdiv_pos_neg a b : (0 < a)%Q -> (b < 0)%Q -> (a / b < 0)%Q.
Proof.
  intros Ha Hb.
  assert (Hnz : ~ (b == 0)%Q) by (intros E; rewrite E in Hb; now apply Qlt_irrefl in Hb).
  assert (E : (a / b == (- a) / (- b))%Q) by (field; exact Hnz).
  rewrite E. apply Qlt_shift_div_r; lra.
Qed.

(** ** processVoltage: what a successful conversion returns *)

Lemma processVoltage_body_Ok self key mV t r :
  processVoltage_body self key mV = Ok (t, r) ->
  exists res chans pos r1,
    resistances self !! key = Some res /\
    read_channels self !! key = Some chans /\
    list_index (snd mV) chans = Ok pos /\
    res !! pos = Some r1 /\
    ~ (2.5 - fst mV / 1000 == 0)%Q /\
    r = ((r1 * (fst mV / 1000)) / (2.5 - fst mV / 1000))%Q /\
    call_interpolator (temp_interpolate_50k self) r = Ok t.
Proof.
  unfold processVoltage_body. intros H.
  apply bind_Ok_inv in H as (res & Hres & H).
  apply bind_Ok_inv in H as (chans & Hch & H).
  apply bind_Ok_inv in H as (pos & Hpos & H).
  apply bind_Ok_inv in H as (r1 & Hr1 & H).
  apply bind_Ok_inv in H as (r' & Hdiv & H).
  apply bind_Ok_inv in H as (t' & Ht & H).
  injection H as -> ->.
  apply dict_get_Ok in Hres. apply dict_get_Ok in Hch. apply list_get_Ok in Hr1.
  apply py_div_Ok in Hdiv as [Hnz ->].
  exists res, chans, pos, r1. repeat split; assumption.
Qed.

Lemma processVoltage_loop_Ok self key voltages :
  forall temp0 res0 temp resistance,
    processVoltage_loop self key voltages temp0 res0 = Ok (temp, resistance) ->
    exists trs,
      Forall2 (fun mV tr => processVoltage_body self key mV = Ok tr) voltages trs /\
      temp = temp0 ++ map fst trs /\ resistance = res0 ++ map snd trs.
Proof.
  induction voltages as [|mV rest IH]; simpl; intros temp0 res0 temp resistance H.
  - injection H as <- <-. exists []. rewrite !app_nil_r. repeat split. constructor.
  - apply bind_Ok_inv in H as (tr & Hbody & H).
    apply IH in H as (trs & Hall & -> & ->).
    exists (tr :: trs). split; [constructor; assumption |].
    simpl. rewrite <- !app_assoc. split; reflexivity.
Qed.

Lemma processVoltage_loop_raise self key voltages mV :
  In mV voltages -> is_raise (processVoltage_body self key mV) ->
  forall temp0 res0, is_raise (processVoltage_loop self key voltages temp0 res0).
Proof.
  induction voltages as [|mV' rest IH]; simpl; [tauto |].
  intros [-> | Hin] Hraise temp0 res0.
  - apply bind_Raise_l. assumption.
  - destruct (processVoltage_body self key mV') as [tr|e]; simpl; [| exact I].
    apply IH; assumption.
Qed.

Lemma processVoltage_loop_returns self key voltages trs :
  Forall2 (fun mV tr => processVoltage_body self key mV = Ok tr) voltages trs ->
  forall temp0 res0,
    processVoltage_loop self key voltages temp0 res0
    = Ok (temp0 ++ map fst trs, res0 ++ map snd trs).
Proof.
  induction 1 as [|mV tr voltages trs Hbody _ IH]; intros temp0 res0; simpl.
  - rewrite !app_nil_r. reflexivity.
  - rewrite Hbody. simpl. rewrite IH, <- !app_assoc. reflexivity.
Qed.

(** C9.  [processVoltage] returns exactly when the conversion of every
    reading succeeds; the list of temperatures and the list of resistances
    it returns have the length of the list of readings, and their [i]-th
    elements come from the [i]-th reading: the resistance is the divider
    formula applied to the reference resistance of that reading's channel,
    and the temperature is the interpolation of that resistance. *)
Theorem processVoltage_keeps_channel_order self voltages key :
  (forall trs,
     Forall2 (fun mV tr => processVoltage_body self key mV = Ok tr) voltages trs ->
     processVoltage self voltages key = Ok (map fst trs, map snd trs)) /\
  (forall temp resistance,
     processVoltage self voltages key = Ok (temp, resistance) ->
     length temp = length voltages /\
     length resistance = length voltages /\
     forall i mV, voltages !! i = Some mV ->
       exists t r res chans pos r1,
         temp !! i = Some t /\ resistance !! i = Some r /\
         processVoltage_body self key mV = Ok (t, r) /\
         resistances self !! key = Some res /\
         read_channels self !! key = Some chans /\
         list_index (snd mV) chans = Ok pos /\
         res !! pos = Some r1 /\
         r = ((r1 * (fst mV / 1000)) / (2.5 - fst mV / 1000))%Q /\
         call_interpolator (temp_interpolate_50k self) r = Ok t).
Proof.
  split.
  { intros trs Hall. unfold processVoltage.
    apply (processVoltage_loop_returns self key voltages trs Hall [] []). }
  intros temp resistance. unfold processVoltage. intros H.
  apply processVoltage_loop_Ok in H as (trs & Hall & -> & ->). simpl.
  pose proof (Forall2_length _ _ _ Hall) as Hlen.
  rewrite !length_map. repeat split; try (symmetry; exact Hlen).
  intros i mV Hi.
  destruct (Forall2_lookup_l _ _ _ _ _ Hall Hi) as ([t r] & Htr & Hbody).
  pose proof Hbody as Hbody'.
  apply processVoltage_body_Ok in Hbody'
    as (res & chans & pos & r1 & Hres & Hch & Hpos & Hr1 & _ & Hr & Ht).
  exists t, r, res, chans, pos, r1.
  rewrite !list_lookup_fmap, Htr. simpl. repeat split; assumption.
Qed.

Lemma processVoltage_keeps_channel_order_witness :
  exists temp resistance,
    processVoltage (demo_config 2.5) [(1250%Q, 0); (2250%Q, 1)] demo_key
      = Ok (temp, resistance) /\
    length temp = 2%nat /\ length resistance = 2%nat.
Proof.
  eexists _, _. split; [vm_compute; reflexivity |].
  pose proof (proj2 (processVoltage_keeps_channel_order (demo_config 2.5)
                       [(1250%Q, 0); (2250%Q, 1)] demo_key) _ _ eq_refl)
    as (H1 & H2 & _).
  split; [exact H1 | exact H2].
Defined.

(** ** The interpolator on a strictly increasing table *)

Lemma increasing_from_later lo rest p :
  increasing_from lo rest = true -> In p rest -> (fst lo < fst p)%Q.
Proof.
  revert lo. induction rest as [|hi rest IH]; simpl; intros lo H Hin; [tauto |].
  apply andb_true_iff in H as [Hlt Hinc]. apply Qlt_bool_true in Hlt.
  destruct Hin as [<- | Hin]; [assumption |].
  eapply Qlt_trans; [exact Hlt | apply IH; assumption].
Qed.

Lemma last_cons_default {A} (rest : list A) (hi lo : A) :
  List.last (hi :: rest) lo = List.last rest hi.
Proof.
  revert hi lo. induction rest as [|a rest IH]; intros hi lo; [reflexivity |].
  change (List.last (hi :: a :: rest) lo) with (List.last (a :: rest) lo).
  rewrite (IH a lo), (IH a hi). reflexivity.
Qed.

Lemma increasing_from_last lo rest p :
  increasing_from lo rest = true -> In p (lo :: rest) ->
  (fst p <= fst (List.last rest lo))%Q.
Proof.
  revert p lo. induction rest as [|hi rest IH]; intros p lo H Hin.
  - destruct Hin as [<- | []]. simpl. apply Qle_refl.
  - simpl in H. apply andb_true_iff in H as [Hlt Hinc]. apply Qlt_bool_true in Hlt.
    rewrite last_cons_default.
    destruct Hin as [<- | Hin].
    + eapply Qle_trans; [apply Qlt_le_weak; exact Hlt |].
      apply IH; [assumption | now left].
    + apply IH; assumption.
Qed.

Lemma interp_linear_exact rest :
  forall lo x y r,
    increasing_from lo rest = true -> In (x, y) (lo :: rest) -> (r == x)%Q ->
    (interp_linear lo rest r == y)%Q.
Proof.
  induction rest as [|hi rest IH]; intros lo x y r Hinc Hin Hr.
  - destruct Hin as [-> | []]. reflexivity.
  - pose proof Hinc as Hinc'. simpl in Hinc'.
    apply andb_true_iff in Hinc' as [Hlt Hrest]. apply Qlt_bool_true in Hlt.
    simpl. destruct (Qle_bool (fst hi) r) eqn:Hle.
    + apply Qle_bool_iff in Hle.
      destruct Hin as [-> | Hin]; [simpl in *; lra |].
      apply (IH hi x y r); assumption.
    + assert (Hgt : (r < fst hi)%Q).
      { apply Qnot_le_lt. intros Hc. apply Qle_bool_iff in Hc. congruence. }
      destruct Hin as [-> | [-> | Hin]]; simpl in *.
      * assert (Heq : Qeq_bool x r = true)
          by (apply Qeq_bool_iff; symmetry; exact Hr).
        rewrite Heq. reflexivity.
      * lra.
      * pose proof (increasing_from_later _ _ _ Hrest Hin) as Hlater.
        simpl in Hlater. lra.
Qed.

Lemma interp_call_exact tbl x y r :
  strictly_increasing tbl = true -> In (x, y) tbl -> (r == x)%Q ->
  exists t, interp_call tbl r = Ok t /\ (t == y)%Q.
Proof.
  destruct tbl as [|lo rest]; [intros _ [] |]. simpl.
  intros Hinc Hin Hr.
  assert (Hlo : Qlt_bool r (fst lo) = false).
  { apply Qlt_bool_false. destruct Hin as [-> | Hin]; simpl.
    - lra.
    - pose proof (increasing_from_later _ _ _ Hinc Hin). simpl in *. lra. }
  assert (Hhi : Qlt_bool (fst (List.last rest lo)) r = false).
  { apply Qlt_bool_false.
    pose proof (increasing_from_last _ _ _ Hinc Hin). simpl in *. lra. }
  rewrite Hlo, Hhi. eexists. split; [reflexivity |].
  apply interp_linear_exact with (x := x); assumption.
Qed.

(** C7.  With the excitation voltage of 2.5 V that [processVoltage] uses, a
    reference resistance of 10 kOhm and a raw reading of 1250 mV, the
    voltage is 1.25 V and the resistance 10000; when the calibration table
    (strictly increasing in resistance) has the point 10 kOhm -> 25.0, the
    conversion returns the temperature 25.0 with the resistance 10000. *)
Theorem processVoltage_scenario_A self key mV ch res chans pos r1 tbl x y :
  resistances self !! key = Some res ->
  read_channels self !! key = Some chans ->
  list_index ch chans = Ok pos ->
  res !! pos = Some r1 ->
  (r1 == 10000)%Q ->
  (mV == 1250)%Q ->
  temp_interpolate_50k self = Some tbl ->
  strictly_increasing tbl = true ->
  In (x, y) tbl -> (x == 10000)%Q -> (y == 25)%Q ->
  (mV / 1000 == 1.25)%Q /\
  exists t r,
    processVoltage self [(mV, ch)] key = Ok ([t], [r]) /\
    (r == 10000)%Q /\ (t == 25)%Q.
Proof.
  intros Hres Hch Hpos Hr1 Er1 EmV Htbl Hinc Hin Ex Ey.
  split; [rewrite EmV; reflexivity |].
  assert (Hnz : Qeq_bool (2.5 - mV / 1000) 0 = false).
  { apply not_true_iff_false. intros H. apply Qeq_bool_iff in H.
    rewrite EmV in H. discriminate H. }
  assert (Er : ((r1 * (mV / 1000)) / (2.5 - mV / 1000) == x)%Q).
  { rewrite Er1, EmV, Ex. reflexivity. }
  destruct (interp_call_exact tbl x y _ Hinc Hin Er) as (t & Ht & Et).
  exists t, ((r1 * (mV / 1000)) / (2.5 - mV / 1000))%Q.
  split; [| split; [rewrite Er; exact Ex | rewrite Et; exact Ey]].
  unfold processVoltage, processVoltage_loop, processVoltage_body. simpl.
  apply dict_get_Ok in Hres. apply dict_get_Ok in Hch. apply list_get_Ok in Hr1.
  rewrite Hres. simpl. rewrite Hch. simpl. rewrite Hpos. simpl. rewrite Hr1. simpl.
  unfold py_div. rewrite Hnz. simpl. unfold call_interpolator. rewrite Htbl, Ht.
  reflexivity.
Qed.

Lemma processVoltage_scenario_A_witness :
  exists t r,
    processVoltage (demo_config 2.5) [(1250%Q, 0)] demo_key = Ok ([t], [r]) /\
    (r == 10000)%Q /\ (t == 25)%Q.
Proof.
  refine (proj2 (processVoltage_scenario_A (demo_config 2.5) demo_key 1250 0
            [10000; 1000]%Q [0; 1] 0%nat 10000 demo_table 10000 25
            _ _ _ _ _ _ _ _ _ _ _));
    try reflexivity.
  right; left; reflexivity.
Defined.

(** ** processVoltage at or above the excitation voltage *)

Lemma call_interpolator_negative f r :
  (r < 0)%Q ->
  (forall lo rest, f = Some (lo :: rest) -> (0 <= fst lo)%Q) ->
  is_raise (call_interpolator f r).
Proof.
  intros Hr Hdom. destruct f as [[|lo rest]|]; simpl; try exact I.
  assert (H : Qlt_bool r (fst lo) = true).
  { apply Qlt_bool_true. specialize (Hdom lo rest eq_refl). lra. }
  rewrite H. exact I.
Qed.

Lemma processVoltage_body_above self key mV :
  (2.5 <= fst mV / 1000)%Q ->
  (forall res r1, resistances self !! key = Some res -> In r1 res -> (0 < r1)%Q) ->
  (forall lo rest, temp_interpolate_50k self = Some (lo :: rest) -> (0 <= fst lo)%Q) ->
  is_raise (processVoltage_body self key mV).
Proof.
  intros Hv Hpos Hdom. unfold processVoltage_body.
  destruct (dict_get (resistances self) key) as [res|] eqn:Hres; simpl; [| exact I].
  destruct (dict_get (read_channels self) key) as [chans|]; simpl; [| exact I].
  destruct (list_index (snd mV) chans) as [pos|]; simpl; [| exact I].
  destruct (list_get res pos) as [r1|] eqn:Hr1; simpl; [| exact I].
  destruct (py_div (r1 * (fst mV / 1000)) (2.5 - fst mV / 1000)) as [r|] eqn:Hdiv;
    simpl; [| exact I].
  apply py_div_Ok in Hdiv as [Hnz ->].
  apply dict_get_Ok in Hres. apply list_get_Ok in Hr1.
  assert (Hr1pos : (0 < r1)%Q).
  { apply (Hpos res r1 Hres). apply list_elem_of_In. eapply list_elem_of_lookup_2.
    exact Hr1. }
  assert (Hgt : (2.5 < fst mV / 1000)%Q).
  { apply Qle_lt_or_eq in Hv as [Hv | Hv]; [exact Hv |].
    exfalso. apply Hnz. rewrite <- Hv. reflexivity. }
  apply bind_Raise_l. apply call_interpolator_negative; [| exact Hdom].
  apply Qdiv_pos_neg; [| lra].
  apply Qmult_lt_0_compat; lra.
Qed.

(** C1, as the code has it.  For a device whose configured excitation
    voltage is the 2.5 V that [processVoltage] computes with, whose
    reference resistances are positive and whose calibration table starts
    at a resistance that is not negative: a list of readings one of which
    has a voltage at or above the excitation voltage makes [processVoltage]
    raise, so that no resistance or temperature is returned.  For a single
    reading of a configured channel the exception is [ZeroDivisionError]
    when the voltage equals the excitation voltage and the range error of
    the interpolator when it is above. *)
Theorem processVoltage_raises_at_or_above_vin self voltages key mV dvin :
  vin self !! key = Some dvin ->
  (dvin == 2.5)%Q ->
  In mV voltages ->
  (dvin <= fst mV / 1000)%Q ->
  (forall res r1, resistances self !! key = Some res -> In r1 res -> (0 < r1)%Q) ->
  (forall lo rest, temp_interpolate_50k self = Some (lo :: rest) -> (0 <= fst lo)%Q) ->
  (exists e, processVoltage self voltages key = Raise e) /\
  (forall res chans pos r1 lo rest,
     resistances self !! key = Some res ->
     read_channels self !! key = Some chans ->
     list_index (snd mV) chans = Ok pos ->
     res !! pos = Some r1 ->
     temp_interpolate_50k self = Some (lo :: rest) ->
     processVoltage self [mV] key =
       Raise (if Qeq_bool (fst mV / 1000) dvin then ZeroDivisionError
              else ValueError BelowInterpolationRange)).
Proof.
  intros Hvin Edvin Hin Hv Hpos Hdom.
  assert (Hv' : (2.5 <= fst mV / 1000)%Q) by (rewrite <- Edvin; exact Hv).
  split.
  - pose proof (processVoltage_loop_raise self key voltages mV Hin
                  (processVoltage_body_above self key mV Hv' Hpos Hdom) [] []) as H.
    unfold processVoltage. destruct (processVoltage_loop self key voltages [] []);
      [destruct H | eauto].
  - intros res chans pos r1 lo rest Hres Hch Hidx Hr1 Htbl.
    unfold processVoltage, processVoltage_loop, processVoltage_body.
    apply dict_get_Ok in Hres. apply dict_get_Ok in Hch.
    pose proof Hr1 as Hr1'. apply list_get_Ok in Hr1'.
    rewrite Hres. simpl. rewrite Hch. simpl. rewrite Hidx. simpl. rewrite Hr1'. simpl.
    unfold py_div.
    destruct (Qeq_bool (fst mV / 1000) dvin) eqn:Heq.
    + apply Qeq_bool_iff in Heq.
      assert (Hz : Qeq_bool (2.5 - fst mV / 1000) 0 = true).
      { apply Qeq_bool_iff. rewrite Heq, Edvin. reflexivity. }
      rewrite Hz. reflexivity.
    + assert (Hne : ~ (fst mV / 1000 == dvin)%Q).
      { intros E. apply Qeq_bool_iff in E. congruence. }
      assert (Hgt : (2.5 < fst mV / 1000)%Q).
      { apply Qle_lt_or_eq in Hv' as [H | H]; [exact H |].
        exfalso. apply Hne. rewrite Edvin, <- H. reflexivity. }
      assert (Hz : Qeq_bool (2.5 - fst mV / 1000) 0 = false).
      { apply not_true_iff_false. intros E. apply Qeq_bool_iff in E. lra. }
      rewrite Hz. simpl. unfold call_interpolator. rewrite Htbl. simpl.
      assert (Hr1pos : (0 < r1)%Q).
      { apply dict_get_Ok in Hres. apply (Hpos res r1 Hres). apply list_elem_of_In.
        eapply list_elem_of_lookup_2. exact Hr1. }
      assert (Hneg : (r1 * (fst mV / 1000) / (2.5 - fst mV / 1000) < 0)%Q).
      { apply Qdiv_pos_neg; [| lra]. apply Qmult_lt_0_compat; lra. }
      assert (Hb : Qlt_bool (r1 * (fst mV / 1000) / (2.5 - fst mV / 1000)) (fst lo) = true).
      { apply Qlt_bool_true. specialize (Hdom lo rest Htbl). lra. }
      rewrite Hb. reflexivity.
Qed.

Lemma processVoltage_raises_at_or_above_vin_witness :
  exists e, processVoltage (demo_config 2.5) [(2600%Q, 0)] demo_key = Raise e.
Proof.
  refine (proj1 (processVoltage_raises_at_or_above_vin (demo_config 2.5)
            [(2600%Q, 0)] demo_key (2600%Q, 0) 2.5 _ _ _ _ _ _)).
  - reflexivity.
  - reflexivity.
  - left; reflexivity.
  - vm_compute. discriminate.
  - intros res r1 H. vm_compute in H. injection H as <-.
    intros [<- | [<- | []]]; reflexivity.
  - intros lo rest H. vm_compute in H. injection H as <- _.
    vm_compute. discriminate.
Defined.

(** C1, counterexample.  At a voltage equal to the excitation voltage the
    code raises the [ZeroDivisionError] of the division itself; and a
    device configured with an excitation voltage of 2 V converts a reading
    of 2.25 V, which is above it, and returns values. *)
Lemma processVoltage_has_no_range_check :
  (vin (demo_config 2.5) !! demo_key = Some 2.5%Q /\
   (2.5 <= 2500 / 1000)%Q /\
   processVoltage (demo_config 2.5) [(2500%Q, 0)] demo_key
     = Raise ZeroDivisionError) /\
  (vin (demo_config 2) !! demo_key = Some 2%Q /\
   (2 <= 2250 / 1000)%Q /\
   exists t r,
     processVoltage (demo_config 2) [(2250%Q, 1)] demo_key = Ok ([t], [r]) /\
     (r == 9000)%Q /\ (t == 28)%Q).
Proof.
  split; split; try reflexivity; split; try (vm_compute; discriminate).
  - reflexivity.
  - eexists _, _. split; [vm_compute; reflexivity |]. split; reflexivity.
Qed.

(** ** The excitation voltage used by the conversion *)

Lemma processVoltage_independent_of_vin v self voltages key :
  processVoltage (set_vin v self) voltages key = processVoltage self voltages key.
Proof.
  unfold processVoltage. generalize (@nil Q) at 1 3. generalize (@nil Q).
  induction voltages as [|mV rest IH]; intros acc_r acc_t; simpl; [reflexivity |].
  change (processVoltage_body (set_vin v self) key mV)
    with (processVoltage_body self key mV).
  destruct (processVoltage_body self key mV); simpl; [apply IH | reflexivity].
Qed.

(** C4, at the failing input.  A device configured with [VIN = 5], a
    reference resistance of 10 kOhm and a reading of 1250 mV: the code
    returns the resistance 10000, computed with 2.5 V, where the divider
    formula with the configured 5 V gives 10000 * 1.25 / 3.75. *)
Lemma processVoltage_ignores_configured_vin :
  vin (demo_config 5) !! demo_key = Some 5%Q /\
  (0 <= 1250 / 1000 < 5)%Q /\
  exists t r,
    processVoltage (demo_config 5) [(1250%Q, 0)] demo_key = Ok ([t], [r]) /\
    (r == 10000)%Q /\
    ~ (r == 10000 * (1250 / 1000) / (5 - 1250 / 1000))%Q.
Proof.
  split; [reflexivity |]. split; [split; vm_compute; [discriminate | reflexivity] |].
  eexists _, _. split; [vm_compute; reflexivity |].
  split; [reflexivity | vm_compute; discriminate].
Qed.

(** ** Frame lemmas for the monad of a cycle *)

Lemma keeps_ret {A X} (proj : State -> X) (a : A) : keeps proj (mret a).
Proof. intros s. reflexivity. Qed.

Lemma keeps_lift {A X} (proj : State -> X) (r : result A) : keeps proj (lift r).
Proof. intros s. reflexivity. Qed.

Lemma keeps_get_state {X} (proj : State -> X) : keeps proj get_state.
Proof. intros s. reflexivity. Qed.

Lemma keeps_modify {X} (proj : State -> X) (f : State -> State) :
  (forall s, proj (f s) = proj s) -> keeps proj (modify f).
Proof. intros H s. apply H. Qed.

Lemma keeps_bind {A B X} (proj : State -> X) (m : M A) (k : A -> M B) :
  keeps proj m -> (forall a, keeps proj (k a)) -> keeps proj (m ≫= k).
Proof.
  intros Hm Hk s. unfold mbind, M_bind.
  specialize (Hm s). destruct (m s) as [[a|e] s1]; simpl in *.
  - rewrite Hk. exact Hm.
  - exact Hm.
Qed.

Lemma keeps_for_each {A X} (proj : State -> X) (l : list A) (body : A -> M unit) :
  (forall x, keeps proj (body x)) -> keeps proj (for_each l body).
Proof.
  intros H. induction l as [|x l IH]; simpl.
  - apply keeps_ret.
  - apply keeps_bind; [apply H | intros _; exact IH].
Qed.

Lemma keeps_try_except {X} (proj : State -> X) (body : M unit)
  (handler : PyExc -> M unit) :
  keeps proj body -> (forall e, keeps proj (handler e)) ->
  keeps proj (try_except body handler).
Proof.
  intros Hb Hh s. unfold try_except.
  specialize (Hb s). destruct (body s) as [[[]|e] s1]; simpl in *.
  - exact Hb.
  - rewrite Hh. exact Hb.
Qed.

#[local] Ltac keeps_step :=
  lazymatch goal with
  | |- keeps _ (mret _) => apply keeps_ret
  | |- keeps _ (lift _) => apply keeps_lift
  | |- keeps _ get_state => apply keeps_get_state
  | |- keeps _ (mbind _ _) => apply keeps_bind; [| intros ?]
  | |- keeps _ (modify _) => apply keeps_modify; intros ?
  | |- keeps _ (for_each _ _) => apply keeps_for_each; intros ?
  | |- keeps _ (if ?b then _ else _) => destruct b
  | |- keeps _ (match ?x with _ => _ end) => destruct x
  end.

#[local] Ltac keeps_auto := repeat keeps_step; try reflexivity.

(** *** Parts of the state that a whole cycle body never writes *)

Lemma check_alarms_from_keeps {X} (proj : State -> X) self key temp :
  (forall v s, proj (set_alarm_emails v s) = proj s) ->
  (forall v s, proj (set_alarm_triggered v s) = proj s) ->
  forall i, keeps proj (check_alarms_from self key i temp).
Proof.
  intros He Ht. induction temp as [|t rest IH]; intros i; simpl.
  - apply keeps_ret.
  - unfold check_alarm_channel, set_triggered, send_alarm_email.
    repeat (first [ apply IH | keeps_step ]); first [ apply He | apply Ht ].
Qed.

Lemma plot_rows_keeps {X} (proj : State -> X) self key time_array temp_array lbls :
  (forall v s, proj (set_plot_lines v s) = proj s) ->
  forall i, keeps proj (plot_rows self key time_array temp_array i lbls).
Proof.
  intros Hp. induction lbls as [|l rest IH]; intros i; simpl.
  - apply keeps_ret.
  - unfold ax_plot. repeat (first [ apply IH | keeps_step ]); apply Hp.
Qed.

Lemma update_plot_keeps {X} (proj : State -> X) self :
  (forall v s, proj (set_plot_lines v s) = proj s) ->
  keeps proj (update_plot self).
Proof.
  intros Hp. unfold update_plot.
  repeat (first [ apply plot_rows_keeps; exact Hp | keeps_step ]); apply Hp.
Qed.

Lemma update_data_try_keeps_pending env self :
  keeps pending (update_data_try env self).
Proof.
  unfold update_data_try, update_data_device, check_alarms.
  repeat (first [ apply update_plot_keeps; reflexivity
                | apply check_alarms_from_keeps; reflexivity
                | keeps_step ]); reflexivity.
Qed.

Lemma update_data_try_keeps_printed env self :
  keeps printed (update_data_try env self).
Proof.
  unfold update_data_try, update_data_device, check_alarms.
  repeat (first [ apply update_plot_keeps; reflexivity
                | apply check_alarms_from_keeps; reflexivity
                | keeps_step ]); reflexivity.
Qed.

(** ** update_data: the handler and the timer *)

Lemma update_data_unfold env self s :
  update_data env self s =
  match update_data_try env self s with
  | (Ok _, s1) =>
      (Ok tt, set_pending (pending s1 ++ [timer_value self]) s1)
  | (Raise e, s1) =>
      (Ok tt, set_pending (pending s1 ++ [timer_value self])
                (set_printed (printed s1 ++ [e]) s1))
  end.
Proof.
  unfold update_data, mbind, M_bind, try_except, modify.
  destruct (update_data_try env self s) as [[[]|e] s1]; reflexivity.
Qed.

Lemma update_data_reschedules env self s :
  fst (update_data env self s) = Ok tt /\
  pending (snd (update_data env self s)) = pending s ++ [timer_value self].
Proof.
  rewrite update_data_unfold.
  pose proof (update_data_try_keeps_pending env self s) as Hp.
  destruct (update_data_try env self s) as [[[]|e] s1]; simpl in *;
    rewrite Hp; split; reflexivity.
Qed.

Lemma update_data_prints_the_exception env self s e :
  fst (update_data_try env self s) = Raise e ->
  printed (snd (update_data env self s)) = printed s ++ [e].
Proof.
  intros H. rewrite update_data_unfold.
  pose proof (update_data_try_keeps_printed env self s) as Hp.
  destruct (update_data_try env self s) as [[[]|e'] s1]; simpl in *; [discriminate |].
  injection H as ->. rewrite Hp. reflexivity.
Qed.

Lemma mainloop_counts self envs :
  forall s n,
    pending s <> [] ->
    snd (mainloop self envs s n) = (n + length envs)%nat /\
    pending (fst (mainloop self envs s n)) <> [].
Proof.
  induction envs as [|env envs IH]; intros s n Hp; simpl.
  - split; [lia | exact Hp].
  - destruct (pending s) as [|ms later] eqn:E; [congruence |].
    destruct (IH (snd (update_data env self (set_pending later s))) (S n)) as [H1 H2].
    + destruct (update_data_reschedules env self (set_pending later s)) as [_ H].
      rewrite H. simpl. destruct later; discriminate.
    + split; [rewrite H1; lia | exact H2].
Qed.

(** C8.  Whatever the hardware read, the conversion, the logger or the
    alarm check raise during a cycle, [update_data] returns normally,
    prints the exception and registers exactly one callback for the next
    cycle; hence the timer loop, once a callback is registered, runs one
    cycle per tick for as long as it is driven. *)
Theorem update_data_never_stops_the_scheduler env self s :
  (fst (update_data env self s) = Ok tt /\
   pending (snd (update_data env self s)) = pending s ++ [timer_value self] /\
   (forall e, fst (update_data_try env self s) = Raise e ->
              printed (snd (update_data env self s)) = printed s ++ [e])) /\
  (forall envs n,
     pending s <> [] ->
     snd (mainloop self envs s n) = (n + length envs)%nat /\
     pending (fst (mainloop self envs s n)) <> []).
Proof.
  split; [split; [| split] |].
  - apply update_data_reschedules.
  - apply update_data_reschedules.
  - intros e. apply update_data_prints_the_exception.
  - intros envs n. apply mainloop_counts.
Qed.

Lemma update_data_never_stops_the_scheduler_witness :
  pending (set_pending [1000] demo_state) <> [] /\
  snd (mainloop (demo_config 2.5)
         [demo_env_unplugged; demo_env [(2500%Q, 0); (2250%Q, 1)];
          demo_env [(1250%Q, 0); (2250%Q, 1)]]
         (set_pending [1000] demo_state) 0) = 3%nat.
Proof.
  assert (H : pending (set_pending [1000] demo_state) <> []) by discriminate.
  split; [exact H |].
  exact (proj1 (proj2 (update_data_never_stops_the_scheduler
                         demo_env_unplugged (demo_config 2.5) _) _ 0%nat H)).
Defined.

(** ** A failed conversion inside a cycle *)

Lemma update_data_device_keeps {X} (proj : State -> X) env self voltages key :
  (forall v s, proj (set_temp_data v s) = proj s) ->
  (forall v s, proj (set_voltage_data v s) = proj s) ->
  (forall v s, proj (set_log_lines v s) = proj s) ->
  (forall v s, proj (set_alarm_emails v s) = proj s) ->
  (forall v s, proj (set_alarm_triggered v s) = proj s) ->
  keeps proj (update_data_device env self voltages key).
Proof.
  intros H1 H2 H3 H4 H5. unfold update_data_device, check_alarms.
  repeat (first [ apply check_alarms_from_keeps; assumption | keeps_step ]);
    first [ apply H1 | apply H2 | apply H3 ].
Qed.

#[local] Ltac other_device :=
  unfold device_view; simpl;
  rewrite ?lookup_insert_ne by congruence;
  rewrite ?filter_app, ?filter_cons_False, ?filter_nil, ?app_nil_r
    by (simpl; congruence);
  reflexivity.

Lemma check_alarms_from_keeps_other self key k temp :
  k <> key -> forall i, keeps (device_view key) (check_alarms_from self k i temp).
Proof.
  intros Hne. induction temp as [|t rest IH]; intros i; simpl.
  - apply keeps_ret.
  - unfold check_alarm_channel, set_triggered, send_alarm_email.
    repeat (first [ apply IH | keeps_step ]); other_device.
Qed.

Lemma update_data_device_keeps_other env self voltages key k :
  k <> key -> keeps (device_view key) (update_data_device env self voltages k).
Proof.
  intros Hne. unfold update_data_device, check_alarms.
  repeat (first [ apply check_alarms_from_keeps_other; assumption | keeps_step ]);
    other_device.
Qed.

Lemma update_data_device_raises env self voltages key vs e s :
  voltages !! key = Some vs ->
  processVoltage self vs key = Raise e ->
  update_data_device env self voltages key s = (Raise e, s).
Proof.
  intros Hvs Hpv. unfold update_data_device, mbind, M_bind, lift, dict_get.
  rewrite Hvs, Hpv. reflexivity.
Qed.

Lemma for_each_raises {X} (proj : State -> X) (body : string -> M unit) key e keys :
  key ∈ keys ->
  (forall s, body key s = (Raise e, s)) ->
  (forall k, k <> key -> keeps proj (body k)) ->
  forall s, (exists e', fst (for_each keys body s) = Raise e') /\
            proj (snd (for_each keys body s)) = proj s.
Proof.
  intros Hin Hkey Hother.
  induction keys as [|k keys IH]; intros s; [inversion Hin |].
  simpl. unfold mbind, M_bind.
  destruct (decide (k = key)) as [-> | Hne].
  - rewrite Hkey. simpl. eauto.
  - pose proof (Hother k Hne s) as Hk.
    destruct (body k s) as [[[]|e1] s1]; simpl in *.
    + destruct IH with (s := s1) as [He Hp].
      { apply elem_of_cons in Hin as [-> | Hin]; [congruence | exact Hin]. }
      split; [exact He | rewrite Hp; exact Hk].
    + eauto.
Qed.

(** C3, as the code has it.  When the conversion of one channel of a
    device fails, [processVoltage] raises for the whole device: in that
    cycle no sample of any channel of the device enters [temp_data] or
    [voltage_data], nothing is logged or checked for it, and no placeholder
    value is stored; the time stamp of the cycle has already been appended,
    the plot is not redrawn, the exception is printed and the next cycle is
    scheduled. *)
Theorem failed_conversion_drops_the_device_cycle env self s voltages key vs e :
  ljs_read env = Ok voltages ->
  key ∈ ljsID self ->
  voltages !! key = Some vs ->
  processVoltage self vs key = Raise e ->
  device_view key (snd (update_data env self s)) = device_view key s /\
  time_data (snd (update_data env self s)) = time_data s ++ [now env] /\
  plot_lines (snd (update_data env self s)) = plot_lines s /\
  (exists e', printed (snd (update_data env self s)) = printed s ++ [e']) /\
  pending (snd (update_data env self s)) = pending s ++ [timer_value self].
Proof.
  intros Hread Hin Hvs Hpv.
  set (s1 := set_time_data (time_data s ++ [now env]) s).
  set (body := update_data_device env self voltages).
  assert (Hraise : forall s0, body key s0 = (Raise e, s0)).
  { intros s0. apply update_data_device_raises with (vs := vs); assumption. }
  destruct (for_each_raises (device_view key) body key e (ljsID self) Hin Hraise
              (fun k Hne => update_data_device_keeps_other env self voltages key k Hne)
              s1) as [[e' He'] Hview].
  assert (Htime : time_data (snd (for_each (ljsID self) body s1)) = time_data s1).
  { apply (keeps_for_each time_data). intros k.
    apply update_data_device_keeps; reflexivity. }
  assert (Hplot : plot_lines (snd (for_each (ljsID self) body s1)) = plot_lines s1).
  { apply (keeps_for_each plot_lines). intros k.
    apply update_data_device_keeps; reflexivity. }
  assert (Htry : update_data_try env self s
                 = (Raise e', snd (for_each (ljsID self) body s1))).
  { unfold update_data_try, mbind, M_bind, lift, modify. rewrite Hread.
    fold s1. fold body.
    destruct (for_each (ljsID self) body s1) as [[[]|e0] s2]; simpl in *;
      congruence. }
  pose proof (update_data_prints_the_exception env self s e') as Hprinted.
  pose proof (update_data_reschedules env self s) as [_ Hpending].
  rewrite Htry in Hprinted. specialize (Hprinted eq_refl).
  split; [| split; [| split; [| split]]].
  - rewrite update_data_unfold, Htry. exact Hview.
  - rewrite update_data_unfold, Htry. exact Htime.
  - rewrite update_data_unfold, Htry. exact Hplot.
  - exists e'. exact Hprinted.
  - exact Hpending.
Qed.

Lemma failed_conversion_drops_the_device_cycle_witness :
  device_view demo_key
    (snd (update_data (demo_env [(2500%Q, 0); (2250%Q, 1)]) (demo_config 2.5)
            demo_state))
  = device_view demo_key demo_state.
Proof.
  refine (proj1 (failed_conversion_drops_the_device_cycle
                   (demo_env [(2500%Q, 0); (2250%Q, 1)]) (demo_config 2.5) demo_state
                   {[demo_key := [(2500%Q, 0); (2250%Q, 1)]]} demo_key
                   [(2500%Q, 0); (2250%Q, 1)] ZeroDivisionError _ _ _ _)).
  - reflexivity.
  - apply list_elem_of_In. left. reflexivity.
  - reflexivity.
  - reflexivity.
Defined.

(** C3, counterexample.  Channel 1 reads 2250 mV, which converts on its
    own; channel 0 of the same device reads 2500 mV in the same cycle.
    The cycle stores no sample for channel 1 either. *)
Lemma healthy_channel_loses_its_sample :
  (exists t r, processVoltage_body (demo_config 2.5) demo_key (2250%Q, 1)
               = Ok (t, r)) /\
  processVoltage (demo_config 2.5) [(2500%Q, 0); (2250%Q, 1)] demo_key
    = Raise ZeroDivisionError /\
  temp_data (snd (update_data (demo_env [(2500%Q, 0); (2250%Q, 1)])
                    (demo_config 2.5) demo_state)) !! demo_key
    = Some [[]; []].
Proof.
  split; [eexists _, _; vm_compute; reflexivity |].
  split; vm_compute; reflexivity.
Qed.

(** ** check_alarms: one cycle *)

Lemma set_alarm_emails_id s : set_alarm_emails (alarm_emails s) s = s.
Proof. destruct s; reflexivity. Qed.

Lemma set_alarm_triggered_id s : set_alarm_triggered (alarm_triggered s) s = s.
Proof. destruct s; reflexivity. Qed.

Lemma check_alarm_channel_spec self key mts trig i t th b s :
  max_temps self !! key = Some mts -> mts !! i = Some th ->
  alarm_triggered s !! key = Some trig -> trig !! i = Some b ->
  check_alarm_channel self key i t s =
    (Ok tt,
     set_alarm_triggered
       (<[key := <[i := Qlt_bool th t]> trig]> (alarm_triggered s))
       (set_alarm_emails
          (alarm_emails s ++ (if Qlt_bool th t && negb b then [(key, i, t)] else []))
          s)).
Proof.
  intros Hmts Hth Htrig Hb.
  assert (Hlt : (i < length trig)%nat) by (eapply lookup_lt_Some; exact Hb).
  unfold check_alarm_channel, set_triggered, send_alarm_email,
    mbind, M_bind, lift, get_state, modify, mret, M_ret, dict_get, list_get, list_set.
  rewrite Hmts, Hth.
  destruct (Qlt_bool th t); simpl.
  - rewrite Htrig, Hb. destruct b; simpl.
    + rewrite app_nil_r, set_alarm_emails_id.
      rewrite (list_insert_id _ _ _ Hb), (insert_id _ _ _ Htrig).
      rewrite set_alarm_triggered_id. reflexivity.
    + rewrite Htrig. destruct (decide (i < length trig)%nat); [reflexivity | lia].
  - rewrite Htrig. destruct (decide (i < length trig)%nat); [| lia].
    rewrite app_nil_r, set_alarm_emails_id. reflexivity.
Qed.

Lemma drop_cons_inv {A} (l : list A) i x rest :
  drop i l = x :: rest -> l !! i = Some x /\ drop (S i) l = rest.
Proof.
  intros H.
  assert (Hx : l !! i = Some x).
  { rewrite <- (Nat.add_0_r i), <- lookup_drop, H. reflexivity. }
  split; [exact Hx |].
  rewrite (drop_S _ _ _ Hx) in H. congruence.
Qed.

Lemma latch_after_insert mts trig full i j b :
  i <> j -> latch_after mts (<[i := b]> trig) full j = latch_after mts trig full j.
Proof.
  intros Hne. unfold latch_after.
  rewrite list_lookup_insert_ne by exact Hne. reflexivity.
Qed.

Lemma fired_insert mts trig full i j b :
  i <> j -> fired mts (<[i := b]> trig) full j = fired mts trig full j.
Proof.
  intros Hne. unfold fired.
  rewrite list_lookup_insert_ne by exact Hne. reflexivity.
Qed.

Lemma check_alarms_from_spec self key mts full :
  max_temps self !! key = Some mts ->
  (length full <= length mts)%nat ->
  forall temp i s trig,
    drop i full = temp ->
    alarm_triggered s !! key = Some trig ->
    (length full <= length trig)%nat ->
    exists s' trig' evs,
      check_alarms_from self key i temp s = (Ok tt, s') /\
      alarm_triggered s' !! key = Some trig' /\
      length trig' = length trig /\
      alarm_emails s' = alarm_emails s ++ evs /\
      (forall j, trig' !! j = if decide (i <= j)%nat
                              then latch_after mts trig full j else trig !! j) /\
      (forall j, filter (fun c => c = j) (map alarm_channel evs)
                 = if decide (i <= j)%nat
                   then (if fired mts trig full j then [j] else [])
                   else []).
Proof.
  intros Hmts Hlen_m.
  induction temp as [|t rest IH]; intros i s trig Hdrop Htrig Hlen_t.
  - exists s, trig, []. simpl. rewrite app_nil_r.
    assert (Hi : (length full <= i)%nat).
    { destruct (decide (length full <= i)%nat) as [|Hn]; [assumption |].
      assert (Hl : length (drop i full) = 0%nat) by (rewrite Hdrop; reflexivity).
      rewrite length_drop in Hl. lia. }
    split; [reflexivity |]. split; [exact Htrig |]. split; [reflexivity |].
    split; [reflexivity |]. split.
    + intros j. destruct (decide (i <= j)%nat); [| reflexivity].
      unfold latch_after. rewrite (lookup_ge_None_2 full j) by lia.
      destruct (mts !! j); reflexivity.
    + intros j. destruct (decide (i <= j)%nat); [| reflexivity].
      unfold fired. rewrite (lookup_ge_None_2 full j) by lia.
      destruct (mts !! j); reflexivity.
  - apply drop_cons_inv in Hdrop as [Hfi Hdrop].
    assert (Hi : (i < length full)%nat) by (eapply lookup_lt_Some; exact Hfi).
    destruct (lookup_lt_is_Some_2 mts i) as [th Hth]; [lia |].
    destruct (lookup_lt_is_Some_2 trig i) as [b Hb]; [lia |].
    pose proof (check_alarm_channel_spec self key mts trig i t th b s
                  Hmts Hth Htrig Hb) as Hstep.
    set (trig1 := <[i := Qlt_bool th t]> trig) in *.
    set (ev1 := if Qlt_bool th t && negb b then [(key, i, t)] else []) in *.
    set (s1 := set_alarm_triggered (<[key := trig1]> (alarm_triggered s))
                 (set_alarm_emails (alarm_emails s ++ ev1) s)) in *.
    destruct (IH (S i) s1 trig1 Hdrop) as (s' & trig' & evs & Hrun & Htrig' & Hlen' & Hev & Hlatch & Hfired).
    { subst s1. simpl. apply lookup_insert_eq. }
    { subst trig1. rewrite length_insert. exact Hlen_t. }
    exists s', trig', (ev1 ++ evs).
    split; [| split; [| split; [| split; [| split]]]].
    + simpl. unfold mbind, M_bind. rewrite Hstep. exact Hrun.
    + exact Htrig'.
    + rewrite Hlen'. subst trig1. apply length_insert.
    + rewrite Hev. subst s1. simpl. rewrite app_assoc. reflexivity.
    + intros j. rewrite Hlatch.
      destruct (decide (S i <= j)%nat), (decide (i <= j)%nat); try lia.
      * subst trig1. apply latch_after_insert. lia.
      * assert (j = i) as -> by lia. subst trig1.
        rewrite list_lookup_insert_eq by lia.
        unfold latch_after. rewrite Hth, Hfi. reflexivity.
      * subst trig1. apply list_lookup_insert_ne. lia.
    + intros j. rewrite map_app, filter_app, Hfired.
      destruct (decide (S i <= j)%nat), (decide (i <= j)%nat); try lia.
      * subst trig1. rewrite fired_insert by lia.
        assert (E : filter (fun c => c = j) (map alarm_channel ev1) = []).
        { subst ev1. destruct (Qlt_bool th t && negb b); [| reflexivity].
          simpl. rewrite filter_cons_False by (unfold alarm_channel; simpl; lia).
          reflexivity. }
        rewrite E. reflexivity.
      * assert (j = i) as -> by lia. rewrite app_nil_r.
        unfold fired. rewrite Hth, Hfi, Hb. subst ev1.
        destruct (Qlt_bool th t && negb b); [| reflexivity].
        simpl. rewrite filter_cons_True by reflexivity. reflexivity.
      * rewrite app_nil_r. subst ev1.
        destruct (Qlt_bool th t && negb b); [| reflexivity].
        simpl. rewrite filter_cons_False by (unfold alarm_channel; simpl; lia).
        reflexivity.
Qed.

Lemma alarms_of_cycle_spec self key mts temp s trig :
  max_temps self !! key = Some mts ->
  alarm_triggered s !! key = Some trig ->
  length temp = length mts ->
  length trig = length mts ->
  exists evs s' trig',
    alarms_of_cycle self key temp s = (evs, s') /\
    alarm_triggered s' !! key = Some trig' /\
    length trig' = length trig /\
    (forall j, trig' !! j = latch_after mts trig temp j) /\
    (forall j, filter (fun c => c = j) (map alarm_channel evs)
               = if fired mts trig temp j then [j] else []).
Proof.
  intros Hmts Htrig Hlt Hlm.
  destruct (check_alarms_from_spec self key mts temp Hmts ltac:(lia)
              temp 0%nat (set_alarm_emails [] s) trig (drop_0 temp) Htrig ltac:(lia))
    as (s' & trig' & evs & Hrun & Htrig' & Hlen' & Hev & Hlatch & Hfired).
  simpl in Hev.
  exists evs, (set_alarm_emails (alarm_emails s ++ evs) s'), trig'.
  split; [| split; [| split; [| split]]].
  - unfold alarms_of_cycle, check_alarms. rewrite Hrun. simpl. rewrite Hev. reflexivity.
  - exact Htrig'.
  - exact Hlen'.
  - intros j. rewrite Hlatch. destruct (decide (0 <= j)%nat); [reflexivity | lia].
  - intros j. rewrite Hfired. destruct (decide (0 <= j)%nat); [reflexivity | lia].
Qed.

(** ** check_alarms over a run of cycles *)

Lemma alarm_run_cons self key temp later s :
  alarm_run self key (temp :: later) s
  = map alarm_channel (fst (alarms_of_cycle self key temp s))
    :: alarm_run self key later (snd (alarms_of_cycle self key temp s)).
Proof. reflexivity. Qed.

Lemma alarm_run_follows_the_latch self key mts i th :
  max_temps self !! key = Some mts ->
  mts !! i = Some th ->
  forall cycles s trig b from,
    alarm_triggered s !! key = Some trig ->
    length trig = length mts ->
    trig !! i = Some b ->
    Forall (fun temp => length temp = length mts) cycles ->
    event_cycles i from (alarm_run self key cycles s)
    = spec_alarm_events th b from (channel_series i cycles).
Proof.
  intros Hmts Hth.
  induction cycles as [|temp later IH]; intros s trig b from Htrig Hlen Hb Hall;
    [reflexivity |].
  apply Forall_cons in Hall as [Hlt Hall].
  destruct (alarms_of_cycle_spec self key mts temp s trig Hmts Htrig Hlt Hlen)
    as (evs & s' & trig' & Hcyc & Htrig' & Hlen' & Hlatch & Hfired).
  destruct (lookup_lt_is_Some_2 temp i) as [t Ht].
  { rewrite Hlt. eapply lookup_lt_Some. exact Hth. }
  assert (Hnth : List.nth i temp 0%Q = t) by (rewrite nth_lookup, Ht; reflexivity).
  rewrite alarm_run_cons, Hcyc.
  cbn [fst snd event_cycles channel_series map]. rewrite Hfired, Hnth.
  specialize (Hlatch i). unfold latch_after in Hlatch. rewrite Hth, Ht in Hlatch.
  rewrite (IH s' trig' (Qlt_bool th t) (S from) Htrig' ltac:(lia) Hlatch Hall).
  unfold fired. rewrite Hth, Ht, Hb.
  cbn [spec_alarm_events]. destruct (Qlt_bool th t), b; reflexivity.
Qed.

Lemma spec_alarm_events_run_starts th col :
  forall pre b,
    b = match last pre with Some x => Qlt_bool th x | None => false end ->
    spec_alarm_events th b (length pre) col
    = List.filter (starts_run th (pre ++ col)) (seq (length pre) (length col)).
Proof.
  induction col as [|t later IH]; intros pre b Hb; [reflexivity |].
  assert (Hex : exceeds th (pre ++ t :: later) (length pre) = Qlt_bool th t).
  { unfold exceeds. rewrite list_lookup_middle by reflexivity. reflexivity. }
  assert (Hprev : match length pre with
                  | O => true
                  | S k' => negb (exceeds th (pre ++ t :: later) k')
                  end = negb b).
  { destruct (decide (pre = [])) as [-> | Hne]; [subst b; reflexivity |].
    destruct (exists_last Hne) as (pre0 & x & ->).
    rewrite last_snoc in Hb. subst b.
    rewrite length_app. simpl. rewrite Nat.add_1_r.
    unfold exceeds. rewrite <- app_assoc. simpl.
    rewrite list_lookup_middle by reflexivity. reflexivity. }
  specialize (IH (pre ++ [t]) (Qlt_bool th t)).
  rewrite last_snoc, length_app, <- app_assoc in IH. simpl in IH.
  rewrite Nat.add_1_r in IH. specialize (IH eq_refl).
  simpl. unfold starts_run at 1. rewrite Hex, Hprev.
  destruct (Qlt_bool th t) eqn:E; simpl.
  - rewrite IH. destruct b; reflexivity.
  - rewrite IH.
    (* the latch was re-armed: the run restarts from a reading not above *)
    reflexivity.
Qed.

(** C2.  For a device whose latches are as many as its thresholds, a
    channel [i] with threshold [th] whose latch is clear, and any finite
    run of cycles of full readings, evaluated with the thresholds fixed:
    the cycles in which [check_alarms] sends an alarm for the channel are
    exactly the first cycles of the maximal runs of readings above [th],
    one alarm each; they are the transitions from un-latched to latched of
    the latch automaton, which re-arms without an alarm at the first
    reading at or below [th]. *)
Theorem check_alarms_one_alarm_per_run self key mts trig s cycles i th :
  max_temps self !! key = Some mts ->
  alarm_triggered s !! key = Some trig ->
  length trig = length mts ->
  Forall (fun temp => length temp = length mts) cycles ->
  mts !! i = Some th ->
  trig !! i = Some false ->
  event_cycles i 0 (alarm_run self key cycles s)
    = run_starts th (channel_series i cycles) /\
  event_cycles i 0 (alarm_run self key cycles s)
    = spec_alarm_events th false 0 (channel_series i cycles).
Proof.
  intros Hmts Htrig Hlen Hall Hth Hb.
  pose proof (alarm_run_follows_the_latch self key mts i th Hmts Hth
                cycles s trig false 0%nat Htrig Hlen Hb Hall) as Hrun.
  split; [| exact Hrun].
  rewrite Hrun.
  exact (spec_alarm_events_run_starts th (channel_series i cycles) [] false eq_refl).
Qed.

(** Scenario B: threshold 50 on channel 0 and the readings
    48, 52, 53, 49, 51 give two alarms, in cycles 1 and 4. *)
Lemma check_alarms_one_alarm_per_run_witness :
  event_cycles 0 0
    (alarm_run (demo_config 2.5) demo_key
       [[48; 20]; [52; 20]; [53; 20]; [49; 20]; [51; 20]]%Q demo_state)
  = [1; 4]%nat.
Proof.
  refine (eq_trans
            (proj1 (check_alarms_one_alarm_per_run (demo_config 2.5) demo_key
                      [50; 50]%Q [false; false] demo_state
                      [[48; 20]; [52; 20]; [53; 20]; [49; 20]; [51; 20]]%Q
                      0%nat 50%Q _ _ _ _ _ _))
            _); try reflexivity.
  repeat constructor.
Defined.

Example scenario_B_by_evaluation :
  alarm_run (demo_config 2.5) demo_key
    [[48; 20]; [52; 20]; [53; 20]; [49; 20]; [51; 20]]%Q demo_state
  = [[]; [0]; []; []; [0]]%nat.
Proof. vm_compute. reflexivity. Qed.

(** ** The plot window *)

Lemma recent_window_positive {A} (n : Z) (data : list A) :
  1 <= n ->
  recent_window (Z.min n (Z.of_nat (length data))) data
  = drop (length data - Z.to_nat (Z.min n (Z.of_nat (length data)))) data /\
  length (recent_window (Z.min n (Z.of_nat (length data))) data)
  = Z.to_nat (Z.min n (Z.of_nat (length data))).
Proof.
  intros Hn. unfold recent_window, py_slice_from.
  set (len := Z.of_nat (length data)). set (m := Z.min n len).
  assert (Hlen : 0 <= len) by (subst len; lia).
  destruct (Z.ltb_spec (- m) 0) as [Hneg | Hpos].
  - replace (Z.to_nat (Z.max (len + - m) 0)) with (length data - Z.to_nat m)%nat
      by (subst m len; lia).
    split; [reflexivity |]. rewrite length_drop. subst m len. lia.
  - assert (Hm : m = 0) by (subst m; lia).
    assert (Hd : length data = 0%nat) by (subst m len; lia).
    destruct data; [| discriminate]. rewrite Hm. split; reflexivity.
Qed.

Example scenario_C :
  recent_window (Z.min 3 5) ["t0"; "t1"; "t2"; "t3"; "t4"] = ["t2"; "t3"; "t4"].
Proof. reflexivity. Qed.

(** C6, at the failing input.  With a window size of 0 ([LOG_MAX = 0]) the
    slice [data[-0:]] is the whole list: the window holds every sample, not
    [min(0, L) = 0] of them, and [update_plot] draws the whole history. *)
Lemma recent_window_zero_is_whole_history :
  (forall (data : list string),
     recent_window (Z.min 0 (Z.of_nat (length data))) data = data) /\
  recent_window (Z.min 0 5) ["t0"; "t1"; "t2"; "t3"; "t4"]
    = ["t0"; "t1"; "t2"; "t3"; "t4"] /\
  map (fun l => length (snd l))
      (plot_lines
         (fst (mainloop (set_log_max 0 (demo_config 2.5))
                 [demo_env [(1250%Q, 0); (2250%Q, 1)];
                  demo_env [(1250%Q, 0); (2250%Q, 1)];
                  demo_env [(1250%Q, 0); (2250%Q, 1)]]
                 (set_pending [1000] demo_state) 0)))
    = [3; 3]%nat.
Proof.
  split; [| split; [reflexivity | vm_compute; reflexivity]].
  intros data. unfold recent_window, py_slice_from.
  replace (Z.min 0 (Z.of_nat (length data))) with 0 by lia.
  change (- 0) with 0. change (0 <? 0) with false. cbv iota.
  replace (Z.min 0 (Z.of_nat (length data))) with 0 by lia.
  reflexivity.
Qed.

(** ** update_max_temps *)

Lemma float_entries_None entries :
  None ∈ entries -> float_entries entries = Raise (ValueError InvalidFloat).
Proof.
  induction entries as [|[q|] rest IH]; intros Hin.
  - inversion Hin.
  - apply elem_of_cons in Hin as [Hin | Hin]; [discriminate |].
    simpl. rewrite (IH Hin). reflexivity.
  - reflexivity.
Qed.

Lemma float_entries_Raise entries e :
  float_entries entries = Raise e -> e = ValueError InvalidFloat.
Proof.
  induction entries as [|[q|] rest IH]; simpl; intros H.
  - discriminate.
  - destruct (float_entries rest); simpl in H; [discriminate |].
    injection H as <-. apply IH. reflexivity.
  - congruence.
Qed.

Lemma update_max_temps_skips pre key entries post :
  None ∈ entries ->
  forall f, update_max_temps (pre ++ (key, entries) :: post) f
            = update_max_temps (pre ++ post) f.
Proof.
  intros Hbad. induction pre as [|[k e] pre IH]; intros f; simpl.
  - rewrite (float_entries_None _ Hbad). reflexivity.
  - destruct (float_entries e) as [qs|[]]; try reflexivity; try apply IH.
    destruct (config_set_max_temps k 0 qs (form_config f)) as [c|[]];
      simpl; try reflexivity; apply IH.
Qed.

Lemma update_max_temps_untouched items key :
  key ∉ map fst items ->
  forall f, form_max_temps (snd (update_max_temps items f)) !! key
            = form_max_temps f !! key.
Proof.
  induction items as [|[k e] items IH]; intros Hnot f; simpl; [reflexivity |].
  simpl in Hnot. apply not_elem_of_cons in Hnot as [Hne Hnot].
  destruct (float_entries e) as [qs|[]]; simpl; try reflexivity; try (apply IH; exact Hnot).
  destruct (config_set_max_temps k 0 qs (form_config f)) as [c|[]]; simpl;
    try (rewrite IH by exact Hnot; simpl);
    apply lookup_insert_ne; congruence.
Qed.

Lemma config_set_max_temps_Ok key qs :
  forall i config,
    is_Some (config !! ("alarm" +:+ key)) ->
    exists config',
      config_set_max_temps key i qs config = Ok config' /\
      forall section, is_Some (config' !! section) <-> is_Some (config !! section).
Proof.
  induction qs as [|q qs IH]; intros i config Hsec; simpl.
  - exists config. split; [reflexivity | tauto].
  - unfold config_set. destruct Hsec as [opts Hopts]. rewrite Hopts. simpl.
    set (config1 := <[("alarm" +:+ key) := _]> config).
    assert (Hdom : forall section,
               is_Some (config1 !! section) <-> is_Some (config !! section)).
    { intros section. subst config1.
      destruct (decide ("alarm" +:+ key = section)) as [<- | Hne].
      - rewrite lookup_insert_eq, Hopts. split; eauto.
      - rewrite lookup_insert_ne by exact Hne. tauto. }
    destruct (IH (S i) config1) as (config' & Hset & Hdom').
    { apply Hdom. eauto. }
    exists config'. split; [exact Hset |].
    intros section. rewrite Hdom'. apply Hdom.
Qed.

Lemma update_max_temps_applies items :
  forall f,
    NoDup (map fst items) ->
    (forall k e qs, (k, e) ∈ items -> float_entries e = Ok qs ->
                    is_Some (form_config f !! ("alarm" +:+ k))) ->
    fst (update_max_temps items f) = Ok tt /\
    forall k e qs, (k, e) ∈ items -> float_entries e = Ok qs ->
                   form_max_temps (snd (update_max_temps items f)) !! k = Some qs.
Proof.
  induction items as [|[k0 e0] items IH]; intros f Hnd Hsec.
  - split; [reflexivity |]. intros k e qs Hin. inversion Hin.
  - simpl in Hnd. apply NoDup_cons in Hnd as [Hfresh Hnd].
    simpl. destruct (float_entries e0) as [qs0|err] eqn:Hparse.
    + destruct (config_set_max_temps_Ok k0 qs0 0 (form_config f)) as (c & Hset & Hdom).
      { apply (Hsec k0 e0 qs0); [left | exact Hparse]. }
      simpl. rewrite Hset.
      set (f2 := {| form_max_temps := <[k0 := qs0]> (form_max_temps f);
                    form_config := c |}).
      destruct (IH f2 Hnd) as [Hok Happ].
      { intros k e qs Hin Hq. simpl. apply Hdom. apply (Hsec k e qs); [right |]; assumption. }
      split; [exact Hok |].
      intros k e qs Hin Hq. apply elem_of_cons in Hin as [Heq | Hin].
      * injection Heq as -> ->.
        rewrite (update_max_temps_untouched items k0 Hfresh f2). simpl.
        rewrite lookup_insert_eq. congruence.
      * apply (Happ k e qs); assumption.
    + rewrite (float_entries_Raise _ _ Hparse).
      destruct (IH f Hnd) as [Hok Happ].
      { intros k e qs Hin Hq. apply (Hsec k e qs); [right |]; assumption. }
      split; [exact Hok |].
      intros k e qs Hin Hq. apply elem_of_cons in Hin as [Heq | Hin].
      * injection Heq as -> ->. congruence.
      * apply (Happ k e qs); assumption.
Qed.

(** C10.  A device one of whose entry fields is no number keeps its
    thresholds as they were; the form is processed exactly as if that
    device were not in it, so the other devices are updated independently:
    when the [alarm] sections of the devices whose fields all parse exist,
    the function returns and each of them gets its new thresholds. *)
Theorem update_max_temps_all_or_nothing pre key entries post f :
  None ∈ entries ->
  NoDup (map fst (pre ++ (key, entries) :: post)) ->
  form_max_temps (snd (update_max_temps (pre ++ (key, entries) :: post) f)) !! key
    = form_max_temps f !! key /\
  update_max_temps (pre ++ (key, entries) :: post) f
    = update_max_temps (pre ++ post) f /\
  ((forall k e qs, (k, e) ∈ pre ++ post -> float_entries e = Ok qs ->
                   is_Some (form_config f !! ("alarm" +:+ k))) ->
   fst (update_max_temps (pre ++ (key, entries) :: post) f) = Ok tt /\
   forall k e qs, (k, e) ∈ pre ++ post -> float_entries e = Ok qs ->
     form_max_temps (snd (update_max_temps (pre ++ (key, entries) :: post) f)) !! k
       = Some qs).
Proof.
  intros Hbad Hnd.
  rewrite (update_max_temps_skips pre key entries post Hbad f).
  assert (Hnd' : NoDup (map fst (pre ++ post)) /\ key ∉ map fst (pre ++ post)).
  { rewrite map_app in *. simpl in Hnd.
    apply NoDup_app in Hnd as (Hpre & Hdisj & Hpost).
    apply NoDup_cons in Hpost as [Hkey Hpost].
    split.
    - apply NoDup_app. repeat split; [exact Hpre | | exact Hpost].
      intros x Hx Hx'. apply (Hdisj x Hx). right. exact Hx'.
    - intros Hin. apply elem_of_app in Hin as [Hin | Hin]; [| tauto].
      apply (Hdisj key Hin). left. }
  destruct Hnd' as [Hnd' Hfresh].
  split; [apply update_max_temps_untouched; exact Hfresh |].
  split; [reflexivity |].
  intros Hsec. apply update_max_temps_applies; assumption.
Qed.

Lemma update_max_temps_all_or_nothing_witness :
  form_max_temps
    (snd (update_max_temps
            [("a", [Some 60%Q; None]); ("b", [Some 70%Q])]
            {| form_max_temps := {["a" := [50; 50]%Q; "b" := [50%Q]]};
               form_config := {["alarma" := ∅; "alarmb" := ∅]} |})) !! "a"
    = Some [50; 50]%Q /\
  form_max_temps
    (snd (update_max_temps
            [("a", [Some 60%Q; None]); ("b", [Some 70%Q])]
            {| form_max_temps := {["a" := [50; 50]%Q; "b" := [50%Q]]};
               form_config := {["alarma" := ∅; "alarmb" := ∅]} |})) !! "b"
    = Some [70%Q].
Proof.
  pose proof (update_max_temps_all_or_nothing [] "a" [Some 60%Q; None]
                [("b", [Some 70%Q])]
                {| form_max_temps := {["a" := [50; 50]%Q; "b" := [50%Q]]};
                   form_config := {["alarma" := ∅; "alarmb" := ∅]} |}) as H.
  destruct H as (Hkept & _ & Hothers).
  - apply list_elem_of_In. right. left. reflexivity.
  - simpl. repeat constructor; rewrite list_elem_of_In; simpl; intuition discriminate.
  - split; [exact Hkept |].
    destruct Hothers as [_ Hothers].
    + intros k e qs Hin _. apply list_elem_of_In in Hin. simpl in Hin.
      destruct Hin as [[= <- <-] | []]. vm_compute. eauto.
    + apply (Hothers "b" [Some 70%Q] [70%Q]); [| reflexivity].
      apply list_elem_of_In. left. reflexivity.
Defined.

(** ** Loading the calibration and starting *)

Lemma getThermistorData_cases csv self :
  getThermistorData csv self =
  match csv with
  | Ok (row :: rows) =>
      (set_temp_interpolate_50k (Some (sort_points (reverse (row :: rows)))) self, None)
  | Ok [] => (self, Some (ValueError TooFewEntries))
  | Raise e => (self, Some e)
  end.
Proof.
  unfold getThermistorData. destruct csv as [[|row rows]|e]; simpl; try reflexivity.
  unfold interp1d.
  destruct (decide (length (reverse (row :: rows)) < 1)%nat) as [Hlt|]; [| reflexivity].
  rewrite length_reverse in Hlt. simpl in Hlt. lia.
Qed.

Lemma per_device_Ok {V} self (f : list string -> V) keys :
  (forall key, key ∈ keys -> is_Some (labels self !! key)) ->
  exists m, per_device self keys f = Ok m.
Proof.
  induction keys as [|key keys IH]; intros Hl; simpl; [eauto |].
  destruct (Hl key) as [lbls Hlbls]; [left |].
  unfold dict_get. rewrite Hlbls. simpl.
  destruct IH as [m Hm]; [intros k Hk; apply Hl; right; exact Hk |].
  rewrite Hm. simpl. eauto.
Qed.

Lemma processVoltage_body_without_interpolator self key mV :
  temp_interpolate_50k self = None ->
  exists e,
    processVoltage_body self key mV = Raise e /\
    (e = TypeError \/
     forall f, processVoltage_body (set_temp_interpolate_50k f self) key mV = Raise e).
Proof.
  intros Hnone. unfold processVoltage_body. rewrite Hnone. cbn [set_temp_interpolate_50k
    resistances read_channels temp_interpolate_50k].
  destruct (dict_get (resistances self) key) as [res|e]; simpl; [| eauto].
  destruct (dict_get (read_channels self) key) as [chans|e]; simpl; [| eauto].
  destruct (list_index (snd mV) chans) as [pos|e]; simpl; [| eauto].
  destruct (list_get res pos) as [r1|e]; simpl; [| eauto].
  destruct (py_div _ _) as [r|e]; simpl; eauto.
Qed.

Lemma processVoltage_without_interpolator self key mV rest :
  temp_interpolate_50k self = None ->
  exists e,
    processVoltage self (mV :: rest) key = Raise e /\
    (e = TypeError \/
     forall f, processVoltage (set_temp_interpolate_50k f self) (mV :: rest) key = Raise e).
Proof.
  intros Hnone.
  destruct (processVoltage_body_without_interpolator self key mV Hnone)
    as (e & Hbody & Hwhy).
  exists e. unfold processVoltage. cbn [processVoltage_loop]. rewrite Hbody.
  split; [reflexivity |].
  destruct Hwhy as [-> | Hall]; [left; reflexivity |].
  right. intros f. rewrite (Hall f). reflexivity.
Qed.

(** C5, as the code has it.  [getThermistorData] catches every exception:
    when the datasheet cannot be read or has no row, the error is printed
    and [temp_interpolate_50k] stays [None]; a datasheet with at least one
    row is accepted whatever its resistances are, duplicated or not
    monotonic, and sorted by resistance.  In every case the constructor
    goes on: when the rest of the start is in order, the first cycle runs
    and the next one is scheduled.  In a window that started without
    interpolator no list of readings converts: [processVoltage] raises on
    the first reading, with [TypeError] when the reading gets as far as the
    call of the interpolator, and otherwise with the exception of an
    earlier step of that reading, which is raised whatever the
    interpolator is. *)
Theorem getThermistorData_never_stops_startup boot env self0 :
  email_options boot = Ok tt ->
  widgets boot = Ok tt ->
  (forall key, key ∈ ljsID self0 -> is_Some (labels self0 !! key)) ->
  snd (getThermistorData (thermistor_csv boot) (set_temp_interpolate_50k None self0))
    = match thermistor_csv boot with
      | Ok (_ :: _) => None
      | Ok [] => Some (ValueError TooFewEntries)
      | Raise e => Some e
      end /\
  exists self s,
    MainWindow_init boot env self0 = Ok (self, s) /\
    temp_interpolate_50k self = loaded_interpolator (thermistor_csv boot) /\
    pending s = [timer_value self0] /\
    (loaded_interpolator (thermistor_csv boot) = None ->
     forall mV rest key, exists e,
       processVoltage self (mV :: rest) key = Raise e /\
       (e = TypeError \/
        forall f,
          processVoltage (set_temp_interpolate_50k f self) (mV :: rest) key = Raise e)).
Proof.
  intros Hemail Hwidgets Hlabels. split.
  - rewrite getThermistorData_cases.
    destruct (thermistor_csv boot) as [[|row rows]|e]; reflexivity.
  - unfold MainWindow_init. rewrite Hemail, Hwidgets.
    set (self := fst (getThermistorData (thermistor_csv boot)
                        (set_temp_interpolate_50k None self0))).
    assert (Hself : temp_interpolate_50k self = loaded_interpolator (thermistor_csv boot)
                    /\ ljsID self = ljsID self0 /\ labels self = labels self0
                    /\ timer_value self = timer_value self0).
    { subst self. rewrite getThermistorData_cases.
      destruct (thermistor_csv boot) as [[|row rows]|e]; simpl; repeat split; reflexivity. }
    destruct Hself as (Hint & Hids & Hlbl & Htimer).
    assert (Hl : forall key, key ∈ ljsID self -> is_Some (labels self !! key)).
    { rewrite Hids, Hlbl. exact Hlabels. }
    destruct (per_device_Ok self (fun l => replicate (length l) false) _ Hl)
      as [latches ->].
    destruct (per_device_Ok self (fun l => replicate (length l) ([] : list Q)) _ Hl)
      as [temps ->].
    simpl. eexists _, _. split; [reflexivity |]. split; [exact Hint |]. split.
    + match goal with
      | |- pending (snd (update_data ?e ?c ?s0)) = _ =>
          destruct (update_data_reschedules e c s0) as [_ H]; rewrite H
      end.
      simpl. rewrite Htimer. reflexivity.
    + intros Hnone mV rest key.
      apply processVoltage_without_interpolator. rewrite Hint. exact Hnone.
Qed.

Lemma getThermistorData_never_stops_startup_witness :
  (exists self s,
     MainWindow_init
       (demo_boot (Ok [(10000, 25); (10000, 30); (20000, 10); (5000, 40)]%Q))
       (demo_env [(1500%Q, 0); (2250%Q, 1)]) (demo_config 2.5) = Ok (self, s) /\
     temp_interpolate_50k self
       = Some [(5000, 40); (10000, 30); (10000, 25); (20000, 10)]%Q /\
     pending s = [1000]) /\
  (exists self s,
     MainWindow_init (demo_boot (Ok [])) (demo_env [(2500%Q, 0); (2250%Q, 1)])
       (demo_config 2.5) = Ok (self, s) /\
     pending s = [1000] /\
     processVoltage self [(2500%Q, 0); (2250%Q, 1)] demo_key = Raise ZeroDivisionError /\
     processVoltage self [(2250%Q, 1)] demo_key = Raise TypeError).
Proof.
  assert (Hlabels : forall key, key ∈ ljsID (demo_config 2.5) ->
                                is_Some (labels (demo_config 2.5) !! key)).
  { intros key Hin. apply list_elem_of_In in Hin. destruct Hin as [<- | []].
    vm_compute. eauto. }
  split.
  - destruct (proj2 (getThermistorData_never_stops_startup
                       (demo_boot (Ok [(10000, 25); (10000, 30); (20000, 10); (5000, 40)]%Q))
                       (demo_env [(1500%Q, 0); (2250%Q, 1)]) (demo_config 2.5)
                       eq_refl eq_refl Hlabels))
      as (self & s & Hinit & Htbl & Hpending & _).
    exists self, s. split; [exact Hinit |]. split; [exact Htbl | exact Hpending].
  - destruct (proj2 (getThermistorData_never_stops_startup
                       (demo_boot (Ok [])) (demo_env [(2500%Q, 0); (2250%Q, 1)])
                       (demo_config 2.5) eq_refl eq_refl Hlabels))
      as (self & s & Hinit & Htbl & Hpending & Hraise).
    exists self, s. split; [exact Hinit |]. split; [exact Hpending |].
    injection Hinit as <- _. split; vm_compute; reflexivity.
Defined.

(** C5, counterexample.  With a datasheet without rows the constructor
    returns, the interpolator is [None], the first cycle has run (its
    conversion raised [TypeError], which was printed) and the next cycle is
    scheduled; and a datasheet with a duplicated resistance is accepted. *)
Lemma empty_datasheet_does_not_stop_startup :
  (exists self s,
     MainWindow_init (demo_boot (Ok [])) (demo_env [(1250%Q, 0); (2250%Q, 1)])
       (demo_config 2.5) = Ok (self, s) /\
     temp_interpolate_50k self = None /\
     printed s = [TypeError] /\
     pending s = [1000]) /\
  fst (getThermistorData (Ok [(10000, 25); (10000, 30)]%Q)
         (set_temp_interpolate_50k None (demo_config 2.5)))
    = set_temp_interpolate_50k (Some [(10000, 30); (10000, 25)]%Q) (demo_config 2.5).
Proof.
  split; [| reflexivity].
  eexists _, _. split; [reflexivity |]. repeat split; vm_compute; reflexivity.
Qed.

(** * Further properties of the conversion *)

Lemma processVoltage_loop_first_failure self key pre trs mV post e :
  Forall2 (fun mV tr => processVoltage_body self key mV = Ok tr) pre trs ->
  processVoltage_body self key mV = Raise e ->
  forall temp0 res0,
    processVoltage_loop self key (pre ++ mV :: post) temp0 res0 = Raise e.
Proof.
  intros Hpre Hbad. induction Hpre as [|m tr pre trs Hm _ IH]; intros temp0 res0; simpl.
  - rewrite Hbad. reflexivity.
  - rewrite Hm. simpl. apply IH.
Qed.

(** X1.  [processVoltage] stops at the first reading whose conversion
    raises and raises that exception: the readings before it are converted
    and thrown away, the readings after it are not looked at. *)
Theorem processVoltage_first_failure self key pre trs mV post e :
  Forall2 (fun mV tr => processVoltage_body self key mV = Ok tr) pre trs ->
  processVoltage_body self key mV = Raise e ->
  processVoltage self (pre ++ mV :: post) key = Raise e.
Proof.
  intros Hpre Hbad. unfold processVoltage.
  apply (processVoltage_loop_first_failure self key pre trs mV post e Hpre Hbad).
Qed.

Lemma processVoltage_first_failure_witness :
  processVoltage (demo_config 2.5)
    ([(1250%Q, 0)] ++ (2500%Q, 1) :: [(1250%Q, 7)]) demo_key
  = Raise ZeroDivisionError.
Proof.
  eapply (processVoltage_first_failure (demo_config 2.5) demo_key
            [(1250%Q, 0)] _ (2500%Q, 1) [(1250%Q, 7)] ZeroDivisionError).
  - constructor; [vm_compute; reflexivity | constructor].
  - vm_compute. reflexivity.
Defined.

Lemma list_index_absent x l :
  x ∉ l -> list_index x l = Raise (ValueError NotInList).
Proof.
  induction l as [|y l IH]; intros Hnot; simpl; [reflexivity |].
  apply not_elem_of_cons in Hnot as [Hne Hnot].
  destruct (Z.eqb_spec x y) as [-> | _]; [congruence |].
  rewrite (IH Hnot). reflexivity.
Qed.

(** X2.  A reading whose channel is not among the configured channels of
    the device cannot be converted ([list.index] raises [ValueError]), and
    a list of readings that contains one makes [processVoltage] raise. *)
Theorem processVoltage_unconfigured_channel self key voltages mV res chans :
  resistances self !! key = Some res ->
  read_channels self !! key = Some chans ->
  In mV voltages ->
  snd mV ∉ chans ->
  processVoltage_body self key mV = Raise (ValueError NotInList) /\
  exists e, processVoltage self voltages key = Raise e.
Proof.
  intros Hres Hch Hin Hnot.
  assert (Hbody : processVoltage_body self key mV = Raise (ValueError NotInList)).
  { unfold processVoltage_body, dict_get. rewrite Hres. simpl. rewrite Hch. simpl.
    rewrite (list_index_absent _ _ Hnot). reflexivity. }
  split; [exact Hbody |].
  pose proof (processVoltage_loop_raise self key voltages mV Hin) as H.
  rewrite Hbody in H. specialize (H I [] []).
  unfold processVoltage.
  destruct (processVoltage_loop self key voltages [] []); [destruct H | eauto].
Qed.

Lemma processVoltage_unconfigured_channel_witness :
  exists e,
    processVoltage (demo_config 2.5) [(1250%Q, 0); (1250%Q, 5)] demo_key = Raise e.
Proof.
  refine (proj2 (processVoltage_unconfigured_channel (demo_config 2.5) demo_key
                   [(1250%Q, 0); (1250%Q, 5)] (1250%Q, 5) [10000; 1000]%Q [0; 1]
                   eq_refl eq_refl _ _)).
  - right. left. reflexivity.
  - simpl. rewrite !elem_of_cons. intros [H | [H | H]]; [discriminate | discriminate |].
    inversion H.
Defined.

(** X3.  When the datasheet could not be loaded, the window that
    [getThermistorData] leaves converts nothing: [processVoltage] raises on
    every list of readings that is not empty. *)
Theorem processVoltage_without_datasheet csv self0 voltages key :
  loaded_interpolator csv = None ->
  voltages <> [] ->
  exists e,
    processVoltage
      (fst (getThermistorData csv (set_temp_interpolate_50k None self0)))
      voltages key = Raise e.
Proof.
  intros Hcsv Hne.
  set (self := fst (getThermistorData csv (set_temp_interpolate_50k None self0))).
  assert (Hnone : temp_interpolate_50k self = None).
  { subst self. rewrite getThermistorData_cases.
    destruct csv as [[|row rows]|e]; simpl in *; congruence. }
  destruct voltages as [|mV rest]; [congruence |].
  assert (Hbody : is_raise (processVoltage_body self key mV)).
  { unfold processVoltage_body. rewrite Hnone.
    destruct (dict_get (resistances self) key) as [res|]; simpl; [| exact I].
    destruct (dict_get (read_channels self) key) as [chans|]; simpl; [| exact I].
    destruct (list_index (snd mV) chans) as [pos|]; simpl; [| exact I].
    destruct (list_get res pos) as [r1|]; simpl; [| exact I].
    destruct (py_div _ _); simpl; exact I. }
  pose proof (processVoltage_loop_raise self key (mV :: rest) mV
                (or_introl eq_refl) Hbody [] []) as H.
  unfold processVoltage.
  destruct (processVoltage_loop self key (mV :: rest) [] []); [destruct H | eauto].
Qed.

Lemma processVoltage_without_datasheet_witness :
  exists e,
    processVoltage
      (fst (getThermistorData (Ok []) (set_temp_interpolate_50k None (demo_config 2.5))))
      [(1250%Q, 0)] demo_key = Raise e.
Proof.
  apply (processVoltage_without_datasheet (Ok []) (demo_config 2.5)
           [(1250%Q, 0)] demo_key eq_refl).
  discriminate.
Defined.

(** X4.  On one channel with a positive reference resistance, readings
    from 0 mV up to, but below, 2500 mV give a resistance that is not
    negative and that does not decrease when the reading grows.  (The
    statement is the one that rounding keeps: each of the four float
    operations of the source is monotone, so the floats of the source
    satisfy it as the rationals do; two readings that differ in the last
    bit may round to the same resistance.) *)
Theorem processVoltage_resistance_monotone self key ch m1 m2 t1 t2 ra rb :
  (forall res r1, resistances self !! key = Some res -> In r1 res -> (0 < r1)%Q) ->
  processVoltage_body self key (m1, ch) = Ok (t1, ra) ->
  processVoltage_body self key (m2, ch) = Ok (t2, rb) ->
  (0 <= m1)%Q -> (m1 <= m2)%Q -> (m2 < 2500)%Q ->
  (0 <= ra)%Q /\ (ra <= rb)%Q.
Proof.
  intros Hpos Ha Hb H0 H12 H2.
  apply processVoltage_body_Ok in Ha
    as (res & chans & pos & r1 & Hres & Hch & Hidx & Hr1 & _ & -> & _).
  apply processVoltage_body_Ok in Hb
    as (res' & chans' & pos' & r1' & Hres' & Hch' & Hidx' & Hr1' & _ & -> & _).
  simpl in *.
  assert (res' = res) as -> by congruence.
  assert (chans' = chans) as -> by congruence.
  assert (pos' = pos) as -> by congruence.
  assert (r1' = r1) as -> by congruence.
  assert (Hr : (0 < r1)%Q).
  { apply (Hpos res r1 Hres). apply list_elem_of_In.
    eapply list_elem_of_lookup_2. exact Hr1. }
  set (v1 := (m1 / 1000)%Q). set (v2 := (m2 / 1000)%Q).
  assert (E1 : (v1 * 1000 == m1)%Q) by (subst v1; field).
  assert (E2 : (v2 * 1000 == m2)%Q) by (subst v2; field).
  assert (Hv1 : (0 <= v1)%Q) by lra.
  assert (Hv12 : (v1 <= v2)%Q) by lra.
  assert (Hv2 : (v2 < 2.5)%Q) by lra.
  split.
  - apply Qle_shift_div_l; [lra |]. rewrite Qmult_0_l.
    apply Qmult_le_0_compat; lra.
  - assert (Hdiff : (r1 * v2 / (2.5 - v2) - r1 * v1 / (2.5 - v1)
                     == (r1 * 2.5 * (v2 - v1)) / ((2.5 - v1) * (2.5 - v2)))%Q).
    { field. split; lra. }
    assert (Hge : (0 <= (r1 * 2.5 * (v2 - v1)) / ((2.5 - v1) * (2.5 - v2)))%Q).
    { apply Qle_shift_div_l.
      - apply Qmult_lt_0_compat; lra.
      - rewrite Qmult_0_l. repeat apply Qmult_le_0_compat; lra. }
    rewrite <- Hdiff in Hge. lra.
Qed.

Lemma processVoltage_resistance_monotone_witness :
  exists t1 t2 ra rb,
    processVoltage_body (demo_config 2.5) demo_key (1250%Q, 0) = Ok (t1, ra) /\
    processVoltage_body (demo_config 2.5) demo_key (1500%Q, 0) = Ok (t2, rb) /\
    (0 <= ra)%Q /\ (ra <= rb)%Q.
Proof.
  eexists _, _, _, _.
  split; [vm_compute; reflexivity |]. split; [vm_compute; reflexivity |].
  eapply (processVoltage_resistance_monotone (demo_config 2.5) demo_key 0
            1250 1500).
  - intros res r1 H. vm_compute in H. injection H as <-.
    intros [<- | [<- | []]]; reflexivity.
  - vm_compute. reflexivity.
  - vm_compute. reflexivity.
  - vm_compute. discriminate.
  - vm_compute. discriminate.
  - reflexivity.
Defined.

(** * Further properties of the alarm check *)

Lemma latch_after_zip mts trig temp :
  length temp = length mts -> length trig = length mts ->
  forall trig', length trig' = length trig ->
    (forall j, trig' !! j = latch_after mts trig temp j) ->
    trig' = zip_with Qlt_bool mts temp.
Proof.
  intros Ht Hg trig' Hlen Hl. apply list_eq. intros j.
  rewrite Hl, lookup_zip_with. unfold latch_after.
  destruct (mts !! j) as [th|] eqn:Hth; simpl.
  - destruct (lookup_lt_is_Some_2 temp j) as [t Htj].
    { rewrite Ht. eapply lookup_lt_Some. exact Hth. }
    rewrite Htj. reflexivity.
  - apply lookup_ge_None_2. apply lookup_ge_None_1 in Hth. lia.
Qed.

Lemma check_alarms_latches_last_comparison_aux self key mts trig temp s :
  max_temps self !! key = Some mts ->
  alarm_triggered s !! key = Some trig ->
  length temp = length mts ->
  length trig = length mts ->
  fst (check_alarms self temp key s) = Ok tt /\
  alarm_triggered (snd (check_alarms self temp key s)) !! key
    = Some (zip_with Qlt_bool mts temp) /\
  exists evs,
    alarm_emails (snd (check_alarms self temp key s)) = alarm_emails s ++ evs /\
    forall j, filter (fun c => c = j) (map alarm_channel evs)
              = if fired mts trig temp j then [j] else [].
Proof.
  intros Hmts Htrig Ht Hg.
  destruct (check_alarms_from_spec self key mts temp Hmts ltac:(lia)
              temp 0%nat s trig (drop_0 temp) Htrig ltac:(lia))
    as (s' & trig' & evs & Hrun & Htrig' & Hlen' & Hev & Hlatch & Hfired).
  unfold check_alarms. rewrite Hrun. simpl.
  split; [reflexivity |]. split.
  - rewrite Htrig'. f_equal.
    apply (latch_after_zip mts trig temp Ht Hg trig' Hlen').
    intros j. rewrite Hlatch. destruct (decide (0 <= j)%nat); [reflexivity | lia].
  - exists evs. split; [exact Hev |].
    intros j. rewrite Hfired. destruct (decide (0 <= j)%nat); [reflexivity | lia].
Qed.


(** X5.  When a device has as many latches and readings as thresholds,
    [check_alarms] returns, and afterwards the latch of every channel says
    whether the reading just checked exceeds the threshold; in that cycle
    a channel gets one alarm call when its reading exceeds the threshold
    and its latch was clear, and none otherwise. *)
Theorem check_alarms_latches_last_comparison self key mts trig temp s :
  max_temps self !! key = Some mts ->
  alarm_triggered s !! key = Some trig ->
  length temp = length mts ->
  length trig = length mts ->
  fst (check_alarms self temp key s) = Ok tt /\
  alarm_triggered (snd (check_alarms self temp key s)) !! key
    = Some (zip_with Qlt_bool mts temp) /\
  exists evs,
    alarm_emails (snd (check_alarms self temp key s)) = alarm_emails s ++ evs /\
    forall j, filter (fun c => c = j) (map alarm_channel evs)
              = if fired mts trig temp j then [j] else [].
Proof.
  apply check_alarms_latches_last_comparison_aux.
Qed.

Lemma check_alarms_latches_last_comparison_witness :
  alarm_triggered (snd (check_alarms (demo_config 2.5) [52; 20]%Q demo_key demo_state))
    !! demo_key
  = Some [true; false].
Proof.
  exact (proj1 (proj2 (check_alarms_latches_last_comparison (demo_config 2.5)
                         demo_key [50; 50]%Q [false; false] [52; 20]%Q demo_state
                         eq_refl eq_refl eq_refl eq_refl))).
Defined.

Lemma all_filters_empty (l : list nat) :
  (forall j, filter (fun c => c = j) l = []) -> l = [].
Proof.
  destruct l as [|c l]; [reflexivity |]. intros H. specialize (H c).
  rewrite filter_cons_True in H by reflexivity. discriminate.
Qed.

(** X6.  Checking the same readings twice in a row sends no alarm the
    second time, whatever the latches were before the first check. *)
Theorem check_alarms_does_not_repeat self key mts trig temp s :
  max_temps self !! key = Some mts ->
  alarm_triggered s !! key = Some trig ->
  length temp = length mts ->
  length trig = length mts ->
  alarm_emails (snd (check_alarms self temp key (snd (check_alarms self temp key s))))
  = alarm_emails (snd (check_alarms self temp key s)).
Proof.
  intros Hmts Htrig Ht Hg.
  destruct (check_alarms_latches_last_comparison_aux self key mts trig temp s
              Hmts Htrig Ht Hg) as (_ & Htrig1 & _).
  set (s1 := snd (check_alarms self temp key s)) in *.
  assert (Hlen1 : length (zip_with Qlt_bool mts temp) = length mts).
  { rewrite length_zip_with. lia. }
  destruct (check_alarms_latches_last_comparison_aux self key mts _ temp s1
              Hmts Htrig1 Ht Hlen1) as (_ & _ & evs & Hev & Hfired).
  rewrite Hev.
  assert (Hnil : map alarm_channel evs = []).
  { apply all_filters_empty. intros j. rewrite Hfired.
    unfold fired. rewrite lookup_zip_with.
    destruct (mts !! j) as [th|]; [| reflexivity].
    destruct (temp !! j) as [t|]; [| reflexivity]. simpl.
    destruct (Qlt_bool th t); reflexivity. }
  destruct evs; [apply app_nil_r | discriminate].
Qed.

Lemma check_alarms_does_not_repeat_witness :
  alarm_emails
    (snd (check_alarms (demo_config 2.5) [52; 20]%Q demo_key
            (snd (check_alarms (demo_config 2.5) [52; 20]%Q demo_key demo_state))))
  = alarm_emails (snd (check_alarms (demo_config 2.5) [52; 20]%Q demo_key demo_state)).
Proof.
  exact (check_alarms_does_not_repeat (demo_config 2.5) demo_key [50; 50]%Q
           [false; false] [52; 20]%Q demo_state eq_refl eq_refl eq_refl eq_refl).
Defined.

Lemma check_alarm_channel_out_of_range self key mts trig i t s :
  max_temps self !! key = Some mts ->
  alarm_triggered s !! key = Some trig ->
  (Nat.min (length mts) (length trig) <= i)%nat ->
  fst (check_alarm_channel self key i t s) = Raise IndexError.
Proof.
  intros Hmts Htrig Hi.
  unfold check_alarm_channel, set_triggered, send_alarm_email,
    mbind, M_bind, lift, get_state, modify, mret, M_ret, dict_get, list_get, list_set.
  rewrite Hmts.
  destruct (mts !! i) as [th|] eqn:Hth; [| reflexivity].
  assert (Hti : trig !! i = None).
  { apply lookup_ge_None_2. apply lookup_lt_Some in Hth. lia. }
  destruct (Qlt_bool th t); simpl; rewrite Htrig.
  - rewrite Hti. reflexivity.
  - destruct (decide (i < length trig)%nat) as [Hlt|]; [| reflexivity].
    apply lookup_ge_None_1 in Hti. lia.
Qed.

Lemma check_alarms_from_out_of_range self key mts :
  max_temps self !! key = Some mts ->
  forall temp i s trig,
    alarm_triggered s !! key = Some trig ->
    (i <= Nat.min (length mts) (length trig))%nat ->
    (Nat.min (length mts) (length trig) < i + length temp)%nat ->
    fst (check_alarms_from self key i temp s) = Raise IndexError.
Proof.
  intros Hmts. induction temp as [|t rest IH]; intros i s trig Htrig Hlo Hhi.
  - simpl in Hhi. lia.
  - simpl. unfold mbind, M_bind.
    destruct (decide (i = Nat.min (length mts) (length trig))) as [Heq | Hne].
    + pose proof (check_alarm_channel_out_of_range self key mts trig i t s
                    Hmts Htrig ltac:(lia)) as Hstep.
      destruct (check_alarm_channel self key i t s) as [[[]|e] s1]; simpl in *;
        congruence.
    + destruct (lookup_lt_is_Some_2 mts i) as [th Hth]; [lia |].
      destruct (lookup_lt_is_Some_2 trig i) as [b Hb]; [lia |].
      rewrite (check_alarm_channel_spec self key mts trig i t th b s Hmts Hth Htrig Hb).
      apply (IH (S i) _ (<[i := Qlt_bool th t]> trig)).
      * simpl. apply lookup_insert_eq.
      * rewrite length_insert. lia.
      * rewrite length_insert. simpl in Hhi. lia.
Qed.

(** X7.  When a cycle brings more readings than the device has thresholds
    or latches, [check_alarms] raises [IndexError] (after having treated
    the channels that have both). *)
Theorem check_alarms_too_many_readings self key mts trig temp s :
  max_temps self !! key = Some mts ->
  alarm_triggered s !! key = Some trig ->
  (Nat.min (length mts) (length trig) < length temp)%nat ->
  fst (check_alarms self temp key s) = Raise IndexError.
Proof.
  intros Hmts Htrig Hlen. unfold check_alarms.
  apply (check_alarms_from_out_of_range self key mts Hmts temp 0%nat s trig Htrig);
    simpl; lia.
Qed.

Lemma check_alarms_too_many_readings_witness :
  fst (check_alarms (demo_config 2.5) [52; 20; 30]%Q demo_key demo_state)
  = Raise IndexError.
Proof.
  apply (check_alarms_too_many_readings (demo_config 2.5) demo_key
           [50; 50]%Q [false; false] [52; 20; 30]%Q demo_state eq_refl eq_refl).
  simpl. lia.
Defined.

(** X8.  [check_alarms] for one device leaves every other device as it
    was (arrays, latches, log lines, alarm calls), and changes neither the
    time stamps nor the two arrays of any device, whether it returns or
    raises. *)
Theorem check_alarms_stays_on_its_device self temp k key s :
  k <> key ->
  device_view key (snd (check_alarms self temp k s)) = device_view key s /\
  time_data (snd (check_alarms self temp k s)) = time_data s /\
  temp_data (snd (check_alarms self temp k s)) = temp_data s /\
  voltage_data (snd (check_alarms self temp k s)) = voltage_data s.
Proof.
  intros Hne. unfold check_alarms. split; [| split; [| split]].
  - apply (check_alarms_from_keeps_other self key k temp Hne 0%nat s).
  - apply (check_alarms_from_keeps time_data self k temp); reflexivity.
  - apply (check_alarms_from_keeps temp_data self k temp); reflexivity.
  - apply (check_alarms_from_keeps voltage_data self k temp); reflexivity.
Qed.

Lemma check_alarms_stays_on_its_device_witness :
  device_view "other"
    (snd (check_alarms (demo_config 2.5) [52; 20]%Q demo_key demo_state))
  = device_view "other" demo_state.
Proof.
  refine (proj1 (check_alarms_stays_on_its_device (demo_config 2.5) [52; 20]%Q
                   demo_key "other" demo_state _)).
  discriminate.
Defined.

(** * Further properties of the plot window *)

(** X9.  For a window size of at least 1, the samples shown by
    [update_plot] are a suffix of the history, in the order of the
    history, and there are [min(n, L)] of them. *)
Theorem recent_window_is_the_tail {A} (n : Z) (data : list A) :
  1 <= n ->
  exists older,
    data = older ++ recent_window (Z.min n (Z.of_nat (length data))) data /\
    Z.of_nat (length (recent_window (Z.min n (Z.of_nat (length data))) data))
    = Z.min n (Z.of_nat (length data)).
Proof.
  intros Hn. destruct (recent_window_positive n data Hn) as [Hw Hl].
  exists (take (length data - Z.to_nat (Z.min n (Z.of_nat (length data)))) data).
  split.
  - rewrite Hw. symmetry. apply take_drop.
  - rewrite Hl. lia.
Qed.

Lemma recent_window_is_the_tail_witness :
  exists older,
    ["t0"; "t1"; "t2"; "t3"; "t4"]
    = older ++ recent_window (Z.min 3 5) ["t0"; "t1"; "t2"; "t3"; "t4"] /\
    Z.of_nat (length (recent_window (Z.min 3 5) ["t0"; "t1"; "t2"; "t3"; "t4"]))
    = Z.min 3 5.
Proof.
  apply (recent_window_is_the_tail 3 ["t0"; "t1"; "t2"; "t3"; "t4"]). lia.
Defined.

(** X10.  With a negative window size ([LOG_MAX < 0]) the slice
    [data[-max_points:]] has a positive start: [update_plot] shows the
    history without its first [-LOG_MAX] samples, and nothing once the
    history is not longer than that. *)
Theorem recent_window_negative_size {A} (n : Z) (data : list A) :
  n < 0 ->
  recent_window (Z.min n (Z.of_nat (length data))) data = drop (Z.to_nat (- n)) data.
Proof.
  intros Hn. unfold recent_window, py_slice_from.
  replace (Z.min n (Z.of_nat (length data))) with n by lia.
  destruct (Z.ltb_spec (- n) 0) as [Hneg | _]; [lia |].
  destruct (Z.min_spec (- n) (Z.of_nat (length data))) as [[_ ->] | [Hge ->]];
    [reflexivity |].
  rewrite Nat2Z.id, drop_all. symmetry. apply drop_ge. lia.
Qed.

Lemma recent_window_negative_size_witness :
  recent_window (Z.min (-2) 5) ["t0"; "t1"; "t2"; "t3"; "t4"] = ["t2"; "t3"; "t4"].
Proof.
  apply (recent_window_negative_size (-2) ["t0"; "t1"; "t2"; "t3"; "t4"]). lia.
Defined.

(** * Further properties of the threshold form *)

Lemma config_set_max_temps_no_section key q qs i config :
  config !! ("alarm" +:+ key) = None ->
  config_set_max_temps key i (q :: qs) config = Raise NoSectionError.
Proof. intros H. simpl. unfold config_set. rewrite H. reflexivity. Qed.

(** X12.  When all the fields of a device parse but the configuration has
    no section [alarm<key>], the thresholds of the device in memory are
    replaced all the same, [NoSectionError] leaves the function, the
    configuration is unchanged and the devices after it in the form are
    not processed. *)
Theorem update_max_temps_missing_section key entries rest f q qs :
  float_entries entries = Ok (q :: qs) ->
  form_config f !! ("alarm" +:+ key) = None ->
  update_max_temps ((key, entries) :: rest) f =
  (Raise NoSectionError,
   {| form_max_temps := <[key := q :: qs]> (form_max_temps f);
      form_config := form_config f |}).
Proof.
  intros Hparse Hsec. simpl. rewrite Hparse.
  cbn [form_config].
  rewrite (config_set_max_temps_no_section key q qs 0 (form_config f) Hsec).
  reflexivity.
Qed.

Lemma update_max_temps_missing_section_witness :
  update_max_temps [("a", [Some 60%Q]); ("b", [Some 70%Q])]
    {| form_max_temps := {["a" := [50%Q]; "b" := [50%Q]]};
       form_config := {["alarmb" := ∅]} |}
  = (Raise NoSectionError,
     {| form_max_temps := <["a" := [60%Q]]> {["a" := [50%Q]; "b" := [50%Q]]};
        form_config := {["alarmb" := ∅]} |}).
Proof.
  exact (update_max_temps_missing_section "a" [Some 60%Q] [("b", [Some 70%Q])]
           {| form_max_temps := {["a" := [50%Q]; "b" := [50%Q]]};
              form_config := {["alarmb" := ∅]} |} 60%Q [] eq_refl eq_refl).
Defined.

Lemma config_set_max_temps_other_section key qs section :
  section <> "alarm" +:+ key ->
  forall i config config',
    config_set_max_temps key i qs config = Ok config' ->
    config' !! section = config !! section.
Proof.
  intros Hne. induction qs as [|q qs IH]; intros i config config' H; simpl in H.
  - congruence.
  - unfold config_set in H.
    destruct (config !! ("alarm" +:+ key)) as [opts|]; simpl in H; [| discriminate].
    rewrite (IH _ _ _ H). apply lookup_insert_ne. congruence.
Qed.

(** X13.  [update_max_temps] writes only into the sections [alarm<key>]
    of the devices of the form: every other section of the configuration,
    among them the sections named by the device ids from which [getConfig]
    reads the thresholds, is left as it was. *)
Theorem update_max_temps_writes_alarm_sections_only items section :
  (forall k, k ∈ map fst items -> section <> "alarm" +:+ k) ->
  forall f,
    form_config (snd (update_max_temps items f)) !! section
    = form_config f !! section.
Proof.
  induction items as [|[k e] items IH]; intros Hsec f; simpl; [reflexivity |].
  assert (Hk : section <> "alarm" +:+ k) by (apply Hsec; left).
  assert (Hrest : forall k', k' ∈ map fst items -> section <> "alarm" +:+ k').
  { intros k' Hin. apply Hsec. right. exact Hin. }
  destruct (float_entries e) as [qs|[]]; simpl; try reflexivity;
    try (apply IH; exact Hrest).
  destruct (config_set_max_temps k 0 qs (form_config f)) as [c|err] eqn:Hset;
    simpl in *.
  - rewrite (IH Hrest). simpl.
    apply (config_set_max_temps_other_section k qs section Hk 0 _ _ Hset).
  - destruct err; try reflexivity. rewrite (IH Hrest). reflexivity.
Qed.

Lemma update_max_temps_writes_alarm_sections_only_witness :
  form_config
    (snd (update_max_temps [("a", [Some 60%Q])]
            {| form_max_temps := {["a" := [50%Q]]};
               form_config := {["a" := {["max_temp_0" := 50%Q]}; "alarma" := ∅]} |}))
    !! "a"
  = Some {["max_temp_0" := 50%Q]}.
Proof.
  refine (update_max_temps_writes_alarm_sections_only [("a", [Some 60%Q])] "a" _
            {| form_max_temps := {["a" := [50%Q]]};
               form_config := {["a" := {["max_temp_0" := 50%Q]}; "alarma" := ∅]} |}).
  intros k Hin. apply list_elem_of_In in Hin. destruct Hin as [<- | []].
  discriminate.
Defined.

(** * Further properties of the calibration *)

Lemma sort_points_sorted tbl :
  strictly_increasing tbl = true -> sort_points tbl = tbl.
Proof.
  induction tbl as [|p tbl IH]; intros H; [reflexivity |].
  simpl in H. unfold sort_points. simpl. fold (sort_points tbl).
  destruct tbl as [|q tbl]; [reflexivity |].
  simpl in H. apply andb_true_iff in H as [Hlt Hinc].
  rewrite IH by exact Hinc. simpl.
  apply Qlt_bool_true in Hlt.
  assert (Hle : Qle_bool (fst p) (fst q) = true).
  { apply Qle_bool_iff. apply Qlt_le_weak. exact Hlt. }
  rewrite Hle. reflexivity.
Qed.

(** X14.  For a datasheet with at least one row whose resistances, read
    from the last row to the first, increase strictly, [getThermistorData]
    installs the rows in that reversed order, and the interpolator then
    gives back, for the resistance of every row, the temperature of that
    row. *)
Theorem getThermistorData_reproduces_the_datasheet rows self0 :
  rows <> [] ->
  strictly_increasing (reverse rows) = true ->
  temp_interpolate_50k
    (fst (getThermistorData (Ok rows) (set_temp_interpolate_50k None self0)))
  = Some (reverse rows) /\
  forall x y, In (x, y) rows ->
    exists t,
      call_interpolator
        (temp_interpolate_50k
           (fst (getThermistorData (Ok rows) (set_temp_interpolate_50k None self0))))
        x = Ok t /\ (t == y)%Q.
Proof.
  intros Hne Hinc.
  assert (Htbl : temp_interpolate_50k
                   (fst (getThermistorData (Ok rows)
                           (set_temp_interpolate_50k None self0)))
                 = Some (reverse rows)).
  { rewrite getThermistorData_cases. destruct rows as [|row rows]; [congruence |].
    simpl. rewrite (sort_points_sorted _ Hinc). reflexivity. }
  split; [exact Htbl |].
  intros x y Hin. rewrite Htbl. simpl.
  apply (interp_call_exact (reverse rows) x y x Hinc); [| reflexivity].
  apply list_elem_of_In. apply elem_of_reverse. apply list_elem_of_In. exact Hin.
Qed.

Lemma getThermistorData_reproduces_the_datasheet_witness :
  exists t,
    call_interpolator
      (temp_interpolate_50k
         (fst (getThermistorData (Ok demo_datasheet)
                 (set_temp_interpolate_50k None (demo_config 2.5)))))
      10000 = Ok t /\ (t == 25)%Q.
Proof.
  refine (proj2 (getThermistorData_reproduces_the_datasheet demo_datasheet
                   (demo_config 2.5) _ _) 10000%Q 25%Q _).
  - discriminate.
  - reflexivity.
  - right. left. reflexivity.
Defined.

(** * Further properties of the acquisition cycle *)

Lemma hstack_Ok a column b :
  hstack a column = Ok b ->
  length a = length column /\ b = zip_with (fun row x => row ++ [x]) a column.
Proof.
  unfold hstack. destruct (decide (length a = length column)); [| discriminate].
  intros [= <-]. split; [assumption | reflexivity].
Qed.

Lemma stacked_intro rows column :
  length rows = length column ->
  stacked (Some rows) (Some (zip_with (fun row x => row ++ [x]) rows column)).
Proof. intros H. exists rows, column. repeat split; assumption. Qed.

(** One device in one cycle: the time stamps are left alone; each of its
    two arrays is either left alone or gets one column; when the device is
    processed without exception both get one. *)
Lemma update_data_device_effect env self voltages k s :
  time_data (snd (update_data_device env self voltages k s)) = time_data s /\
  (temp_data (snd (update_data_device env self voltages k s)) !! k = temp_data s !! k
   \/ stacked (temp_data s !! k)
              (temp_data (snd (update_data_device env self voltages k s)) !! k)) /\
  (voltage_data (snd (update_data_device env self voltages k s)) !! k
     = voltage_data s !! k
   \/ stacked (voltage_data s !! k)
              (voltage_data (snd (update_data_device env self voltages k s)) !! k)) /\
  (fst (update_data_device env self voltages k s) = Ok tt ->
   stacked (temp_data s !! k)
           (temp_data (snd (update_data_device env self voltages k s)) !! k) /\
   stacked (voltage_data s !! k)
           (voltage_data (snd (update_data_device env self voltages k s)) !! k)).
Proof.
  split.
  { apply (update_data_device_keeps time_data); reflexivity. }
  unfold update_data_device, mbind, M_bind, lift, get_state, modify, dict_get.
  destruct (voltages !! k) as [vs|]; simpl; [| split; [left | split; [left |]]; easy].
  destruct (processVoltage self vs k) as [[temp resistance]|e]; simpl;
    [| split; [left | split; [left |]]; easy].
  destruct (temp_data s !! k) as [old_t|] eqn:Hot; simpl;
    [| rewrite Hot; split; [left | split; [left |]]; easy].
  destruct (hstack old_t temp) as [new_t|e] eqn:Hst; simpl;
    [| rewrite Hot; split; [left | split; [left |]]; easy].
  apply hstack_Ok in Hst as [Hlen_t ->].
  pose proof (stacked_intro old_t temp Hlen_t) as Hstacked_t.
  destruct (voltage_data s !! k) as [old_v|] eqn:Hov; simpl;
    [| rewrite lookup_insert_eq, Hov; split; [right | split; [left |]]; easy].
  destruct (hstack old_v (map fst vs)) as [new_v|e] eqn:Hsv; simpl;
    [| rewrite lookup_insert_eq, Hov; split; [right | split; [left |]]; easy].
  apply hstack_Ok in Hsv as [Hlen_v ->].
  pose proof (stacked_intro old_v (map fst vs) Hlen_v) as Hstacked_v.
  destruct (log_log env k temp) as [e|]; simpl.
  { rewrite !lookup_insert_eq. split; [right | split; [right |]]; easy. }
  match goal with
  | |- context [check_alarms self temp k ?s3] =>
      pose proof (check_alarms_from_keeps temp_data self k temp
                    ltac:(reflexivity) ltac:(reflexivity) 0%nat s3) as Ht;
      pose proof (check_alarms_from_keeps voltage_data self k temp
                    ltac:(reflexivity) ltac:(reflexivity) 0%nat s3) as Hv;
      fold (check_alarms self temp k) in Ht, Hv;
      destruct (check_alarms self temp k s3) as [r s4]
  end.
  simpl in Ht, Hv. simpl.
  destruct r as [[]|e]; simpl; rewrite Ht, Hv; simpl; rewrite !lookup_insert_eq;
    (split; [right; assumption | split; [right; assumption |]]);
    [intros _; split; assumption | discriminate].
Qed.

Lemma device_view_arrays key s s' :
  device_view key s' = device_view key s ->
  temp_data s' !! key = temp_data s !! key /\
  voltage_data s' !! key = voltage_data s !! key.
Proof. unfold device_view. intros H. injection H as H1 H2 _ _ _. split; assumption. Qed.

(** The loop over the devices leaves the devices it does not visit alone. *)
Lemma devices_loop_untouched env self voltages key keys :
  key ∉ keys ->
  forall s,
    device_view key (snd (for_each keys (update_data_device env self voltages) s))
    = device_view key s.
Proof.
  induction keys as [|k keys IH]; intros Hnot s; [reflexivity |].
  apply not_elem_of_cons in Hnot as [Hne Hnot].
  simpl. unfold mbind, M_bind.
  pose proof (update_data_device_keeps_other env self voltages key k
                ltac:(congruence) s) as Hk.
  destruct (update_data_device env self voltages k s) as [[[]|e] s1]; simpl in *.
  - rewrite (IH Hnot s1). exact Hk.
  - exact Hk.
Qed.

(** Over devices that are all different, the loop gives each array at most
    one column, and exactly one to the arrays of every device of the loop
    when it ends without exception. *)
Lemma devices_loop_effect env self voltages keys :
  NoDup keys ->
  forall s key,
    (same_or_stacked (temp_data s !! key)
       (temp_data (snd (for_each keys (update_data_device env self voltages) s)) !! key) /\
     same_or_stacked (voltage_data s !! key)
       (voltage_data (snd (for_each keys (update_data_device env self voltages) s)) !! key)) /\
    (fst (for_each keys (update_data_device env self voltages) s) = Ok tt ->
     key ∈ keys ->
     stacked (temp_data s !! key)
       (temp_data (snd (for_each keys (update_data_device env self voltages) s)) !! key) /\
     stacked (voltage_data s !! key)
       (voltage_data (snd (for_each keys (update_data_device env self voltages) s)) !! key)).
Proof.
  induction 1 as [|k keys Hfresh Hnd IH]; intros s key.
  - simpl. split; [split; left; reflexivity |]. intros _ Hin. inversion Hin.
  - simpl. unfold mbind, M_bind.
    destruct (update_data_device_effect env self voltages k s)
      as (_ & Ht & Hv & Hok).
    pose proof (fun Hne => device_view_arrays key _ _
                  (update_data_device_keeps_other env self voltages key k Hne s))
      as Hother.
    destruct (update_data_device env self voltages k s) as [[[]|e] s1]; simpl in *.
    + destruct (decide (k = key)) as [-> | Hne].
      * destruct (device_view_arrays key _ _
                    (devices_loop_untouched env self voltages key keys Hfresh s1))
          as [Et Ev].
        rewrite Et, Ev. destruct (Hok eq_refl) as [Hst Hsv].
        split; [split; right; assumption | intros _ _; split; assumption].
      * destruct (Hother Hne) as [Et Ev].
        destruct (IH s1 key) as [[Hat Hav] Hsucc].
        rewrite Et, Ev in *.
        split; [split; assumption |].
        intros Hr Hin. apply elem_of_cons in Hin as [-> | Hin]; [congruence |].
        apply Hsucc; assumption.
    + split; [| discriminate].
      destruct (decide (k = key)) as [-> | Hne].
      * split; [destruct Ht as [Ht | Ht] | destruct Hv as [Hv | Hv]];
          first [left; assumption | right; assumption].
      * destruct (Hother Hne) as [Et Ev]. split; left; assumption.
Qed.

Lemma update_data_arrays env self s :
  time_data (snd (update_data env self s)) = time_data (snd (update_data_try env self s)) /\
  temp_data (snd (update_data env self s)) = temp_data (snd (update_data_try env self s)) /\
  voltage_data (snd (update_data env self s))
  = voltage_data (snd (update_data_try env self s)).
Proof.
  rewrite update_data_unfold.
  destruct (update_data_try env self s) as [[[]|e] s1]; repeat split; reflexivity.
Qed.

Lemma update_data_try_read_failed env self s e :
  ljs_read env = Raise e -> update_data_try env self s = (Raise e, s).
Proof.
  intros H. unfold update_data_try, mbind, M_bind, lift. rewrite H. reflexivity.
Qed.

(** The body of a cycle whose read returned: one time stamp more, at most
    one column more for each array, and exactly one for the arrays of the
    devices when the body ends without exception. *)
Lemma update_data_try_effect env self s voltages :
  NoDup (ljsID self) ->
  ljs_read env = Ok voltages ->
  time_data (snd (update_data_try env self s)) = time_data s ++ [now env] /\
  forall key,
    (same_or_stacked (temp_data s !! key)
       (temp_data (snd (update_data_try env self s)) !! key) /\
     same_or_stacked (voltage_data s !! key)
       (voltage_data (snd (update_data_try env self s)) !! key)) /\
    (fst (update_data_try env self s) = Ok tt ->
     key ∈ ljsID self ->
     stacked (temp_data s !! key)
       (temp_data (snd (update_data_try env self s)) !! key) /\
     stacked (voltage_data s !! key)
       (voltage_data (snd (update_data_try env self s)) !! key)).
Proof.
  intros Hnd Hread.
  set (s1 := set_time_data (time_data s ++ [now env]) s).
  set (body := update_data_device env self voltages).
  assert (Htry : update_data_try env self s =
                 match for_each (ljsID self) body s1 with
                 | (Ok _, s2) => update_plot self s2
                 | (Raise e, s2) => (Raise e, s2)
                 end).
  { unfold update_data_try, mbind, M_bind, lift, modify. rewrite Hread.
    fold s1. fold body. destruct (for_each (ljsID self) body s1) as [[[]|e] s2];
      reflexivity. }
  assert (Htime : time_data (snd (for_each (ljsID self) body s1)) = time_data s1).
  { apply (keeps_for_each time_data). intros k.
    apply update_data_device_keeps; reflexivity. }
  pose proof (devices_loop_effect env self voltages (ljsID self) Hnd s1) as Hloop.
  fold body in Hloop. rewrite Htry.
  destruct (for_each (ljsID self) body s1) as [[[]|e] s2]; simpl in *.
  - pose proof (update_plot_keeps time_data self ltac:(reflexivity) s2) as Pt.
    pose proof (update_plot_keeps temp_data self ltac:(reflexivity) s2) as Pd.
    pose proof (update_plot_keeps voltage_data self ltac:(reflexivity) s2) as Pv.
    rewrite Pt, Pd, Pv. split; [exact Htime |].
    intros key. destruct (Hloop key) as [Hsame Hok].
    split; [exact Hsame |]. intros _ Hin. apply Hok; [reflexivity | exact Hin].
  - split; [exact Htime |].
    intros key. destruct (Hloop key) as [Hsame _].
    split; [exact Hsame | discriminate].
Qed.

Lemma stacked_in_step a b n :
  stacked a b ->
  (forall rows, a = Some rows -> Forall (fun row => length row = n) rows) ->
  forall rows', b = Some rows' -> Forall (fun row => length row = S n) rows'.
Proof.
  intros (rows & column & -> & Hlen & ->) Ha rows' [= <-].
  specialize (Ha rows eq_refl). clear Hlen.
  revert column. induction Ha as [|row rows Hrow _ IH]; intros [|x column]; simpl;
    try constructor.
  - rewrite length_app. simpl. lia.
  - apply IH.
Qed.

(** X15.  When the devices of the window are all different and every
    array belongs to one of them, a cycle that runs without exception keeps
    the arrays in step with the time stamps: it appends one time stamp and
    one value to every row of [temp_data] and [voltage_data]. *)
Theorem update_data_keeps_arrays_in_step env self s :
  NoDup (ljsID self) ->
  (forall key, is_Some (temp_data s !! key) \/ is_Some (voltage_data s !! key) ->
               key ∈ ljsID self) ->
  synchronised s ->
  fst (update_data_try env self s) = Ok tt ->
  time_data (snd (update_data env self s)) = time_data s ++ [now env] /\
  synchronised (snd (update_data env self s)).
Proof.
  intros Hnd Hkeys [Hst Hsv] Hok.
  destruct (update_data_arrays env self s) as (Et & Ed & Ev).
  destruct (ljs_read env) as [voltages|e] eqn:Hread.
  2:{ rewrite (update_data_try_read_failed env self s e Hread) in Hok. discriminate. }
  destruct (update_data_try_effect env self s voltages Hnd Hread) as [Htime Heff].
  assert (Hlen : length (time_data s ++ [now env]) = S (length (time_data s))).
  { rewrite length_app. simpl. lia. }
  split; [rewrite Et; exact Htime |].
  unfold synchronised. rewrite Et, Ed, Ev, Htime, Hlen.
  split; intros key rows' Hrows'.
  - destruct (Heff key) as [[Hsame _] Hstack].
    assert (Hin : key ∈ ljsID self).
    { apply Hkeys. left. destruct Hsame as [E | (rows & c & E & _)];
        [rewrite <- E, Hrows' | rewrite E]; eauto. }
    destruct (Hstack Hok Hin) as [Hs _].
    apply (stacked_in_step _ _ _ Hs (Hst key) rows' Hrows').
  - destruct (Heff key) as [[_ Hsame] Hstack].
    assert (Hin : key ∈ ljsID self).
    { apply Hkeys. right. destruct Hsame as [E | (rows & c & E & _)];
        [rewrite <- E, Hrows' | rewrite E]; eauto. }
    destruct (Hstack Hok Hin) as [_ Hs].
    apply (stacked_in_step _ _ _ Hs (Hsv key) rows' Hrows').
Qed.

Lemma update_data_keeps_arrays_in_step_witness :
  synchronised
    (snd (update_data (demo_env [(1250%Q, 0); (2250%Q, 1)]) (demo_config 2.5)
            demo_state)).
Proof.
  refine (proj2 (update_data_keeps_arrays_in_step
                   (demo_env [(1250%Q, 0); (2250%Q, 1)]) (demo_config 2.5) demo_state
                   _ _ _ _)).
  - repeat constructor. intros H. inversion H.
  - intros key H. simpl.
    destruct (decide (key = demo_key)) as [-> | Hne]; [left |].
    exfalso. unfold demo_state in H. simpl in H.
    rewrite !lookup_singleton_ne in H by congruence.
    destruct H as [[x H] | [x H]]; discriminate.
  - split; intros key rows H; unfold demo_state in H; simpl in H;
      apply lookup_singleton_Some in H as [_ <-]; repeat constructor.
  - vm_compute. reflexivity.
Defined.

Lemma row_behind_after key i s s' :
  row_behind key i s ->
  same_or_stacked (temp_data s !! key) (temp_data s' !! key) ->
  (length (time_data s') = length (time_data s)
   /\ temp_data s' !! key = temp_data s !! key
   \/ length (time_data s') = S (length (time_data s))) ->
  row_behind key i s'.
Proof.
  intros (rows & row & Hrows & Hrow & Hlt) Hsame Htime.
  destruct Htime as [[Htime Heq] | Htime].
  { exists rows, row. rewrite Heq, Htime. repeat split; assumption. }
  destruct Hsame as [Heq | (rows0 & column & E & Hlen & Hnew)].
  - exists rows, row. rewrite Heq, Htime. repeat split; try assumption. lia.
  - rewrite Hrows in E. injection E as <-.
    destruct (lookup_lt_is_Some_2 column i) as [x Hx].
    { rewrite <- Hlen. eapply lookup_lt_Some. exact Hrow. }
    exists (zip_with (fun row x => row ++ [x]) rows column), (row ++ [x]).
    split; [exact Hnew |]. split.
    + rewrite lookup_zip_with, Hrow. simpl. rewrite Hx. reflexivity.
    + rewrite length_app, Htime. simpl. lia.
Qed.

Lemma update_data_stays_behind env self s key i :
  NoDup (ljsID self) ->
  row_behind key i s ->
  row_behind key i (snd (update_data env self s)).
Proof.
  intros Hnd Hbehind.
  destruct (update_data_arrays env self s) as (Et & Ed & _).
  apply (row_behind_after key i s _ Hbehind); rewrite ?Et, ?Ed.
  - destruct (ljs_read env) as [voltages|e] eqn:Hread.
    + destruct (update_data_try_effect env self s voltages Hnd Hread) as [_ Heff].
      apply Heff.
    + rewrite (update_data_try_read_failed env self s e Hread). left. reflexivity.
  - destruct (ljs_read env) as [voltages|e] eqn:Hread.
    + destruct (update_data_try_effect env self s voltages Hnd Hread) as [Htime _].
      right. rewrite Htime, length_app. simpl. lia.
    + rewrite (update_data_try_read_failed env self s e Hread). left.
      split; reflexivity.
Qed.

Lemma mainloop_never_catches_up_aux self envs key i :
  NoDup (ljsID self) ->
  forall s n,
    row_behind key i s ->
    row_behind key i (fst (mainloop self envs s n)).
Proof.
  intros Hnd. induction envs as [|env envs IH]; intros s n Hbehind; simpl;
    [exact Hbehind |].
  destruct (pending s) as [|ms later]; [exact Hbehind |].
  apply IH. apply update_data_stays_behind; [exact Hnd |].
  destruct Hbehind as (rows & row & H1 & H2 & H3).
  exists rows, row. repeat split; assumption.
Qed.

(** X16.  Once a row of [temp_data] has fewer values than there are time
    stamps, it stays so through every further cycle, whatever the cycles
    read, convert or raise: a cycle adds a time stamp whenever it adds a
    value. *)
Theorem mainloop_never_catches_up self envs key i :
  NoDup (ljsID self) ->
  forall s n,
    row_behind key i s ->
    row_behind key i (fst (mainloop self envs s n)).
Proof.
  apply mainloop_never_catches_up_aux.
Qed.

Lemma mainloop_never_catches_up_witness :
  row_behind demo_key 0
    (fst (mainloop (demo_config 2.5)
            [demo_env [(1250%Q, 0); (2250%Q, 1)]; demo_env [(1250%Q, 0); (2250%Q, 1)]]
            (set_pending [1000] (set_time_data ["2024-07-01 11:59:59"] demo_state)) 0)).
Proof.
  apply (mainloop_never_catches_up (demo_config 2.5)
           [demo_env [(1250%Q, 0); (2250%Q, 1)]; demo_env [(1250%Q, 0); (2250%Q, 1)]]
           demo_key 0%nat).
  - repeat constructor. intros H. inversion H.
  - exists [[]; []], []. repeat split. simpl. lia.
Defined.

(** * Properties of save_data *)

Lemma df_setitem_Ok name values df df' :
  df_len df <> 0%nat ->
  df_setitem name values df = Ok df' ->
  length values = df_len df /\ df_len df' = df_len df /\ df_time df' = df_time df.
Proof.
  intros Hne. unfold df_setitem.
  destruct (decide (df_len df = 0%nat /\ (0 < length values)%nat)) as [[H0 _]|_];
    [congruence |].
  destruct (decide (length values = df_len df)) as [Hlen|]; [| discriminate].
  intros [= <-]. repeat split; assumption.
Qed.

Lemma df_setitem_mismatch name values df :
  df_len df <> 0%nat ->
  length values <> df_len df ->
  df_setitem name values df = Raise (ValueError ShapeMismatch).
Proof.
  intros Hne Hlen. unfold df_setitem.
  destruct (decide (df_len df = 0%nat /\ (0 < length values)%nat)) as [[H0 _]|_];
    [congruence |].
  destruct (decide (length values = df_len df)); [congruence | reflexivity].
Qed.

Lemma save_data_labels_len key temps voltages lbls :
  forall i df df',
    df_len df <> 0%nat ->
    save_data_labels key temps voltages i lbls df = Ok df' ->
    df_len df' = df_len df.
Proof.
  induction lbls as [|label rest IH]; intros i df df' Hne H; simpl in H.
  - congruence.
  - apply bind_Ok_inv in H as (t & _ & H).
    apply bind_Ok_inv in H as (df1 & H1 & H).
    apply bind_Ok_inv in H as (v & _ & H).
    apply bind_Ok_inv in H as (df2 & H2 & H).
    apply df_setitem_Ok in H1 as (_ & E1 & _); [| exact Hne].
    apply df_setitem_Ok in H2 as (_ & E2 & _); [| lia].
    assert (Hd2 : df_len df2 <> 0%nat) by lia.
    rewrite (IH _ _ _ Hd2 H). lia.
Qed.

Lemma save_data_labels_mismatch key temps voltages lbls :
  forall i j df label row,
    df_len df <> 0%nat ->
    lbls !! j = Some label ->
    temps !! (i + j)%nat = Some row ->
    length row <> df_len df ->
    is_raise (save_data_labels key temps voltages i lbls df).
Proof.
  induction lbls as [|label0 rest IH]; intros i j df label row Hne Hl Hrow Hlen;
    [discriminate |].
  cbn [save_data_labels]. destruct j as [|j].
  - rewrite Nat.add_0_r in Hrow.
    rewrite (proj2 (list_get_Ok temps i row) Hrow). simpl.
    rewrite (df_setitem_mismatch _ row df Hne Hlen). exact I.
  - destruct (list_get temps i) as [t|]; simpl; [| exact I].
    destruct (df_setitem _ t df) as [df1|] eqn:H1; simpl; [| exact I].
    destruct (list_get voltages i) as [v|]; simpl; [| exact I].
    destruct (df_setitem _ v df1) as [df2|] eqn:H2; simpl; [| exact I].
    apply df_setitem_Ok in H1 as (_ & E1 & _); [| exact Hne].
    apply df_setitem_Ok in H2 as (_ & E2 & _); [| lia].
    apply (IH (S i) j df2 label row); try lia; try assumption.
    rewrite <- Hrow. f_equal. lia.
Qed.

Lemma save_data_devices_mismatch self s key i lbls temps row keys :
  key ∈ keys ->
  labels self !! key = Some lbls ->
  (i < length lbls)%nat ->
  temp_data s !! key = Some temps ->
  temps !! i = Some row ->
  forall df,
    df_len df <> 0%nat ->
    length row <> df_len df ->
    is_raise (save_data_devices self s keys df).
Proof.
  intros Hin Hlbls Hi Htemps Hrow.
  induction keys as [|k keys IH]; intros df Hne Hlen; [inversion Hin |].
  simpl.
  destruct (dict_get (temp_data s) k) as [temps'|] eqn:Ht; simpl; [| exact I].
  destruct (dict_get (voltage_data s) k) as [volts'|] eqn:Hv; simpl; [| exact I].
  destruct (dict_get (labels self) k) as [lbls'|] eqn:Hl; simpl; [| exact I].
  destruct (decide (k = key)) as [-> | Hne'].
  - apply dict_get_Ok in Ht. apply dict_get_Ok in Hl.
    assert (temps' = temps) as -> by congruence.
    assert (lbls' = lbls) as -> by congruence.
    destruct (lookup_lt_is_Some_2 lbls i Hi) as [label Hlabel].
    apply bind_Raise_l.
    apply (save_data_labels_mismatch key temps volts' lbls 0 i df label row);
      assumption.
  - destruct (save_data_labels k temps' volts' 0 lbls' df) as [df1|] eqn:H1; simpl;
      [| exact I].
    apply save_data_labels_len in H1; [| exact Hne].
    apply elem_of_cons in Hin as [-> | Hin]; [congruence |].
    apply IH; [exact Hin | lia | lia].
Qed.

Lemma save_data_fails_when_behind_aux senv self s key i lbls :
  key ∈ ljsID self ->
  labels self !! key = Some lbls ->
  (i < length lbls)%nat ->
  row_behind key i s ->
  fst (save_data senv self s) = None /\ is_Some (snd (save_data senv self s)).
Proof.
  intros Hin Hlbls Hi (rows & row & Hrows & Hrow & Hlt).
  pose proof (save_data_devices_mismatch self s key i lbls rows row (ljsID self)
                Hin Hlbls Hi Hrows Hrow (DataFrame_of_time (time_data s))) as H.
  simpl in H. specialize (H ltac:(lia) ltac:(lia)).
  unfold save_data.
  destruct (save_data_devices self s (ljsID self) (DataFrame_of_time (time_data s)));
    [destruct H |].
  split; [reflexivity | eauto].
Qed.

(** X17.  When a labelled channel of a device of the window has fewer
    values in [temp_data] than there are time stamps, [save_data] writes
    no file and shows an error: the assignment of the row to the table
    raises, at the latest, the [ValueError] of the length check. *)
Theorem save_data_fails_when_behind senv self s key i lbls :
  key ∈ ljsID self ->
  labels self !! key = Some lbls ->
  (i < length lbls)%nat ->
  row_behind key i s ->
  fst (save_data senv self s) = None /\ is_Some (snd (save_data senv self s)).
Proof.
  apply save_data_fails_when_behind_aux.
Qed.

Lemma save_data_fails_when_behind_witness :
  fst (save_data demo_save_env (demo_config 2.5)
         (set_time_data ["2024-07-01 11:59:59"] demo_state)) = None.
Proof.
  refine (proj1 (save_data_fails_when_behind demo_save_env (demo_config 2.5)
                   (set_time_data ["2024-07-01 11:59:59"] demo_state)
                   demo_key 0%nat ["inner"; "outer"] _ _ _ _)).
  - left.
  - reflexivity.
  - simpl. lia.
  - exists [[]; []], []. repeat split. simpl. lia.
Defined.

Lemma failed_conversion_leaves_row_behind env self s voltages key vs e i rows row :
  ljs_read env = Ok voltages ->
  key ∈ ljsID self ->
  voltages !! key = Some vs ->
  processVoltage self vs key = Raise e ->
  temp_data s !! key = Some rows ->
  rows !! i = Some row ->
  (length row <= length (time_data s))%nat ->
  row_behind key i (snd (update_data env self s)).
Proof.
  intros Hread Hin Hvs Hpv Hrows Hrow Hle.
  set (s1 := set_time_data (time_data s ++ [now env]) s).
  set (body := update_data_device env self voltages).
  assert (Hraise : forall s0, body key s0 = (Raise e, s0)).
  { intros s0. apply update_data_device_raises with (vs := vs); assumption. }
  destruct (for_each_raises (device_view key) body key e (ljsID self) Hin Hraise
              (fun k Hne => update_data_device_keeps_other env self voltages key k Hne)
              s1) as [[e' He'] Hview].
  assert (Htime : time_data (snd (for_each (ljsID self) body s1)) = time_data s1).
  { apply (keeps_for_each time_data). intros k.
    apply update_data_device_keeps; reflexivity. }
  assert (Htry : update_data_try env self s
                 = (Raise e', snd (for_each (ljsID self) body s1))).
  { unfold update_data_try, mbind, M_bind, lift, modify. rewrite Hread.
    fold s1. fold body.
    destruct (for_each (ljsID self) body s1) as [[[]|e0] s2]; simpl in *;
      congruence. }
  destruct (update_data_arrays env self s) as (Et & Ed & _).
  destruct (device_view_arrays key _ _ Hview) as [Hd _].
  exists rows, row. rewrite Et, Ed, Htry. simpl. rewrite Hd, Htime.
  split; [exact Hrows |]. split; [exact Hrow |].
  subst s1. simpl. rewrite length_app. simpl. lia.
Qed.

(** X18.  A cycle in which the conversion of a device fails puts the rows
    of that device one value behind the time stamps, and no later cycle
    makes up for it: from then on, whatever the later cycles do,
    [save_data] writes no file and shows an error, as soon as the device
    has a labelled channel. *)
Theorem failed_conversion_breaks_save_data
  env envs senv self s voltages key vs e i lbls rows row n :
  NoDup (ljsID self) ->
  ljs_read env = Ok voltages ->
  key ∈ ljsID self ->
  voltages !! key = Some vs ->
  processVoltage self vs key = Raise e ->
  labels self !! key = Some lbls ->
  (i < length lbls)%nat ->
  temp_data s !! key = Some rows ->
  rows !! i = Some row ->
  (length row <= length (time_data s))%nat ->
  fst (save_data senv self
         (fst (mainloop self envs (snd (update_data env self s)) n))) = None /\
  is_Some (snd (save_data senv self
                  (fst (mainloop self envs (snd (update_data env self s)) n)))).
Proof.
  intros Hnd Hread Hin Hvs Hpv Hlbls Hi Hrows Hrow Hle.
  apply (save_data_fails_when_behind_aux senv self _ key i lbls Hin Hlbls Hi).
  apply mainloop_never_catches_up_aux; [exact Hnd |].
  apply (failed_conversion_leaves_row_behind env self s voltages key vs e i rows row);
    assumption.
Qed.

Lemma failed_conversion_breaks_save_data_witness :
  fst (save_data demo_save_env (demo_config 2.5)
         (fst (mainloop (demo_config 2.5)
                 [demo_env [(1250%Q, 0); (2250%Q, 1)]]
                 (snd (update_data (demo_env [(2500%Q, 0); (2250%Q, 1)])
                         (demo_config 2.5) demo_state)) 0))) = None.
Proof.
  refine (proj1 (failed_conversion_breaks_save_data
                   (demo_env [(2500%Q, 0); (2250%Q, 1)])
                   [demo_env [(1250%Q, 0); (2250%Q, 1)]] demo_save_env
                   (demo_config 2.5) demo_state
                   {[demo_key := [(2500%Q, 0); (2250%Q, 1)]]} demo_key
                   [(2500%Q, 0); (2250%Q, 1)] ZeroDivisionError 0%nat
                   ["inner"; "outer"] [[]; []] [] 0%nat _ _ _ _ _ _ _ _ _ _)).
  - repeat constructor. intros H. inversion H.
  - reflexivity.
  - left.
  - reflexivity.
  - reflexivity.
  - reflexivity.
  - simpl. lia.
  - reflexivity.
  - reflexivity.
  - simpl. lia.
Defined.

Lemma set_column_lengths name values columns n :
  length values = n ->
  Forall (fun c => length (snd c) = n) columns ->
  Forall (fun c : string * list (option Q) => length (snd c) = n)
         (set_column name values columns).
Proof.
  intros Hv. induction 1 as [|[c v] columns Hc Hrest IH]; simpl.
  - repeat constructor. exact Hv.
  - destruct (decide (c = name)); constructor; assumption.
Qed.

Lemma set_column_has name values columns :
  name ∈ map fst (set_column name values columns).
Proof.
  induction columns as [|[c v] columns IH]; simpl; [left |].
  destruct (decide (c = name)) as [-> | _]; simpl; [left | right; exact IH].
Qed.

Lemma set_column_keeps name values columns other :
  other ∈ map fst columns -> other ∈ map fst (set_column name values columns).
Proof.
  induction columns as [|[c v] columns IH]; simpl; intros Hin; [inversion Hin |].
  destruct (decide (c = name)) as [-> | _]; simpl; [exact Hin |].
  apply elem_of_cons in Hin as [-> | Hin]; [left | right; apply IH; exact Hin].
Qed.

Lemma df_setitem_in_step name values df :
  df_well_formed df ->
  length values = df_len df ->
  exists df',
    df_setitem name values df = Ok df' /\
    df_well_formed df' /\ df_len df' = df_len df /\ df_time df' = df_time df /\
    name ∈ map fst (df_columns df') /\
    (forall other, other ∈ map fst (df_columns df) ->
                   other ∈ map fst (df_columns df')).
Proof.
  intros [Ht Hc] Hlen. unfold df_setitem.
  destruct (decide (df_len df = 0%nat /\ (0 < length values)%nat)) as [[H0 Hp]|_];
    [lia |].
  destruct (decide (length values = df_len df)); [| contradiction].
  eexists. split; [reflexivity |]. simpl.
  split; [split; [exact Ht |] |].
  - apply set_column_lengths; [rewrite length_map; exact Hlen | exact Hc].
  - repeat split; [apply set_column_has | intros other; apply set_column_keeps].
Qed.

Lemma save_data_labels_in_step key temps voltages n lbls :
  Forall (fun row => length row = n) temps ->
  Forall (fun row => length row = n) voltages ->
  forall i df,
    (i + length lbls <= length temps)%nat ->
    (i + length lbls <= length voltages)%nat ->
    df_well_formed df -> df_len df = n ->
    exists df',
      save_data_labels key temps voltages i lbls df = Ok df' /\
      df_well_formed df' /\ df_len df' = n /\ df_time df' = df_time df /\
      (forall label, label ∈ lbls ->
         temp_column key label ∈ map fst (df_columns df') /\
         voltage_column key label ∈ map fst (df_columns df')) /\
      (forall other, other ∈ map fst (df_columns df) ->
                     other ∈ map fst (df_columns df')).
Proof.
  intros Hts Hvs. induction lbls as [|label rest IH]; intros i df Hit Hiv Hwf Hn.
  - exists df. split; [reflexivity |]. split; [exact Hwf |]. split; [exact Hn |].
    split; [reflexivity |]. split; [| tauto].
    intros label Hin. inversion Hin.
  - simpl in Hit, Hiv. cbn [save_data_labels].
    destruct (lookup_lt_is_Some_2 temps i) as [t Ht]; [lia |].
    destruct (lookup_lt_is_Some_2 voltages i) as [v Hv]; [lia |].
    rewrite (proj2 (list_get_Ok temps i t) Ht). simpl.
    assert (Hlt : length t = df_len df).
    { rewrite Hn. apply (proj1 (Forall_lookup _ temps) Hts i t Ht). }
    destruct (df_setitem_in_step (key +:+ "_" +:+ label +:+ "_Temp") t df Hwf Hlt)
      as (df1 & -> & Hwf1 & Hn1 & Ht1 & Hin1 & Hk1).
    simpl. rewrite (proj2 (list_get_Ok voltages i v) Hv). simpl.
    assert (Hlv : length v = df_len df1).
    { rewrite Hn1, Hn. apply (proj1 (Forall_lookup _ voltages) Hvs i v Hv). }
    destruct (df_setitem_in_step (key +:+ "_" +:+ label +:+ "_Voltage") v df1 Hwf1 Hlv)
      as (df2 & -> & Hwf2 & Hn2 & Ht2 & Hin2 & Hk2).
    simpl.
    destruct (IH (S i) df2) as (df' & Hrun & Hwf' & Hn' & Ht' & Hcols & Hk');
      try lia; try assumption.
    exists df'. split; [exact Hrun |]. split; [exact Hwf' |].
    split; [exact Hn' |]. split; [congruence |]. split.
    + intros l Hl. apply elem_of_cons in Hl as [-> | Hl]; [| apply Hcols; exact Hl].
      split; apply Hk'; [apply Hk2; exact Hin1 | exact Hin2].
    + intros other Ho. apply Hk', Hk2, Hk1, Ho.
Qed.

Lemma save_data_devices_in_step self s n keys :
  in_step (temp_data s) n ->
  in_step (voltage_data s) n ->
  (forall key, key ∈ keys ->
     exists temps volts lbls,
       temp_data s !! key = Some temps /\ voltage_data s !! key = Some volts /\
       labels self !! key = Some lbls /\
       (length lbls <= length temps)%nat /\ (length lbls <= length volts)%nat) ->
  forall df,
    df_well_formed df -> df_len df = n ->
    exists df',
      save_data_devices self s keys df = Ok df' /\
      df_well_formed df' /\ df_len df' = n /\ df_time df' = df_time df /\
      (forall key lbls label,
         key ∈ keys -> labels self !! key = Some lbls -> label ∈ lbls ->
         temp_column key label ∈ map fst (df_columns df') /\
         voltage_column key label ∈ map fst (df_columns df')) /\
      (forall other, other ∈ map fst (df_columns df) ->
                     other ∈ map fst (df_columns df')).
Proof.
  intros Hst Hsv. induction keys as [|k keys IH]; intros Hdev df Hwf Hn.
  - exists df. split; [reflexivity |]. split; [exact Hwf |]. split; [exact Hn |].
    split; [reflexivity |]. split; [| tauto].
    intros key lbls label Hin. inversion Hin.
  - destruct (Hdev k) as (temps & volts & lbls & Ht & Hv & Hl & Hlt & Hlv); [left |].
    cbn [save_data_devices]. unfold dict_get. rewrite Ht, Hv, Hl. simpl.
    destruct (save_data_labels_in_step k temps volts n lbls (Hst k temps Ht)
                (Hsv k volts Hv) 0%nat df) as (df1 & -> & Hwf1 & Hn1 & Ht1 & Hc1 & Hk1);
      try assumption; try (simpl; lia).
    simpl.
    destruct (IH (fun key Hin => Hdev key (list_elem_of_further _ _ _ Hin)) df1 Hwf1 Hn1)
      as (df' & Hrun & Hwf' & Hn' & Ht' & Hc' & Hk').
    exists df'. split; [exact Hrun |]. split; [exact Hwf' |]. split; [exact Hn' |].
    split; [congruence |]. split.
    + intros key lbls' label Hin Hl' Hlab.
      apply elem_of_cons in Hin as [-> | Hin].
      * assert (lbls' = lbls) as -> by congruence.
        destruct (Hc1 label Hlab) as [H1 H2]. split; apply Hk'; assumption.
      * apply (Hc' key lbls' label); assumption.
    + intros other Ho. apply Hk', Hk1, Ho.
Qed.

(** X19.  When the arrays are in step with the time stamps and every
    device of the window has its labels and at least as many rows as
    labels, [save_data] builds its table without exception: the table has
    one row per time stamp, the column [Time] holds the time stamps, every
    column is full, and every labelled channel has its temperature and its
    voltage column.  It is written when the file system accepts it, and
    the message shown is then that of [savefig]. *)
Theorem save_data_writes_full_table senv self s :
  synchronised s ->
  (forall key, key ∈ ljsID self ->
     exists temps volts lbls,
       temp_data s !! key = Some temps /\ voltage_data s !! key = Some volts /\
       labels self !! key = Some lbls /\
       (length lbls <= length temps)%nat /\ (length lbls <= length volts)%nat) ->
  to_csv senv = None ->
  exists df,
    save_data senv self s = (Some df, savefig senv) /\
    df_len df = length (time_data s) /\
    df_time df = map Some (time_data s) /\
    Forall (fun c => length (snd c) = length (time_data s)) (df_columns df) /\
    forall key lbls label,
      key ∈ ljsID self -> labels self !! key = Some lbls -> label ∈ lbls ->
      temp_column key label ∈ map fst (df_columns df) /\
      voltage_column key label ∈ map fst (df_columns df).
Proof.
  intros [Hst Hsv] Hdev Hcsv.
  destruct (save_data_devices_in_step self s (length (time_data s)) (ljsID self)
              Hst Hsv Hdev (DataFrame_of_time (time_data s)))
    as (df & Hrun & [_ Hcols] & Hn & Ht & Hc & _).
  { split; [simpl; apply length_map | constructor]. }
  { reflexivity. }
  exists df. unfold save_data. rewrite Hrun, Hcsv.
  split; [reflexivity |]. split; [exact Hn |]. split; [exact Ht |].
  split; [rewrite <- Hn; exact Hcols | exact Hc].
Qed.

Lemma save_data_writes_full_table_witness :
  exists df,
    save_data demo_save_env (demo_config 2.5) demo_state_one_cycle = (Some df, None) /\
    df_len df = 1%nat.
Proof.
  destruct (save_data_writes_full_table demo_save_env (demo_config 2.5)
              demo_state_one_cycle)
    as (df & Hsave & Hlen & _).
  - split; intros key rows H; simpl in H;
      apply lookup_singleton_Some in H as [_ <-]; repeat constructor.
  - intros key Hin. apply list_elem_of_In in Hin. destruct Hin as [<- | []].
    exists [[25]; [28]]%Q, [[1250]; [2250]]%Q, ["inner"; "outer"].
    repeat split; simpl; lia.
  - reflexivity.
  - exists df. split; [exact Hsave | exact Hlen].
Defined.

(** * Properties of getConfig *)

Lemma cbind_Got_inv {A B} (r : cresult A) (k : A -> cresult B) (b : B) :
  r ≫= k = Got b -> exists a, r = Got a /\ k a = Got b.
Proof. destruct r as [a|e]; simpl; [eauto | discriminate]. Qed.

Lemma of_result_Got {A} (r : result A) (a : A) : of_result r = Got a -> r = Ok a.
Proof. destruct r; simpl; congruence. Qed.

Lemma getConfig_channel_try_Got src key ch_number ch_addr e :
  getConfig_channel_try src key ch_number ch_addr = Got e ->
  entry_number e = ch_number /\
  config_get src key ch_addr = Got (entry_label e) /\
  (exists text, config_get src key ("max_temp_" +:+ str_nat ch_number) = Got text /\
                py_float src text = Ok (entry_max_temp e)) /\
  (exists text, config_get src key ("res_" +:+ ch_addr) = Got text /\
                py_float src text = Ok (entry_resistance e)) /\
  internal_getboolean src ("checkbox" +:+ key) ch_addr = Got (entry_ticked e).
Proof.
  unfold getConfig_channel_try. intros H.
  apply cbind_Got_inv in H as (label & Hl & H).
  apply cbind_Got_inv in H as (max_temp & Hm & H).
  apply cbind_Got_inv in H as (resistance & Hr & H).
  apply cbind_Got_inv in H as (ticked & Ht & H).
  apply cbind_Got_inv in H as (name & Hn & H).
  apply cbind_Got_inv in H as (mt & Hmt & H).
  apply cbind_Got_inv in H as (rs & Hrs & H).
  injection H as <-. simpl.
  apply of_result_Got in Hmt. apply of_result_Got in Hrs.
  repeat split; eauto.
Qed.

Lemma getConfig_channels_spec src key addrs :
  forall from acc entries,
    getConfig_channels src key from addrs acc = Got entries ->
    exists new, entries = acc ++ new /\ entries_of src key from addrs new.
Proof.
  induction addrs as [|ch_addr rest IH]; intros from acc entries H; simpl in *.
  - injection H as <-. exists []. rewrite app_nil_r. split; reflexivity.
  - destruct (getConfig_channel_try src key from ch_addr) as [e|[|err]];
      [| | discriminate].
    + apply IH in H as (new & -> & Hnew).
      exists (e :: new). rewrite <- app_assoc. split; [reflexivity | eauto].
    + apply IH in H as (new & -> & Hnew). exists new. split; [reflexivity | exact Hnew].
Qed.

(** The entries of a device come from channels of the device, in the
    order of the channel numbers, each from its own options. *)
Lemma entries_of_sound src key addrs :
  forall from entries,
    entries_of src key from addrs entries ->
    Forall (fun e =>
              (from <= entry_number e < from + length addrs)%nat /\
              exists addr, addrs !! (entry_number e - from)%nat = Some addr /\
                           getConfig_channel_try src key (entry_number e) addr = Got e)
           entries /\
    StronglySorted lt (map entry_number entries).
Proof.
  induction addrs as [|ch_addr rest IH]; intros from entries H; simpl in H.
  - subst entries. split; constructor.
  - assert (Hshift : forall es,
               Forall (fun e =>
                 (S from <= entry_number e < S from + length rest)%nat /\
                 exists addr, rest !! (entry_number e - S from)%nat = Some addr /\
                              getConfig_channel_try src key (entry_number e) addr = Got e)
                 es ->
               Forall (fun e =>
                 (from <= entry_number e < from + length (ch_addr :: rest))%nat /\
                 exists addr, (ch_addr :: rest) !! (entry_number e - from)%nat = Some addr /\
                              getConfig_channel_try src key (entry_number e) addr = Got e)
                 es).
    { intros es Hes. eapply Forall_impl; [exact Hes |].
      intros e [Hr (addr & Ha & Ht)]. simpl.
      split; [lia |]. exists addr. split; [| exact Ht].
      replace (entry_number e - from)%nat with (S (entry_number e - S from)) by lia.
      exact Ha. }
    destruct (getConfig_channel_try src key from ch_addr) as [e|[|err]] eqn:Htry;
      [| | destruct H].
    + destruct H as (entries' & -> & H). destruct (IH _ _ H) as [Hall Hsorted].
      pose proof (getConfig_channel_try_Got _ _ _ _ _ Htry) as [Hnum _].
      split.
      * constructor; [| apply Hshift; exact Hall].
        rewrite Hnum. simpl. split; [lia |].
        exists ch_addr. rewrite Nat.sub_diag. split; [reflexivity | exact Htry].
      * simpl. constructor; [exact Hsorted |].
        rewrite Hnum. apply (proj2 (Forall_map _ _ _)).
        eapply Forall_impl; [exact Hall |]. intros e' [Hr _]. simpl. lia.
    + destruct (IH _ _ H) as [Hall Hsorted]. split; [apply Hshift; exact Hall | exact Hsorted].
Qed.

(** A channel whose [try] block meets a missing option has no entry, and
    a channel whose [try] block returns has its entry. *)
Lemma entries_of_complete src key addrs :
  forall from entries j addr,
    entries_of src key from addrs entries ->
    addrs !! j = Some addr ->
    (getConfig_channel_try src key (from + j) addr = Fails NoOptionError ->
     (from + j)%nat ∉ map entry_number entries) /\
    (forall e, getConfig_channel_try src key (from + j) addr = Got e -> e ∈ entries).
Proof.
  induction addrs as [|ch_addr rest IH]; intros from entries j addr H Hj;
    [discriminate |].
  pose proof (entries_of_sound src key (ch_addr :: rest) from entries H) as [Hall _].
  simpl in H. destruct j as [|j].
  - injection Hj as ->. rewrite Nat.add_0_r.
    destruct (getConfig_channel_try src key from addr) as [e|[|err]] eqn:Htry;
      [| | destruct H].
    + destruct H as (entries' & -> & H). split; [discriminate |].
      intros e' [= <-]. left.
    + split; [| discriminate]. intros _ Hin.
      pose proof (entries_of_sound src key rest (S from) entries H) as [Hall' _].
      apply list_elem_of_fmap in Hin as (e & He & Hin).
      apply (proj1 (Forall_forall _ _) Hall') in Hin as [Hr _]. lia.
  - replace (from + S j)%nat with (S from + j)%nat by lia.
    destruct (getConfig_channel_try src key from ch_addr) as [e|[|err]] eqn:Htry;
      [| | destruct H].
    + destruct H as (entries' & -> & H).
      destruct (IH (S from) entries' j addr H Hj) as [Hno Hyes].
      pose proof (getConfig_channel_try_Got _ _ _ _ _ Htry) as [Hnum _].
      split.
      * intros Hf Hin. simpl in Hin. apply elem_of_cons in Hin as [Heq | Hin];
          [lia | exact (Hno Hf Hin)].
      * intros e' He'. right. apply Hyes. exact He'.
    + apply (IH (S from) entries j addr H Hj).
Qed.

Lemma set_device_entries key v entries self :
  device_entries (set_device key v entries self) key entries.
Proof. unfold device_entries. simpl. rewrite !lookup_insert_eq. repeat split. Qed.

Lemma set_device_other key v entries self k es :
  k <> key ->
  device_entries self k es ->
  device_entries (set_device key v entries self) k es.
Proof.
  intros Hne (H1 & H2 & H3 & H4 & H5). unfold device_entries. simpl.
  rewrite !lookup_insert_ne by congruence. repeat split; assumption.
Qed.

Lemma getConfig_device_spec src key st st' :
  getConfig_device src key st = Got st' ->
  exists addrs entries v,
    fst st' = set_device key v entries (fst st) /\
    configured_device src (fst st') key addrs entries.
Proof.
  unfold getConfig_device. intros H.
  apply cbind_Got_inv in H as (vin_text & Hvt & H).
  apply cbind_Got_inv in H as (v & Hv & H).
  apply cbind_Got_inv in H as (output_text & _ & H).
  apply cbind_Got_inv in H as (outputchannel & _ & H).
  apply cbind_Got_inv in H as ([] & _ & H).
  apply cbind_Got_inv in H as (addrs & Haddrs & H).
  apply cbind_Got_inv in H as (entries & Hentries & H).
  injection H as <-. simpl.
  apply of_result_Got in Hv. apply of_result_Got, dict_get_Ok in Haddrs.
  apply getConfig_channels_spec in Hentries as (new & -> & Hnew). simpl.
  exists addrs, new, v. split; [reflexivity |].
  split; [exact Haddrs |]. split; [exact Hnew |].
  split; [apply set_device_entries |].
  exists vin_text, v. simpl. rewrite lookup_insert_eq. repeat split; assumption.
Qed.

Lemma configured_device_other src self key v entries k addrs es :
  k <> key ->
  configured_device src self k addrs es ->
  configured_device src (set_device key v entries self) k addrs es.
Proof.
  intros Hne (Ha & He & Hd & text & v0 & Ht & Hf & Hv).
  split; [exact Ha |]. split; [exact He |].
  split; [apply set_device_other; assumption |].
  exists text, v0. simpl. rewrite lookup_insert_ne by congruence.
  repeat split; assumption.
Qed.

Lemma getConfig_devices_keep src keys :
  forall st st' k addrs es,
    getConfig_devices src keys st = Got st' ->
    k ∉ keys ->
    configured_device src (fst st) k addrs es ->
    configured_device src (fst st') k addrs es.
Proof.
  induction keys as [|key keys IH]; intros st st' k addrs es H Hnot Hc; simpl in H.
  - injection H as <-. exact Hc.
  - apply not_elem_of_cons in Hnot as [Hne Hnot].
    apply cbind_Got_inv in H as (st1 & Hdev & H).
    apply (IH st1 st' k addrs es H Hnot).
    apply getConfig_device_spec in Hdev as (addrs1 & es1 & v1 & -> & _).
    apply configured_device_other; assumption.
Qed.

Lemma getConfig_devices_spec src keys :
  forall st st' key,
    getConfig_devices src keys st = Got st' ->
    key ∈ keys ->
    exists addrs entries, configured_device src (fst st') key addrs entries.
Proof.
  induction keys as [|k keys IH]; intros st st' key H Hin; [inversion Hin |].
  simpl in H. apply cbind_Got_inv in H as (st1 & Hdev & H).
  destruct (decide (key ∈ keys)) as [Hlater | Hnot].
  - apply (IH st1 st' key H Hlater).
  - apply elem_of_cons in Hin as [-> | Hin]; [| contradiction].
    apply getConfig_device_spec in Hdev as (addrs & es & v & _ & Hc).
    exists addrs, es. apply (getConfig_devices_keep src keys st1 st' k addrs es H Hnot Hc).
Qed.

Lemma getConfig_spec src ids self folders key :
  getConfig src ids = Got (self, folders) ->
  key ∈ ids ->
  exists addrs entries, configured_device src self key addrs entries.
Proof.
  unfold getConfig. intros H Hin.
  apply cbind_Got_inv in H as (rate_text & _ & H).
  apply cbind_Got_inv in H as (rate & _ & H).
  apply cbind_Got_inv in H as (period & _ & H).
  apply cbind_Got_inv in H as (save & _ & H).
  apply cbind_Got_inv in H as (log & _ & H).
  apply cbind_Got_inv in H as (lmt & _ & H).
  apply cbind_Got_inv in H as (lm & _ & H).
  apply cbind_Got_inv in H as (st & Hdev & H).
  injection H as <- _.
  apply (getConfig_devices_spec src ids _ st key Hdev Hin).
Qed.

Lemma sorted_numbers_Z entries :
  StronglySorted lt (map entry_number entries) ->
  StronglySorted Z.lt (map (fun e => Z.of_nat (entry_number e)) entries).
Proof.
  induction entries as [|e entries IH]; simpl; intros H; [constructor |].
  apply StronglySorted_inv in H as [Hs Hall]. constructor; [apply IH; exact Hs |].
  apply (proj2 (Forall_map _ _ _)). apply (proj1 (Forall_map _ _ _)) in Hall.
  eapply Forall_impl; [exact Hall |]. intros e' He'. simpl in *. lia.
Qed.

(** X20.  When [getConfig] returns, the five lists of every device
    ([read_channels], [labels], [max_temps], [resistances],
    [plot_channel]) have the same length, and [read_channels] holds
    channel numbers of the device in strictly increasing order. *)
Theorem getConfig_lists_aligned src ids self folders key :
  getConfig src ids = Got (self, folders) ->
  key ∈ ids ->
  exists addrs chans lbls mts res flags,
    all_channels src !! key = Some addrs /\
    read_channels self !! key = Some chans /\
    labels self !! key = Some lbls /\
    max_temps self !! key = Some mts /\
    resistances self !! key = Some res /\
    plot_channel self !! key = Some flags /\
    length lbls = length chans /\ length mts = length chans /\
    length res = length chans /\ length flags = length chans /\
    StronglySorted Z.lt chans /\
    Forall (fun c => 0 <= c < Z.of_nat (length addrs)) chans.
Proof.
  intros H Hin.
  destruct (getConfig_spec src ids self folders key H Hin)
    as (addrs & es & Ha & He & (H1 & H2 & H3 & H4 & H5) & _).
  destruct (entries_of_sound src key addrs 0 es He) as [Hall Hsorted].
  eexists addrs, _, _, _, _, _.
  split; [exact Ha |]. split; [exact H1 |]. split; [exact H2 |].
  split; [exact H3 |]. split; [exact H4 |]. split; [exact H5 |].
  rewrite !length_map. repeat (split; [reflexivity |]).
  split; [apply sorted_numbers_Z; exact Hsorted |].
  apply (proj2 (Forall_map _ _ _)). eapply Forall_impl; [exact Hall |].
  intros e [Hr _]. simpl in *. lia.
Qed.

Lemma getConfig_lists_aligned_witness :
  exists self folders addrs chans lbls mts res flags,
    getConfig demo_sources [demo_key] = Got (self, folders) /\
    all_channels demo_sources !! demo_key = Some addrs /\
    read_channels self !! demo_key = Some chans /\
    labels self !! demo_key = Some lbls /\
    max_temps self !! demo_key = Some mts /\
    resistances self !! demo_key = Some res /\
    plot_channel self !! demo_key = Some flags /\
    length lbls = length chans /\ length mts = length chans /\
    length res = length chans /\ length flags = length chans /\
    StronglySorted Z.lt chans /\
    Forall (fun c => 0 <= c < Z.of_nat (length addrs)) chans.
Proof.
  assert (H : exists self folders, getConfig demo_sources [demo_key] = Got (self, folders)).
  { eexists _, _. vm_compute. reflexivity. }
  destruct H as (self & folders & H).
  destruct (getConfig_lists_aligned demo_sources [demo_key] self folders demo_key H)
    as (addrs & chans & lbls & mts & res & flags & Hrest); [left |].
  exists self, folders, addrs, chans, lbls, mts, res, flags.
  split; [exact H | exact Hrest].
Defined.

Lemma list_index_sorted entries :
  StronglySorted lt (map entry_number entries) ->
  forall p e,
    entries !! p = Some e ->
    list_index (Z.of_nat (entry_number e))
      (map (fun e => Z.of_nat (entry_number e)) entries) = Ok p.
Proof.
  induction entries as [|e0 entries IH]; intros Hs p e Hp; [discriminate |].
  apply StronglySorted_inv in Hs as [Hs Hall]. simpl.
  destruct p as [|p]; simpl in Hp.
  - injection Hp as ->. rewrite Z.eqb_refl. reflexivity.
  - assert (Hlt : (entry_number e0 < entry_number e)%nat).
    { apply (proj1 (Forall_forall _ _) Hall).
      apply list_elem_of_fmap. exists e. split; [reflexivity |].
      eapply list_elem_of_lookup_2. exact Hp. }
    destruct (Z.eqb_spec (Z.of_nat (entry_number e)) (Z.of_nat (entry_number e0)));
      [lia |].
    rewrite (IH Hs p e Hp). reflexivity.
Qed.

(** X21.  After [getConfig], a reading of a channel all of whose options
    are present is converted with the reference resistance of that
    channel, the float of its option [res_<address>]: the position that
    [processVoltage] finds for the channel number is the position of the
    channel's own resistance, label and threshold. *)
Theorem getConfig_gives_each_channel_its_resistance
  src ids self folders key addrs n addr e :
  getConfig src ids = Got (self, folders) ->
  key ∈ ids ->
  all_channels src !! key = Some addrs ->
  addrs !! n = Some addr ->
  getConfig_channel_try src key n addr = Got e ->
  (exists text, config_get src key ("res_" +:+ addr) = Got text /\
                py_float src text = Ok (entry_resistance e)) /\
  (exists chans lbls mts p,
     read_channels self !! key = Some chans /\
     labels self !! key = Some lbls /\ max_temps self !! key = Some mts /\
     list_index (Z.of_nat n) chans = Ok p /\
     lbls !! p = Some (entry_label e) /\ mts !! p = Some (entry_max_temp e)) /\
  forall f mV,
    processVoltage_body (set_temp_interpolate_50k f self) key (mV, Z.of_nat n)
    = (r ← py_div (entry_resistance e * (mV / 1000))%Q (2.5 - mV / 1000)%Q;
       t ← call_interpolator f r;
       Ok (t, r)).
Proof.
  intros H Hin Haddrs Hn Htry.
  destruct (getConfig_spec src ids self folders key H Hin)
    as (addrs' & es & Ha & He & (H1 & H2 & H3 & H4 & H5) & _).
  assert (addrs' = addrs) as -> by congruence.
  destruct (entries_of_sound src key addrs 0 es He) as [_ Hsorted].
  destruct (entries_of_complete src key addrs 0 es n addr He Hn) as [_ Hyes].
  specialize (Hyes e Htry). apply list_elem_of_lookup_1 in Hyes as [p Hp].
  pose proof (getConfig_channel_try_Got _ _ _ _ _ Htry) as (Hnum & _ & _ & Hres & _).
  pose proof (list_index_sorted es Hsorted p e Hp) as Hidx. rewrite Hnum in Hidx.
  split; [exact Hres |]. split.
  - eexists _, _, _, p. split; [exact H1 |]. split; [exact H2 |]. split; [exact H3 |].
    split; [exact Hidx |].
    rewrite !list_lookup_fmap, Hp. split; reflexivity.
  - intros f mV. unfold processVoltage_body, dict_get, list_get. simpl.
    rewrite H4. simpl. rewrite H1. simpl. rewrite Hidx. simpl.
    rewrite list_lookup_fmap, Hp. reflexivity.
Qed.

Lemma getConfig_gives_each_channel_its_resistance_witness :
  exists self folders,
    getConfig demo_sources [demo_key] = Got (self, folders) /\
    forall f mV,
      processVoltage_body (set_temp_interpolate_50k f self) demo_key (mV, 2)
      = (r ← py_div (1000 * (mV / 1000))%Q (2.5 - mV / 1000)%Q;
         t ← call_interpolator f r;
         Ok (t, r)).
Proof.
  assert (H : exists self folders, getConfig demo_sources [demo_key] = Got (self, folders)).
  { eexists _, _. vm_compute. reflexivity. }
  destruct H as (self & folders & H).
  exists self, folders. split; [exact H |].
  refine (proj2 (proj2 (getConfig_gives_each_channel_its_resistance demo_sources
                          [demo_key] self folders demo_key ["AIN0"; "AIN1"; "AIN2"]
                          2%nat "AIN2"
                          {| entry_number := 2; entry_label := "outer";
                             entry_max_temp := 60; entry_resistance := 1000;
                             entry_ticked := true; entry_device_name := "oven" |}
                          H _ _ _ _))).
  - left.
  - reflexivity.
  - reflexivity.
  - vm_compute. reflexivity.
Defined.

(** X22.  After [getConfig], a channel for which one of the options (the
    label, the threshold, the resistance, the plot flag or the device
    name) is missing is not configured: a reading of it cannot be
    converted, [processVoltage] raises [ValueError]. *)
Theorem getConfig_skips_incomplete_channel src ids self folders key addrs n addr :
  getConfig src ids = Got (self, folders) ->
  key ∈ ids ->
  all_channels src !! key = Some addrs ->
  addrs !! n = Some addr ->
  getConfig_channel_try src key n addr = Fails NoOptionError ->
  forall f mV,
    processVoltage_body (set_temp_interpolate_50k f self) key (mV, Z.of_nat n)
    = Raise (ValueError NotInList).
Proof.
  intros H Hin Haddrs Hn Htry f mV.
  destruct (getConfig_spec src ids self folders key H Hin)
    as (addrs' & es & Ha & He & (H1 & H2 & H3 & H4 & H5) & _).
  assert (addrs' = addrs) as -> by congruence.
  destruct (entries_of_complete src key addrs 0 es n addr He Hn) as [Hno _].
  specialize (Hno Htry).
  assert (Hnot : Z.of_nat n ∉ map (fun e => Z.of_nat (entry_number e)) es).
  { intros Hc. apply Hno. apply list_elem_of_fmap in Hc as (e & He' & Hc).
    apply list_elem_of_fmap. exists e. split; [simpl; lia | exact Hc]. }
  unfold processVoltage_body, dict_get. simpl. rewrite H4. simpl. rewrite H1. simpl.
  rewrite (list_index_absent _ _ Hnot). reflexivity.
Qed.

Lemma getConfig_skips_incomplete_channel_witness :
  exists self folders,
    getConfig demo_sources [demo_key] = Got (self, folders) /\
    forall f mV,
      processVoltage_body (set_temp_interpolate_50k f self) demo_key (mV, 1)
      = Raise (ValueError NotInList).
Proof.
  assert (H : exists self folders, getConfig demo_sources [demo_key] = Got (self, folders)).
  { eexists _, _. vm_compute. reflexivity. }
  destruct H as (self & folders & H).
  exists self, folders. split; [exact H |].
  refine (getConfig_skips_incomplete_channel demo_sources [demo_key] self folders
            demo_key ["AIN0"; "AIN1"; "AIN2"] 1%nat "AIN1" H _ _ _ _).
  - left.
  - reflexivity.
  - reflexivity.
  - vm_compute. reflexivity.
Defined.

(** * Properties of checkbox_changed *)

Lemma checkbox_section_inj k1 k2 : "checkbox" +:+ k1 = "checkbox" +:+ k2 -> k1 = k2.
Proof. cbn. intros H. injection H as H. exact H. Qed.

Lemma checkbox_vars_other xform channels key k full addrs vars :
  k <> key ->
  forall i b b',
    checkbox_vars xform channels k i vars b = (Ok tt, b') ->
    boxes_recorded xform key full addrs b ->
    boxes_recorded xform key full addrs b'.
Proof.
  intros Hne. induction vars as [|var rest IH]; intros i b b' H Hrec; simpl in H.
  - injection H as <-. exact Hrec.
  - destruct (dict_get (box_plot_channel b) k ≫= _) as [flags'|]; [| discriminate].
    destruct (dict_get channels k ≫= _) as [ch_addr|]; [| discriminate].
    simpl in H.
    destruct (box_internal_config b !! ("checkbox" +:+ k)) as [opts|]; [| discriminate].
    apply IH in H; [exact H |].
    intros j v Hj. destruct (Hrec j v Hj) as [(flags & Hf & Hfj) Hget].
    split.
    + exists flags. simpl. rewrite lookup_insert_ne by congruence. split; assumption.
    + intros addr Ha. specialize (Hget addr Ha). unfold getboolean_of in *. simpl.
      rewrite lookup_insert_ne; [exact Hget |].
      intros E. apply checkbox_section_inj in E. congruence.
Qed.

Lemma checkbox_vars_records xform channels key addrs full :
  channels !! key = Some addrs ->
  NoDup (map xform (take (length full) addrs)) ->
  forall vars i b b',
    drop i full = vars ->
    checkbox_vars xform channels key i vars b = (Ok tt, b') ->
    (forall j v, (j < i)%nat -> full !! j = Some v ->
       (exists flags, box_plot_channel b !! key = Some flags /\ flags !! j = Some v) /\
       (forall addr, addrs !! j = Some addr ->
          getboolean_of xform (box_internal_config b) ("checkbox" +:+ key) addr
          = Got v)) ->
    boxes_recorded xform key full addrs b'.
Proof.
  intros Hch Hnd. induction vars as [|var rest IH]; intros i b b' Hdrop H Hinv.
  - simpl in H. injection H as <-. intros j v Hj. apply Hinv; [| exact Hj].
    assert (Hl : length (drop i full) = 0%nat) by (rewrite Hdrop; reflexivity).
    rewrite length_drop in Hl. apply lookup_lt_Some in Hj. lia.
  - apply drop_cons_inv in Hdrop as [Hfi Hdrop].
    assert (Hi : (i < length full)%nat) by (eapply lookup_lt_Some; exact Hfi).
    simpl in H. unfold dict_get in H.
    destruct (box_plot_channel b !! key) as [flags|] eqn:Hflags; simpl in H;
      [| discriminate].
    unfold list_set in H.
    destruct (decide (i < length flags)%nat) as [Hlt|]; [| discriminate].
    rewrite Hch in H. simpl in H. unfold list_get in H.
    destruct (addrs !! i) as [ch_addr|] eqn:Haddr; [| discriminate].
    destruct (box_internal_config b !! ("checkbox" +:+ key)) as [opts|] eqn:Hopts;
      [| discriminate].
    apply (IH (S i) _ b' Hdrop H).
    intros j v Hj Hfj. simpl.
    destruct (decide (j = i)) as [-> | Hne].
    + assert (v = var) as -> by congruence.
      split.
      * exists (<[i := var]> flags). rewrite lookup_insert_eq.
        split; [reflexivity | apply list_lookup_insert_eq; exact Hlt].
      * intros addr Ha. assert (addr = ch_addr) as -> by congruence.
        unfold getboolean_of. simpl. rewrite !lookup_insert_eq. reflexivity.
    + destruct (Hinv j v ltac:(lia) Hfj) as [(flags0 & Hf0 & Hfj0) Hget].
      assert (flags0 = flags) as -> by congruence.
      split.
      * exists (<[i := var]> flags). rewrite lookup_insert_eq.
        split; [reflexivity |]. rewrite list_lookup_insert_ne by congruence. exact Hfj0.
      * intros addr Ha. specialize (Hget addr Ha).
        unfold getboolean_of in *. simpl. rewrite lookup_insert_eq.
        rewrite Hopts in Hget.
        assert (Hdiff : xform ch_addr <> xform addr).
        { intros E. apply Hne.
          apply (NoDup_lookup (map xform (take (length full) addrs)) j i
                   (xform addr) Hnd).
          - rewrite list_lookup_fmap, lookup_take_lt by lia. rewrite Ha. reflexivity.
          - rewrite list_lookup_fmap, lookup_take_lt by lia. rewrite Haddr. simpl.
            rewrite E. reflexivity. }
        rewrite lookup_insert_ne by exact Hdiff. exact Hget.
Qed.

Lemma checkbox_changed_keeps xform open_fails channels checkboxes key vars addrs keys :
  checkboxes !! key = Some vars ->
  channels !! key = Some addrs ->
  NoDup (map xform (take (length vars) addrs)) ->
  forall b b',
    checkbox_changed xform open_fails channels keys checkboxes b = (Ok tt, b') ->
    boxes_recorded xform key vars addrs b ->
    boxes_recorded xform key vars addrs b'.
Proof.
  intros Hvars Hch Hnd. induction keys as [|k keys IH]; intros b b' H Hrec; simpl in H.
  - injection H as <-. exact Hrec.
  - destruct (dict_get checkboxes k) as [vars_k|] eqn:Hk; [| discriminate].
    destruct (checkbox_vars xform channels k 0 vars_k b) as [[[]|e] b1] eqn:Hrun;
      [| discriminate].
    destruct open_fails as [e|]; [discriminate |].
    apply IH in H; [exact H |].
    assert (Hrec1 : boxes_recorded xform key vars addrs b1).
    { destruct (decide (k = key)) as [-> | Hne].
      - apply dict_get_Ok in Hk. assert (vars_k = vars) as -> by congruence.
        apply (checkbox_vars_records xform channels key addrs vars Hch Hnd vars 0%nat
                 b b1 (drop_0 vars) Hrun).
        intros j v Hj. lia.
      - apply (checkbox_vars_other xform channels key k vars addrs vars_k Hne 0%nat
                 b b1 Hrun Hrec). }
    exact Hrec1.
Qed.

Lemma checkbox_changed_last_written xform open_fails channels checkboxes keys :
  keys <> [] ->
  forall b b',
    checkbox_changed xform open_fails channels keys checkboxes b = (Ok tt, b') ->
    last (box_written b') = Some (box_internal_config b').
Proof.
  induction keys as [|k keys IH]; intros Hne b b' H; [congruence |].
  simpl in H.
  destruct (dict_get checkboxes k) as [vars_k|]; [| discriminate].
  destruct (checkbox_vars xform channels k 0 vars_k b) as [[[]|e] b1]; [| discriminate].
  destruct open_fails as [e|]; [discriminate |].
  destruct keys as [|k' keys].
  - simpl in H. injection H as <-. simpl. apply last_snoc.
  - apply (IH ltac:(discriminate) _ _ H).
Qed.

Lemma checkbox_changed_keeps_or_records
  xform open_fails channels keys checkboxes b b' key vars addrs :
  checkbox_changed xform open_fails channels keys checkboxes b = (Ok tt, b') ->
  key ∈ keys ->
  checkboxes !! key = Some vars ->
  channels !! key = Some addrs ->
  NoDup (map xform (take (length vars) addrs)) ->
  boxes_recorded xform key vars addrs b'.
Proof.
  intros H Hin Hvars Hch Hnd.
  revert b H. induction keys as [|k keys IH]; intros b H; [inversion Hin |].
  destruct (decide (k = key)) as [-> | Hne].
  - simpl in H. unfold dict_get in H. rewrite Hvars in H.
    destruct (checkbox_vars xform channels key 0 vars b) as [[[]|e] b1] eqn:Hrun;
      [| discriminate].
    destruct open_fails as [e|]; [discriminate |].
    apply (checkbox_changed_keeps xform None channels checkboxes key vars addrs keys
             Hvars Hch Hnd _ b' H).
    exact (checkbox_vars_records xform channels key addrs vars Hch Hnd vars 0%nat b b1
             (drop_0 vars) Hrun ltac:(intros j v Hj; lia)).
  - apply elem_of_cons in Hin as [-> | Hin]; [congruence |].
    simpl in H.
    destruct (dict_get checkboxes k) as [vars_k|]; [| discriminate].
    destruct (checkbox_vars xform channels k 0 vars_k b) as [[[]|e] b1]; [| discriminate].
    destruct open_fails as [e|]; [discriminate |].
    apply (IH Hin _ H).
Qed.

(** X23.  [ConfigParser] keeps one option for all the names that have the
    same normal form ([optionxform], by default lower case).  When
    [checkbox_changed] returns, the boxes of a device are recorded,
    provided the addresses of the channels that have a box are all
    different once normalised: box [i] is in [plot_channel[key][i]] and, in
    the section [checkbox<key>] of the internal configuration, it is the
    value that [getboolean] returns for the address of the [i]-th channel
    of the device; and the file written last holds that configuration. *)
Theorem checkbox_changed_records_boxes
  xform open_fails channels keys checkboxes b b' key vars addrs :
  checkbox_changed xform open_fails channels keys checkboxes b = (Ok tt, b') ->
  key ∈ keys ->
  checkboxes !! key = Some vars ->
  channels !! key = Some addrs ->
  NoDup (map xform (take (length vars) addrs)) ->
  boxes_recorded xform key vars addrs b' /\
  last (box_written b') = Some (box_internal_config b').
Proof.
  intros H Hin Hvars Hch Hnd. split.
  - apply (checkbox_changed_keeps_or_records xform open_fails channels keys checkboxes
             b b' key vars addrs); assumption.
  - assert (Hne : keys <> []) by (intros ->; inversion Hin).
    exact (checkbox_changed_last_written xform open_fails channels checkboxes keys
             Hne b b' H).
Qed.

Lemma checkbox_changed_records_boxes_witness :
  exists b',
    checkbox_changed str_lower None {[demo_key := ["AIN0"; "AIN1"; "AIN2"]]}
      [demo_key] {[demo_key := [false; true]]} demo_boxes = (Ok tt, b') /\
    boxes_recorded str_lower demo_key [false; true] ["AIN0"; "AIN1"; "AIN2"] b' /\
    box_internal_config b'
    = {["checkbox" +:+ demo_key := {["ain0" := false; "ain1" := true]}]}.
Proof.
  assert (H : exists b',
             checkbox_changed str_lower None {[demo_key := ["AIN0"; "AIN1"; "AIN2"]]}
               [demo_key] {[demo_key := [false; true]]} demo_boxes = (Ok tt, b') /\
             box_internal_config b'
             = {["checkbox" +:+ demo_key := {["ain0" := false; "ain1" := true]}]}).
  { eexists. split; vm_compute; reflexivity. }
  destruct H as (b' & H & Hcfg). exists b'. split; [exact H |]. split; [| exact Hcfg].
  refine (proj1 (checkbox_changed_records_boxes str_lower None
                   {[demo_key := ["AIN0"; "AIN1"; "AIN2"]]} [demo_key]
                   {[demo_key := [false; true]]} demo_boxes b' demo_key
                   [false; true] ["AIN0"; "AIN1"; "AIN2"] H _ _ _ _)).
  - left.
  - reflexivity.
  - reflexivity.
  - simpl. repeat constructor; rewrite list_elem_of_In; simpl; intuition discriminate.
Defined.

(** X24.  When the section [checkbox<key>] is missing from the internal
    configuration, a click on a box of the device changes
    [plot_channel[key][0]] in memory and then leaves [checkbox_changed]
    with [NoSectionError]: the configuration is unchanged and no file is
    written. *)
Theorem checkbox_changed_missing_section
  xform open_fails channels key keys checkboxes b var vars flags ch_addr addrs :
  checkboxes !! key = Some (var :: vars) ->
  box_plot_channel b !! key = Some flags ->
  (0 < length flags)%nat ->
  channels !! key = Some (ch_addr :: addrs) ->
  box_internal_config b !! ("checkbox" +:+ key) = None ->
  checkbox_changed xform open_fails channels (key :: keys) checkboxes b =
  (Raise NoSectionError,
   {| box_plot_channel := <[key := <[0%nat := var]> flags]> (box_plot_channel b);
      box_internal_config := box_internal_config b;
      box_written := box_written b |}).
Proof.
  intros Hvars Hflags Hlen Hch Hsec.
  cbn [checkbox_changed]. unfold dict_get at 1. rewrite Hvars.
  cbn [checkbox_vars]. unfold dict_get, list_set, list_get.
  rewrite Hflags. simpl.
  destruct (decide (0 < length flags)%nat); [| lia].
  rewrite Hch. simpl. rewrite Hsec. reflexivity.
Qed.

Lemma checkbox_changed_missing_section_witness :
  fst (checkbox_changed str_lower None {[demo_key := ["AIN0"; "AIN1"; "AIN2"]]}
         [demo_key] {[demo_key := [false; true]]}
         {| box_plot_channel := {[demo_key := [true; true]]};
            box_internal_config := ∅; box_written := [] |})
  = Raise NoSectionError.
Proof.
  rewrite (checkbox_changed_missing_section str_lower None
             {[demo_key := ["AIN0"; "AIN1"; "AIN2"]]} demo_key []
             {[demo_key := [false; true]]}
             {| box_plot_channel := {[demo_key := [true; true]]};
                box_internal_config := ∅; box_written := [] |}
             false [true] [true; true] "AIN0" ["AIN1"; "AIN2"]);
    try reflexivity.
  simpl. lia.
Defined.

Lemma map_of_nat_seq (l : list nat) (m : nat) :
  map Z.of_nat l = map Z.of_nat (seq 0 m) -> l = seq 0 m.
Proof.
  generalize (seq 0 m). induction l as [|x l IH]; intros [|y k] H; simpl in H;
    try discriminate; [reflexivity |].
  injection H as Hx H. f_equal; [lia | apply IH; exact H].
Qed.

(** X25.  The plot flags read back.  After [checkbox_changed] returned,
    a [getConfig] that reads the internal configuration that
    [checkbox_changed] left (the one whose contents it wrote to the file)
    gives a device exactly the flags of its boxes, provided the channels
    that [getConfig] configures for the device are its first channels, as
    many as there are boxes, and their addresses are all different once
    normalised by [ConfigParser] ([optionxform], by default lower case):
    [checkbox_changed] stores box [i] under the address of the [i]-th
    channel of the device, [getConfig] reads each configured channel
    under its own address. *)
Theorem getConfig_reads_back_checkbox_flags
  xform open_fails src keys checkboxes b b' key vars addrs ids self folders :
  checkbox_changed xform open_fails (all_channels src) keys checkboxes b = (Ok tt, b') ->
  key ∈ keys ->
  checkboxes !! key = Some vars ->
  all_channels src !! key = Some addrs ->
  NoDup (map xform (take (length vars) addrs)) ->
  reads_internal_config xform (box_internal_config b') src ->
  getConfig src ids = Got (self, folders) ->
  key ∈ ids ->
  read_channels self !! key = Some (map Z.of_nat (seq 0 (length vars))) ->
  plot_channel self !! key = Some vars.
Proof.
  intros Hrun Hin Hvars Haddrs Hnd Hreads Hcfg Hid Hchans.
  pose proof (checkbox_changed_keeps_or_records xform open_fails (all_channels src) keys
                checkboxes b b' key vars addrs Hrun Hin Hvars Haddrs Hnd) as Hrec.
  destruct (getConfig_spec src ids self folders key Hcfg Hid)
    as (addrs' & es & Ha & He & (H1 & _ & _ & _ & H5) & _).
  assert (addrs' = addrs) as -> by congruence.
  destruct (entries_of_sound src key addrs 0 es He) as [Hall _].
  assert (Hnums : map entry_number es = seq 0 (length vars)).
  { apply map_of_nat_seq. rewrite <- map_map. rewrite map_map.
    rewrite H1 in Hchans. injection Hchans as Hchans.
    rewrite <- Hchans. rewrite map_map. reflexivity. }
  rewrite H5. f_equal. apply list_eq. intros p.
  rewrite list_lookup_fmap.
  destruct (es !! p) as [e|] eqn:Hp; simpl.
  - assert (Hnum : entry_number e = p).
    { assert (Hm : map entry_number es !! p = Some (entry_number e))
        by (rewrite list_lookup_fmap, Hp; reflexivity).
      rewrite Hnums in Hm. apply lookup_seq in Hm as [Hm _]. simpl in Hm. lia. }
    apply list_elem_of_lookup_2 in Hp as Hine.
    apply (proj1 (Forall_forall _ _) Hall) in Hine as [_ (addr & Haddr & Htry)].
    rewrite Hnum, Nat.sub_0_r in Haddr.
    apply getConfig_channel_try_Got in Htry as (_ & _ & _ & _ & Hbool).
    destruct (lookup_lt_is_Some_2 vars p) as [v Hv].
    { assert (Hlen : length (map entry_number es) = length vars)
        by (rewrite Hnums; apply length_seq).
      rewrite length_map in Hlen. apply lookup_lt_Some in Hp. lia. }
    destruct (Hrec p v Hv) as [_ Hget]. specialize (Hget addr Haddr).
    unfold getboolean_of in Hget.
    destruct (box_internal_config b' !! ("checkbox" +:+ key)) as [opts|] eqn:Hsec;
      [| discriminate].
    destruct (opts !! xform addr) as [v'|] eqn:Hopt; [| discriminate].
    injection Hget as ->.
    rewrite (Hreads _ opts addr v Hsec Hopt) in Hbool. injection Hbool as <-.
    symmetry. exact Hv.
  - symmetry. apply lookup_ge_None_2. apply lookup_ge_None_1 in Hp.
    assert (Hlen : length (map entry_number es) = length vars)
      by (rewrite Hnums; apply length_seq).
    rewrite length_map in Hlen. lia.
Qed.

Lemma getConfig_reads_back_checkbox_flags_witness :
  exists self folders,
    getConfig
      (with_internal_config str_lower
         (box_internal_config
            (snd (checkbox_changed str_lower None (all_channels demo_sources_pair)
                    [demo_key] {[demo_key := [false; true]]} demo_boxes)))
         demo_sources_pair)
      [demo_key] = Got (self, folders) /\
    plot_channel self !! demo_key = Some [false; true].
Proof.
  set (run := checkbox_changed str_lower None (all_channels demo_sources_pair)
                [demo_key] {[demo_key := [false; true]]} demo_boxes).
  set (src := with_internal_config str_lower (box_internal_config (snd run))
                demo_sources_pair).
  assert (Hrun : checkbox_changed str_lower None (all_channels src) [demo_key]
                   {[demo_key := [false; true]]} demo_boxes = (Ok tt, snd run))
    by (vm_compute; reflexivity).
  assert (Hcfg : exists self folders,
             getConfig src [demo_key] = Got (self, folders) /\
             read_channels self !! demo_key = Some (map Z.of_nat (seq 0 2))).
  { eexists _, _. split; vm_compute; reflexivity. }
  destruct Hcfg as (self & folders & Hcfg & Hchans).
  exists self, folders. split; [exact Hcfg |].
  refine (getConfig_reads_back_checkbox_flags str_lower None src [demo_key]
            {[demo_key := [false; true]]} demo_boxes (snd run) demo_key
            [false; true] ["AIN0"; "AIN2"] [demo_key] self folders
            Hrun _ _ _ _ _ Hcfg _ Hchans).
  - left.
  - reflexivity.
  - reflexivity.
  - simpl. repeat constructor; rewrite list_elem_of_In; simpl; intuition discriminate.
  - intros section opts option v Hsec Hopt. subst src. simpl.
    unfold getboolean_of. rewrite Hsec, Hopt. reflexivity.
  - left.
Defined.

(** * Properties of update_plot *)

Lemma recent_window_length {A} (m : Z) (data : list A) :
  1 <= m ->
  length (recent_window m data) = Z.to_nat (Z.min m (Z.of_nat (length data))).
Proof.
  intros Hm. unfold recent_window, py_slice_from.
  destruct (Z.ltb_spec (- m) 0); [| lia].
  rewrite length_drop. lia.
Qed.

Lemma raises_bind_l {A B} (m : M A) (k : A -> M B) s :
  raises m s -> raises (m ≫= k) s.
Proof.
  intros [e He]. exists e. unfold mbind, M_bind.
  destruct (m s) as [[a|e'] s1]; simpl in *; congruence.
Qed.

Lemma raises_bind_r {A B} (m : M A) (k : A -> M B) s :
  (forall a s1, m s = (Ok a, s1) -> raises (k a) s1) ->
  raises (m ≫= k) s.
Proof.
  intros H. unfold raises, mbind, M_bind.
  destruct (m s) as [[a|e] s1] eqn:E; simpl; [apply (H a s1 eq_refl) | eauto].
Qed.

Lemma plot_rows_mismatch self key time_array temp_array flags lbls :
  plot_channel self !! key = Some flags ->
  forall i j label row s,
    lbls !! j = Some label ->
    flags !! (i + j)%nat = Some true ->
    temp_array !! (i + j)%nat = Some row ->
    length time_array <> length row ->
    raises (plot_rows self key time_array temp_array i lbls) s.
Proof.
  intros Hflags. induction lbls as [|label0 rest IH]; intros i j label row s Hl Hf Hr Hlen;
    [discriminate |].
  cbn [plot_rows]. destruct j as [|j].
  - rewrite Nat.add_0_r in Hf, Hr.
    exists (ValueError ShapeMismatch).
    unfold mbind, M_bind, lift, dict_get, list_get, ax_plot. rewrite Hflags. simpl.
    rewrite Hf. simpl. rewrite Hr. simpl.
    destruct (decide (length time_array = length row)); [contradiction | reflexivity].
  - apply raises_bind_r. intros flags' s1 _.
    apply raises_bind_r. intros flag s2 _.
    apply raises_bind_r. intros [] s3 _.
    apply (IH (S i) j label row s3 Hl); [| | exact Hlen].
    + rewrite <- Hf. f_equal. lia.
    + rewrite <- Hr. f_equal. lia.
Qed.

Lemma for_each_raises_at {A} (body : A -> M unit) (x : A) (l : list A) :
  x ∈ l ->
  (forall s, raises (body x) s) ->
  forall s, raises (for_each l body) s.
Proof.
  intros Hin Hx. induction l as [|y l IH]; intros s; [inversion Hin |].
  cbn [for_each]. apply elem_of_cons in Hin as [<- | Hin].
  - apply raises_bind_l. apply Hx.
  - apply raises_bind_r. intros [] s1 _. apply IH. exact Hin.
Qed.

(** X26.  When a channel that is flagged for the plot has fewer values in
    [temp_data] than there are time stamps, and also fewer than the window
    size [LOG_MAX], [update_plot] cannot draw it: it raises (at the latest
    the [ValueError] of [plot] for series of different lengths). *)
Theorem update_plot_fails_when_behind self s key i lbls label flags :
  key ∈ ljsID self ->
  labels self !! key = Some lbls ->
  lbls !! i = Some label ->
  plot_channel self !! key = Some flags ->
  flags !! i = Some true ->
  (exists rows row,
     temp_data s !! key = Some rows /\ rows !! i = Some row /\
     (length row < length (time_data s))%nat /\
     Z.of_nat (length row) < log_max self) ->
  raises (update_plot self) s.
Proof.
  intros Hin Hlbls Hl Hflags Hf (rows & row & Hrows & Hrow & Hlt & Hmax).
  unfold update_plot. apply raises_bind_r. intros s0 s1 Hget.
  unfold get_state in Hget. injection Hget as <- <-.
  destruct (decide (time_data s = [] \/ temp_data s = ∅)) as [[Hnil | Hemp] | _].
  { rewrite Hnil in Hlt. simpl in Hlt. lia. }
  { rewrite Hemp, lookup_empty in Hrows. discriminate. }
  set (mp := Z.min (log_max self) (Z.of_nat (length (time_data s)))).
  assert (Hmp : 1 <= mp) by (subst mp; lia).
  apply raises_bind_r. intros [] s1 _.
  apply (for_each_raises_at _ key (ljsID self) Hin). intros s2.
  apply raises_bind_r. intros td s3 Htd.
  unfold lift in Htd. injection Htd as Htd <-. apply dict_get_Ok in Htd.
  assert (td = rows) as -> by congruence.
  apply raises_bind_r. intros lbls' s4 Hl'.
  unfold lift in Hl'. injection Hl' as Hl' <-. apply dict_get_Ok in Hl'.
  assert (lbls' = lbls) as -> by congruence.
  apply (plot_rows_mismatch self key _ _ flags lbls Hflags 0%nat i label
           (recent_window mp row) s2 Hl Hf).
  - simpl. rewrite list_lookup_fmap, Hrow. reflexivity.
  - rewrite !recent_window_length by exact Hmp. subst mp. lia.
Qed.

Lemma update_plot_fails_when_behind_witness :
  raises (update_plot (demo_config 2.5))
         (set_time_data ["2024-07-01 11:59:59"] demo_state).
Proof.
  apply (update_plot_fails_when_behind (demo_config 2.5)
           (set_time_data ["2024-07-01 11:59:59"] demo_state) demo_key 0%nat
           ["inner"; "outer"] "inner" [true; true]).
  - left.
  - reflexivity.
  - reflexivity.
  - reflexivity.
  - reflexivity.
  - exists [[]; []], []. repeat split; simpl; lia.
Defined.
